(** * DiffAugment-stylegan2-pytorch: the loss engine and the training loop

    A shallow embedding of [training/loss.py] (class [StyleGAN2Loss]) and of
    [training/training_loop.py] (function [training_loop]).

    Python integers are [Z]; Python numbers that may be floats
    ([total_kimg], [kimg_per_tick], [r1_gamma], ...) are exact rationals [Q];
    a tensor is a nested list of rationals, and every numeric kernel of
    torch (the networks, softplus, reductions, autograd) is a field of the
    [Collaborators] class, so that nothing below depends on what they
    compute.  Side effects (forward passes under [ddp_sync], [backward]
    calls, optimizer steps, ...) are recorded in a trace carried by a small
    state-and-exception monad in which, as in Python, the effects performed
    before an exception is raised remain visible. *)

From Stdlib Require Import ZArith QArith Qminmax Qround List Ascii String Bool Lia.
From Stdlib Require Import Permutation Sorted.
Import ListNotations.

Set Warnings "-register-all".

(* ------------------------------------------------------------------ *)
(** ** Python values and exceptions *)

Module Py.

Inductive exn : Type :=
| AssertionError
| StopIteration
| ZeroDivisionError
| UnboundLocalError (name : string)
| AttributeError (msg : string)
| TypeError (msg : string).

(** [x in l] on strings. *)
Fixpoint str_in (x : string) (l : list string) : bool :=
  match l with
  | [] => false
  | y :: l' => String.eqb x y || str_in x l'
  end.

(** The substring test ['G' in name] for a one-character needle. *)
Fixpoint char_in (c : Ascii.ascii) (s : string) : bool :=
  match s with
  | EmptyString => false
  | String d s' => Ascii.eqb c d || char_in c s'
  end.

Definition Qltb (a b : Q) : bool := negb (Qle_bool b a).

(** [max(a, b)] and [min(a, b)]: the first argument wins ties. *)
Definition max (a b : Q) : Q := if Qltb a b then b else a.
Definition min (a b : Q) : Q := if Qltb b a then b else a.

(** [np.sign]. *)
Definition sign (x : Q) : Q := inject_Z (Z.sgn (Qnum x)).

End Py.

(* ------------------------------------------------------------------ *)
(** ** Tensors, autograd provenance and the external collaborators *)

Module Torch.

(** An n-dimensional array as nested rows. *)
Inductive tensor : Type :=
| Scalar (q : Q)
| Rows (rows : list tensor).

(** Iterating over a tensor yields the slices along dimension 0. *)
Definition unbind (t : tensor) : list tensor :=
  match t with
  | Scalar _ => []
  | Rows rows => rows
  end.

(** [np.stack] followed by [torch.from_numpy]. *)
Definition stack (l : list tensor) : tensor := Rows l.

Fixpoint shape (t : tensor) : list Z :=
  match t with
  | Scalar _ => []
  | Rows rows =>
      Z.of_nat (List.length rows) ::
      match rows with
      | [] => []
      | r :: _ => shape r
      end
  end.

(** [l[:n]] and [l[n:]] fused: the chunks of [Tensor.split(n)]. *)
Fixpoint chunks (fuel : nat) (n : nat) (l : list tensor) : list tensor :=
  match fuel with
  | O => []
  | S fuel' =>
      match l with
      | [] => []
      | _ :: _ => Rows (firstn n l) :: chunks fuel' n (skipn n l)
      end
  end.

(** [t.split(n)] along dimension 0 (for [n >= 1]). *)
Definition split (t : tensor) (n : Z) : list tensor :=
  chunks (List.length (unbind t)) (Z.to_nat n) (unbind t).

(** The modules handed to the loss ([ddp_modules]). *)
Inductive module_id : Type := G_mapping_id | G_synthesis_id | D_id.

(** The two trainable top-level modules. *)
Inductive top_module : Type := G | D.

Definition owner (m : module_id) : top_module :=
  match m with
  | G_mapping_id | G_synthesis_id => G
  | D_id => D
  end.

Definition top_eqb (a b : top_module) : bool :=
  match a, b with
  | G, G | D, D => true
  | _, _ => false
  end.

(** A tensor together with the modules its autograd graph runs through. *)
Record var : Type := Var { data : tensor; graph : list module_id }.

(** Everything the core consumes through a narrow interface: the
    networks, the augmentations, torch's numeric kernels, the random
    number generators (functions of a draw counter) and the data set. *)
Class Collaborators : Type := {
  G_mapping : tensor -> tensor -> bool -> tensor;  (* z, c, skip_w_avg_update *)
  G_synthesis : tensor -> tensor;
  D_net : tensor -> tensor -> tensor;
  DiffAugment : tensor -> string -> tensor;
  augment_pipe : Q -> tensor -> tensor;            (* strength p, img *)
  softplus : tensor -> tensor;
  neg : tensor -> tensor;
  mean : tensor -> tensor;
  sum : tensor -> tensor;
  sum_dims : tensor -> list Z -> tensor;
  square : tensor -> tensor;
  mul_scalar : tensor -> Q -> tensor;
  div_scalar : tensor -> Q -> tensor;
  add_scalar : tensor -> Q -> tensor;
  add : tensor -> tensor -> tensor;
  to_float32 : tensor -> tensor;
  (* derivative of a scalar function of a tensor, at a point *)
  autograd_grad : (tensor -> tensor) -> tensor -> tensor;
  (* ws[:, cutoff:] = other[:, cutoff:] *)
  splice_from : tensor -> Z -> tensor -> tensor;
  float_pow : Q -> Q -> Q;
  random_ : nat -> Z -> Z -> Z;
  rand : nat -> Q;
  normal : nat -> nat -> nat -> Q;
  randn_like : nat -> tensor -> tensor;
  randint : nat -> Z -> Z;
  dataset_len : Z;
  get_label : Z -> tensor;
  z_dim : Z;
  per_device_loader : nat -> list (tensor * tensor)
}.

(** [ws.shape[1]]. *)
Definition shape1 (t : tensor) : Z := nth 1 (shape t) 0%Z.

Inductive event : Type :=
(* loss engine *)
| EvForward (m : module_id) (sync : bool)      (* with misc.ddp_sync(m, sync): m(...) *)
| EvFixedAugment (policy : string)             (* DiffAugment(img, policy=...) *)
| EvAugmentPipe (p : Q)                        (* self.augment_pipe(img) *)
| EvDetachRequiresGrad (flag : bool)           (* real_img.detach().requires_grad_(flag) *)
| EvAutogradGrad (through : list module_id)    (* torch.autograd.grad *)
| EvBackward (loss : tensor) (through : list module_id)
(* driver *)
| EvZeroGrad (m : top_module)
| EvRequiresGrad (m : top_module) (flag : bool)
| EvReduceGradients (m : top_module)
| EvClipGrad (m : top_module)
| EvOptStep (m : top_module)
| EvMarkStep
| EvEMA (beta : Q)
| EvAddScalar (tag : string) (global_step : Z)
| EvFlush
| EvAbortPoll
| EvStepClosure (cur_nimg : Z).

(** One boolean per trainable top-level module. *)
Record flags : Type := Flags { at_G : bool; at_D : bool }.

Definition get (f : flags) (m : top_module) : bool :=
  match m with G => at_G f | D => at_D f end.

Definition set (f : flags) (m : top_module) (b : bool) : flags :=
  match m with
  | G => Flags b (at_D f)
  | D => Flags (at_G f) b
  end.

(** The part of the process state the core reads and writes.  The
    augmentation pipe is one object shared by the driver and the loss:
    [pipe_p] is its strength [p], [None] when [augment_pipe is None]. *)
Record machine : Type := Machine {
  trace : list event;           (* most recent event first *)
  requires_grad : flags;
  grad_populated : flags;
  pipe_p : option Q;
  draws : nat                   (* random draws made so far *)
}.

Definition is_backward (e : event) : bool :=
  match e with EvBackward _ _ => true | _ => false end.
Definition is_detach (e : event) : bool :=
  match e with EvDetachRequiresGrad _ => true | _ => false end.
Definition is_ema (e : event) : bool :=
  match e with EvEMA _ => true | _ => false end.
Definition is_opt_step (e : event) : bool :=
  match e with EvOptStep _ => true | _ => false end.
Definition is_step_closure (e : event) : bool :=
  match e with EvStepClosure _ => true | _ => false end.

(** Does the graph run through a sub-module of [m]? *)
Definition through_top (g : list module_id) (m : top_module) : bool :=
  existsb (fun i => top_eqb (owner i) m) g.

End Torch.

(* ------------------------------------------------------------------ *)
(** ** State and exceptions *)

Module Monad.
Import Torch.

(** A computation returns a value or raises, and in both cases leaves a
    machine behind. *)
Definition M (A : Type) : Type := machine -> (Py.exn + A) * machine.

Definition ret {A} (a : A) : M A := fun s => (inr a, s).

Definition bind {A B} (c : M A) (k : A -> M B) : M B :=
  fun s =>
    match c s with
    | (inl e, s') => (inl e, s')
    | (inr a, s') => k a s'
    end.

Definition raise {A} (e : Py.exn) : M A := fun s => (inl e, s).

Definition emit (e : event) : M unit :=
  fun s => (inr tt, Machine (e :: trace s) (requires_grad s) (grad_populated s)
                            (pipe_p s) (draws s)).

(** The index of the next random draw; the counter advances. *)
Definition draw : M nat :=
  fun s => (inr (draws s), Machine (trace s) (requires_grad s) (grad_populated s)
                                   (pipe_p s) (S (draws s))).

Definition get_pipe : M (option Q) := fun s => (inr (pipe_p s), s).

Definition set_pipe (p : option Q) : M unit :=
  fun s => (inr tt, Machine (trace s) (requires_grad s) (grad_populated s) p (draws s)).

Definition set_requires_grad (m : top_module) (b : bool) : M unit :=
  fun s => (inr tt, Machine (EvRequiresGrad m b :: trace s) (set (requires_grad s) m b)
                            (grad_populated s) (pipe_p s) (draws s)).

(** [opt.zero_grad(set_to_none=True)]. *)
Definition zero_grad (m : top_module) : M unit :=
  fun s => (inr tt, Machine (EvZeroGrad m :: trace s) (requires_grad s)
                            (set (grad_populated s) m false) (pipe_p s) (draws s)).

(** [v.backward()]: gradients accumulate into the parameters of every
    module on the graph of [v] that has gradients enabled.  torch raises
    [RuntimeError] when nothing on the graph requires gradients; that case
    is not represented here, and a fact that needs [backward] to return
    assumes [Accepts.owner_enabled]. *)
Definition backward (v : var) : M unit :=
  fun s =>
    let hit m := get (grad_populated s) m
                 || (get (requires_grad s) m && through_top (graph v) m) in
    (inr tt, Machine (EvBackward (data v) (graph v) :: trace s) (requires_grad s)
                     (Flags (hit G) (hit D)) (pipe_p s) (draws s)).

(** [steps s s' emas opts]: from [s] to [s'] the trace grew by events
    among which the EMA updates are [emas] and the optimizer steps are
    [opts], and the augmentation strength did not change. *)
Definition steps (s s' : machine) (emas opts : list event) : Prop :=
  exists new, trace s' = (new ++ trace s)%list
              /\ filter is_ema new = emas
              /\ filter is_opt_step new = opts
              /\ pipe_p s' = pipe_p s.

Definition quiet (s s' : machine) : Prop := steps s s' [] [].

Declare Scope monad_scope.
Delimit Scope monad_scope with monad.

Notation "x <- c ;; k" := (bind c (fun x => k))
  (at level 100, c at next level, right associativity) : monad_scope.
Notation "c ;;; k" := (bind c (fun _ => k))
  (at level 100, right associativity) : monad_scope.

End Monad.

(* ------------------------------------------------------------------ *)
(** ** training/loss.py *)

Module Loss.
Import Torch Monad.
Local Open Scope monad_scope.
Local Open Scope string_scope.

(** A local variable that holds either the literal [0] or a tensor. *)
Inductive value : Type :=
| Int (n : Z)
| Tensor (v : var).

(** The fields of a [StyleGAN2Loss] object set from [loss_kwargs]; the
    networks and [augment_pipe] are the shared objects of [Collaborators]
    and [machine]. *)
Record StyleGAN2Loss : Type := {
  diffaugment : string;
  style_mixing_prob : Q;
  r1_gamma : Q;
  pl_batch_shrink : Z;
  pl_decay : Q;
  pl_weight : Q
}.

Section WithCollaborators.
Context `{Collaborators}.

Definition lift1 (f : tensor -> tensor) (v : var) : var :=
  Var (f (data v)) (graph v).

(** [v + w] where [w] is the literal [0] or a tensor. *)
Definition add_value (v : var) (w : value) : var :=
  match w with
  | Int n => Var (add_scalar (data v) (inject_Z n)) (graph v)
  | Tensor t => Var (add (data v) (data t)) (graph v ++ graph t)
  end.

(** [w.mean()]: a Python [int] has no such attribute. *)
Definition value_mean (w : value) : M var :=
  match w with
  | Int _ => raise (Py.AttributeError "'int' object has no attribute 'mean'")
  | Tensor t => ret (lift1 mean t)
  end.

(** Reading a local variable that no executed statement has bound. *)
Definition local {A} (name : string) (x : option A) : M A :=
  match x with
  | Some a => ret a
  | None => raise (Py.UnboundLocalError name)
  end.

(** Lines 44-54.  [random_(1, ws.shape[1])] is taken as a total kernel;
    torch raises unless [1 < ws.shape[1]], and a fact that needs the cutoff
    to be drawn assumes [Accepts.mixing_defined]. *)
Definition run_G (self : StyleGAN2Loss) (z c : tensor) (sync : bool) : M (var * var) :=
  emit (EvForward G_mapping_id sync) ;;;
  let ws := G_mapping z c false in
  ws <- (if Py.Qltb 0 (style_mixing_prob self) then
           i <- draw ;;
           let cutoff := random_ i 1 (shape1 ws) in
           j <- draw ;;
           let cutoff := if Py.Qltb (rand j) (style_mixing_prob self)
                         then cutoff else shape1 ws in
           k <- draw ;;
           emit (EvForward G_mapping_id sync) ;;;
           ret (splice_from ws cutoff (G_mapping (randn_like k z) c true))
         else ret ws) ;;
  emit (EvForward G_synthesis_id sync) ;;;
  let img := G_synthesis ws in
  ret (Var img [G_synthesis_id; G_mapping_id], Var ws [G_mapping_id]).

(** What [run_D] computes from its image argument. *)
Definition run_D_fn (self : StyleGAN2Loss) (pipe : option Q) (c : tensor)
    (img : tensor) : tensor :=
  let img := if String.eqb (diffaugment self) "" then img
             else DiffAugment img (diffaugment self) in
  let img := match pipe with
             | None => img
             | Some p => augment_pipe p img
             end in
  D_net img c.

Definition run_D (self : StyleGAN2Loss) (img : var) (c : tensor) (sync : bool) : M var :=
  (if String.eqb (diffaugment self) "" then ret tt
   else emit (EvFixedAugment (diffaugment self))) ;;;
  pipe <- get_pipe ;;
  match pipe with
  | None => ret tt
  | Some p => emit (EvAugmentPipe p)
  end ;;;
  emit (EvForward D_id sync) ;;;
  ret (Var (run_D_fn self pipe c (data img)) (D_id :: graph img)).

Definition phases_all : list string :=
  ["Gmain"; "Greg"; "Gboth"; "Dmain"; "Dreg"; "Dboth"].

Definition do_Gmain (phase : string) : bool := Py.str_in phase ["Gmain"; "Gboth"].
Definition do_Dmain (phase : string) : bool := Py.str_in phase ["Dmain"; "Dboth"].
Definition do_Gpl (self : StyleGAN2Loss) (phase : string) : bool :=
  Py.str_in phase ["Greg"; "Gboth"] && negb (Qeq_bool (pl_weight self) 0).
Definition do_Dr1 (self : StyleGAN2Loss) (phase : string) : bool :=
  Py.str_in phase ["Dreg"; "Dboth"] && negb (Qeq_bool (r1_gamma self) 0).

(** The module a phase trains: the driver's test ['G' in phase.name]. *)
Definition phase_owner (phase : string) : top_module :=
  if Py.char_in "G"%char phase then G else D.

(** The R1 penalty term [loss_Dr1] of lines 102-105. *)
Definition r1_term (self : StyleGAN2Loss) (pipe : option Q) (real_c real_img_tmp : tensor)
    (real_logits : var) : var :=
  let r1_grads :=
    Var (autograd_grad (fun x => sum (run_D_fn self pipe real_c x)) real_img_tmp)
        (graph real_logits) in
  let r1_penalty := lift1 (fun t => sum_dims t [1; 2; 3]%Z) (lift1 square r1_grads) in
  lift1 (fun t => mul_scalar t (r1_gamma self / 2)) r1_penalty.

(** The locals bound only inside [if do_Dmain or do_Dr1:]. *)
Record real_branch : Type := {
  real_logits : option var;
  loss_Dreal : option value;
  loss_Dr1 : option value
}.

Definition accumulate_gradients (self : StyleGAN2Loss) (phase : string)
    (real_img real_c gen_z gen_c : tensor) (sync : bool) (gain : Q) : M var :=
  (if Py.str_in phase phases_all then ret tt else raise Py.AssertionError) ;;;
  if do_Gmain phase then
    (* Gmain: Maximize logits for generated images. *)
    g <- run_G self gen_z gen_c (sync && negb (do_Gpl self phase)) ;;
    let gen_img := fst g in
    gen_logits <- run_D self gen_img gen_c false ;;
    let loss_Gmain := lift1 softplus (lift1 neg gen_logits) in
    let loss_Gmain := lift1 (fun t => mul_scalar t gain) (lift1 mean loss_Gmain) in
    backward loss_Gmain ;;;
    ret (lift1 mean loss_Gmain)
  else
    (* Dmain: Minimize logits for generated images. *)
    (if do_Dmain phase then
       g <- run_G self gen_z gen_c false ;;
       let gen_img := fst g in
       gen_logits <- run_D self gen_img gen_c false ;;
       let loss_Dgen := lift1 softplus gen_logits in
       backward (lift1 (fun t => mul_scalar t gain) (lift1 mean loss_Dgen))
     else ret tt) ;;;
    (* Dmain: Maximize logits for real images.  Dr1: Apply R1 regularization. *)
    b <- (if do_Dmain phase || do_Dr1 self phase then
            emit (EvDetachRequiresGrad (do_Dr1 self phase)) ;;;
            let real_img_tmp := Var real_img [] in
            pipe <- get_pipe ;;
            real_logits <- run_D self real_img_tmp real_c sync ;;
            let loss_Dreal :=
              if do_Dmain phase then Tensor (lift1 softplus (lift1 neg real_logits))
              else Int 0 in
            loss_Dr1 <- (if do_Dr1 self phase then
                           emit (EvAutogradGrad (graph real_logits)) ;;;
                           ret (Tensor (r1_term self pipe real_c (data real_img_tmp) real_logits))
                         else ret (Int 0)) ;;
            ret (Build_real_branch (Some real_logits) (Some loss_Dreal) (Some loss_Dr1))
          else ret (Build_real_branch None None None)) ;;
    real_logits <- local "real_logits" (real_logits b) ;;
    loss_Dreal <- local "loss_Dreal" (loss_Dreal b) ;;
    loss_Dr1 <- local "loss_Dr1" (loss_Dr1 b) ;;
    let total := add_value (add_value (lift1 (fun t => mul_scalar t 0) real_logits)
                                      loss_Dreal) loss_Dr1 in
    backward (lift1 (fun t => mul_scalar t gain) (lift1 mean total)) ;;;
    value_mean loss_Dreal.

End WithCollaborators.
End Loss.

(* ------------------------------------------------------------------ *)
(** ** training/training_loop.py *)

Module TrainingLoop.
Import Torch Monad Loss.
Local Open Scope monad_scope.
Local Open Scope string_scope.

(** The keyword arguments of [training_loop] that the loop reads, and what
    torch_xla reports about the process. *)
Record kwargs : Type := {
  augment_kwargs : bool;          (* augment_kwargs is not None *)
  loss_kwargs : StyleGAN2Loss;
  num_gpus : Z;
  batch_size : Z;
  batch_gpu : Z;
  ema_kimg : Q;
  ema_rampup : option Q;
  augment_p : Q;
  ada_target : option Q;
  ada_interval : Z;
  ada_kimg : Q;
  total_kimg : Q;
  kimg_per_tick : Q;
  (* abort_fn(): the answer to the poll made when [cur_tick] ticks are complete *)
  abort_fn : option (Z -> bool);
  ordinal : Z;                    (* xm.get_ordinal() *)
  is_master_ordinal : bool        (* xm.is_master_ordinal() *)
}.

(** [dnnlib.EasyDict(name=..., module=..., opt=..., interval=...)]; the
    optimizer is identified by its module. *)
Record phase : Type := { name : string; module : top_module; interval : Z }.

(** Lines 208-211. *)
Definition phases : list phase :=
  map (fun nm => {| name := fst nm ++ "both"; module := snd nm; interval := 1 |})
      [("G", G); ("D", D)].

(** A [training_stats.Collector]: the value of ['Loss/signs/real'] it holds
    after [update()] at a given [batch_idx]. *)
Definition collector : Type := Z -> Q.

(** Line 190; no later statement assigns [ada_stats]. *)
Definition ada_stats : option collector := None.

(** The local variables of [training_loop] that change inside the loop. *)
Record locals : Type := Locals {
  cur_nimg : Z;
  cur_tick : Z;
  tick_start_nimg : Z;
  batch_idx : Z;
  training_set_iterator : list (tensor * tensor);
  loss_item_g : option var;
  loss_item_d : option var
}.

Inductive control : Type := Continue | Break.

Section WithCollaborators.
Context `{Collaborators}.

(** [torch.randn((rows, cols))]. *)
Definition randn (i : nat) (rows cols : Z) : tensor :=
  Rows (map (fun a => Rows (map (fun b => Scalar (normal i a b))
                                (seq 0 (Z.to_nat cols))))
            (seq 0 (Z.to_nat rows))).

(** [[training_set.get_label(np.random.randint(len(training_set))) for _ in range(n)]]. *)
Fixpoint sample_labels (n : nat) : M (list tensor) :=
  match n with
  | O => ret []
  | S n' =>
      i <- draw ;;
      let c := get_label (randint i dataset_len) in
      rest <- sample_labels n' ;;
      ret (c :: rest)
  end.

(** [zip(phases, all_gen_z, all_gen_c)]. *)
Fixpoint zip3 {A B C} (a : list A) (b : list B) (c : list C) : list (A * B * C) :=
  match a, b, c with
  | x :: a', y :: b', z :: c' => (x, y, z) :: zip3 a' b' c'
  | _, _, _ => []
  end.

(** Lines 237-243: the triples the [for] loop iterates over, given the
    index [i] of the draw behind [torch.randn] and the sampled labels.
    Iterating over the stacked label tensor yields its rows. *)
Definition phase_items (cfg : kwargs) (i : nat) (labels : list tensor)
  : list (phase * tensor * tensor) :=
  let all_gen_z := split (randn i (2 * batch_gpu cfg) z_dim) (batch_gpu cfg) in
  let all_gen_c := stack labels in
  zip3 phases all_gen_z (unbind all_gen_c).

(** Lines 186-193 and 222-225. *)
Definition setup (cfg : kwargs) : M locals :=
  i <- draw ;;
  let training_set_iterator := per_device_loader i in
  set_requires_grad G false ;;;
  set_requires_grad D false ;;;
  (if augment_kwargs cfg
      && (Py.Qltb 0 (augment_p cfg)
          || match ada_target cfg with Some _ => true | None => false end)
   then set_pipe (Some (augment_p cfg))
   else set_pipe None) ;;;
  ret (Locals 0 0 0 0 training_set_iterator None None).

(** Lines 229-233: the iterator is recreated when it is exhausted. *)
Definition next_batch (l : locals) : M (tensor * tensor * list (tensor * tensor)) :=
  match training_set_iterator l with
  | b :: rest => ret (b, rest)
  | [] =>
      i <- draw ;;
      match per_device_loader i with
      | b :: rest => ret (b, rest)
      | [] => raise Py.StopIteration
      end
  end.

(** Lines 244-267: one pass of the [for] loop over the phases. *)
Definition execute_phase (cfg : kwargs) (phase_real_img phase_real_c : tensor)
    (l : locals) (item : phase * tensor * tensor) : M locals :=
  let '(ph, phase_gen_z, phase_gen_c) := item in
  zero_grad (module ph) ;;;
  set_requires_grad (module ph) true ;;;
  let sync := (ordinal cfg =? 0)%Z in
  let gain := inject_Z (interval ph) in
  loss_item <- accumulate_gradients (loss_kwargs cfg) (name ph) phase_real_img
                 phase_real_c phase_gen_z phase_gen_c sync gain ;;
  let l := if Py.char_in "G"%char (name ph)
           then Locals (cur_nimg l) (cur_tick l) (tick_start_nimg l) (batch_idx l)
                       (training_set_iterator l) (Some loss_item) (loss_item_d l)
           else Locals (cur_nimg l) (cur_tick l) (tick_start_nimg l) (batch_idx l)
                       (training_set_iterator l) (loss_item_g l) (Some loss_item) in
  (* Update weights. *)
  set_requires_grad (module ph) false ;;;
  emit (EvReduceGradients (module ph)) ;;;
  emit (EvClipGrad (module ph)) ;;;
  emit (EvOptStep (module ph)) ;;;
  emit EvMarkStep ;;;
  ret l.

Fixpoint execute_phases (cfg : kwargs) (phase_real_img phase_real_c : tensor)
    (l : locals) (items : list (phase * tensor * tensor)) : M locals :=
  match items with
  | [] => ret l
  | item :: items' =>
      l <- execute_phase cfg phase_real_img phase_real_c l item ;;
      execute_phases cfg phase_real_img phase_real_c l items'
  end.

(** Lines 272-275. *)
Definition ema_beta (cfg : kwargs) (cur_nimg : Z) : Q :=
  let ema_nimg := ema_kimg cfg * 1000 in
  let ema_nimg := match ema_rampup cfg with
                  | Some r => Py.min ema_nimg (inject_Z cur_nimg * r)
                  | None => ema_nimg
                  end in
  float_pow (1 # 2) (inject_Z (batch_size cfg) / Py.max ema_nimg (1 # 100000000)).

(** Lines 285-286: the new value of [augment_pipe.p], for [ada_kimg != 0]
    (with [ada_kimg = 0] the floating-point division gives [inf] or [nan],
    which have no counterpart here). *)
Definition ada_adjust (cfg : kwargs) (target stat p : Q) : Q :=
  let adjust := Py.sign (stat - target)
                * inject_Z (batch_size cfg * ada_interval cfg)
                / (ada_kimg cfg * 1000) in
  Py.max (p + adjust) 0.

(** Lines 283-286. *)
Definition execute_ada (cfg : kwargs) (stats : option collector) (batch_idx : Z) : M unit :=
  match stats with
  | None => ret tt
  | Some c =>
      if (ada_interval cfg =? 0)%Z then raise Py.ZeroDivisionError
      else if (batch_idx mod ada_interval cfg =? 0)%Z then
        match ada_target cfg with
        | None => raise (Py.TypeError "unsupported operand type(s) for -")
        | Some target =>
            pipe <- get_pipe ;;
            match pipe with
            | None => raise (Py.AttributeError "'NoneType' object has no attribute 'p'")
            | Some p => set_pipe (Some (ada_adjust cfg target (c batch_idx) p))
            end
        end
      else ret tt
  end.

(** [done = (cur_nimg >= total_kimg * 1000)], with the product taken
    exactly: it is Python's value when [Accepts.exact_times_1000] holds of
    [total_kimg]. *)
Definition budget_reached (cfg : kwargs) (cur_nimg : Z) : bool :=
  Qle_bool (total_kimg cfg * 1000) (inject_Z cur_nimg).

(** The test of line 295 that sends the loop back to its head, with the
    product and the sum taken exactly: Python's value when
    [Accepts.exact_times_1000] holds of [kimg_per_tick] and the sum is a
    binary64 number, as it is with [tick_start_nimg = 0]. *)
Definition within_tick (cfg : kwargs) (done : bool) (cur_tick cur_nimg tick_start_nimg : Z)
  : bool :=
  negb done && negb (cur_tick =? 0)%Z
  && Py.Qltb (inject_Z cur_nimg) (inject_Z tick_start_nimg + kimg_per_tick cfg * 1000).

(** The answer of [abort_fn] at a tick boundary, [False] when there is no
    callback. *)
Definition aborted (cfg : kwargs) (cur_tick : Z) : bool :=
  match abort_fn cfg with
  | Some f => f cur_tick
  | None => false
  end.

(** Lines 299-333: what is done at a tick boundary. *)
Definition tick_boundary (cfg : kwargs) (done : bool) (l : locals) : M (locals * control) :=
  (* Check for abort. *)
  done <- (if done then ret true
           else match abort_fn cfg with
                | None => ret false
                | Some f => emit EvAbortPoll ;;; ret (f (cur_tick l))
                end) ;;
  let cur_tick' := (cur_tick l + 1)%Z in
  _ <- local "loss_item_d" (loss_item_d l) ;;
  _ <- local "loss_item_g" (loss_item_g l) ;;
  emit (EvStepClosure (cur_nimg l)) ;;;
  let l := Locals (cur_nimg l) cur_tick' (tick_start_nimg l) (batch_idx l)
                  (training_set_iterator l) (loss_item_g l) (loss_item_d l) in
  ret (l, if done then Break else Continue).

(** Lines 229-333: one pass of [while True:]. *)
Definition loop_body (cfg : kwargs) (l : locals) : M (locals * control) :=
  fetched <- next_batch l ;;
  let '(phase_real_img, phase_real_c, iterator) := fetched in
  let phase_real_img :=
    add_scalar (div_scalar (to_float32 phase_real_img) (255 # 2)) (- (1)) in
  i <- draw ;;
  all_gen_c <- sample_labels (Z.to_nat (2 * batch_gpu cfg)) ;;
  (* Execute training phases. *)
  let l := Locals (cur_nimg l) (cur_tick l) (tick_start_nimg l) (batch_idx l)
                  iterator (loss_item_g l) (loss_item_d l) in
  l <- execute_phases cfg phase_real_img phase_real_c l (phase_items cfg i all_gen_c) ;;
  (* Update G_ema. *)
  emit (EvEMA (ema_beta cfg (cur_nimg l))) ;;;
  (* Update state. *)
  let cur_nimg' := (cur_nimg l + batch_size cfg)%Z in
  let batch_idx' := (batch_idx l + 1)%Z in
  let l := Locals cur_nimg' (cur_tick l) (tick_start_nimg l) batch_idx'
                  (training_set_iterator l) (loss_item_g l) (loss_item_d l) in
  (* Execute ADA heuristic. *)
  execute_ada cfg ada_stats batch_idx' ;;;
  let done := budget_reached cfg cur_nimg' in
  (if is_master_ordinal cfg then
     _ <- local "loss_item_g" (loss_item_g l) ;;
     emit (EvAddScalar "loss_g" (cur_nimg' ÷ 1000)) ;;;
     _ <- local "loss_item_d" (loss_item_d l) ;;
     emit (EvAddScalar "loss_d" (cur_nimg' ÷ 1000)) ;;;
     emit EvFlush
   else ret tt) ;;;
  if within_tick cfg done (cur_tick l) cur_nimg' (tick_start_nimg l)
  then ret (l, Continue)
  else tick_boundary cfg done l.

(** [while True:] run for at most [fuel] passes; [None] when the fuel runs
    out before the loop breaks. *)
Fixpoint while_true (fuel : nat) (cfg : kwargs) (l : locals) : M (option locals) :=
  match fuel with
  | O => ret None
  | S fuel' =>
      r <- loop_body cfg l ;;
      match snd r with
      | Break => ret (Some (fst r))
      | Continue => while_true fuel' cfg (fst r)
      end
  end.

Definition training_loop (fuel : nat) (cfg : kwargs) : M (option locals) :=
  l <- setup cfg ;;
  while_true fuel cfg l.

(** The state of a process that enters [training_loop]. *)
Definition fresh : machine :=
  Machine [] (Flags false false) (Flags false false) None 0.

End WithCollaborators.
End TrainingLoop.

(* ------------------------------------------------------------------ *)
(** ** Where torch and Python's floats agree with the definitions above *)

Module Accepts.
Import Torch Loss.
Local Open Scope Z_scope.

Section WithCollaborators.
Context `{Collaborators}.

(** The module that [phase] trains has gradients enabled, as after
    [phase.module.requires_grad_(True)] on line 245: every loss of the phase
    then requires gradients and [backward()] does not raise. *)
Definition owner_enabled (s : machine) (phase : string) : bool :=
  get (requires_grad s) (phase_owner phase).

(** Style mixing is off, or [ws.shape[1] > 1] so that
    [random_(1, ws.shape[1])] on line 49 has a value to draw. *)
Definition mixing_defined (self : StyleGAN2Loss) (z c : tensor) : bool :=
  negb (Py.Qltb 0 (style_mixing_prob self)) || (1 <? shape1 (G_mapping z c false)).

End WithCollaborators.

(** [x] is [m / 2 ^ e] in lowest terms with [e <= 1000] and
    [|m| * 1000 <= 2 ^ 53]: then [x] and [x * 1000] are binary64 numbers,
    and Python computes [x * 1000] without rounding whether [x] is an
    [int] or a [float]. *)
Definition exact_times_1000 (x : Q) : bool :=
  let m := Qnum (Qred x) in
  let d := Zpos (Qden (Qred x)) in
  (2 ^ Z.log2 d =? d) && (Z.log2 d <=? 1000) && (Z.abs m * 1000 <=? 2 ^ 53).

End Accepts.

(* ------------------------------------------------------------------ *)
(** ** A stub deployment

    Constant networks and a 2-class data set of 8 one-pixel samples, served
    in batches of 4; used to run the definitions on concrete inputs. *)

Module Stub.
Import Torch Loss TrainingLoop.

Definition image (v : Z) : tensor := Rows [Rows [Rows [Scalar (inject_Z v)]]].

Definition one_hot (k : Z) : tensor :=
  Rows [Scalar (if (k mod 2 =? 0)%Z then 1 else 0);
        Scalar (if (k mod 2 =? 0)%Z then 0 else 1)].

Definition batch (first : Z) : tensor * tensor :=
  (Rows (map (fun k => image (first + k)) [0; 1; 2; 3]%Z),
   Rows (map (fun k => one_hot (first + k)) [0; 1; 2; 3]%Z)).

#[export] Instance collaborators : Collaborators := {|
  G_mapping := fun z _ _ => z;
  G_synthesis := fun ws => ws;
  D_net := fun _ _ => Rows [Scalar 0];
  DiffAugment := fun img _ => img;
  augment_pipe := fun _ img => img;
  softplus := fun t => t;
  neg := fun t => t;
  mean := fun _ => Scalar 0;
  sum := fun _ => Scalar 0;
  sum_dims := fun t _ => t;
  square := fun t => t;
  mul_scalar := fun t _ => t;
  div_scalar := fun t _ => t;
  add_scalar := fun t _ => t;
  add := fun t _ => t;
  to_float32 := fun t => t;
  autograd_grad := fun _ x => x;
  splice_from := fun ws _ _ => ws;
  float_pow := fun _ _ => 1 # 2;
  random_ := fun _ lo _ => lo;
  rand := fun _ => 0;
  normal := fun _ _ _ => 0;
  randn_like := fun _ z => z;
  randint := fun i n => (Z.of_nat i mod n)%Z;
  dataset_len := 8;
  get_label := one_hot;
  z_dim := 2;
  per_device_loader := fun _ => [batch 0; batch 4]
|}.

Definition loss_defaults : StyleGAN2Loss := {|
  diffaugment := "";
  style_mixing_prob := 9 # 10;
  r1_gamma := 10;
  pl_batch_shrink := 2;
  pl_decay := 1 # 100;
  pl_weight := 0
|}.

(** The defaults of [training_loop]'s signature, on a single process. *)
Definition defaults : kwargs := {|
  augment_kwargs := false;
  loss_kwargs := loss_defaults;
  num_gpus := 1;
  batch_size := 4;
  batch_gpu := 4;
  ema_kimg := 10;
  ema_rampup := None;
  augment_p := 0;
  ada_target := None;
  ada_interval := 4;
  ada_kimg := 500;
  total_kimg := 25000;
  kimg_per_tick := 1 # 2;
  abort_fn := None;
  ordinal := 0;
  is_master_ordinal := true
|}.

(** The first end-to-end scenario: a budget of one thousand images. *)
Definition one_kimg : kwargs := {|
  augment_kwargs := false;
  loss_kwargs := loss_defaults;
  num_gpus := 1;
  batch_size := 4;
  batch_gpu := 4;
  ema_kimg := 10;
  ema_rampup := None;
  augment_p := 0;
  ada_target := None;
  ada_interval := 4;
  ada_kimg := 500;
  total_kimg := 1;
  kimg_per_tick := 1 # 2;
  abort_fn := None;
  ordinal := 0;
  is_master_ordinal := true
|}.

(** The second end-to-end scenario: an augmentation pipe and an ADA target. *)
Definition ada_scenario : kwargs := {|
  augment_kwargs := true;
  loss_kwargs := loss_defaults;
  num_gpus := 1;
  batch_size := 4;
  batch_gpu := 4;
  ema_kimg := 10;
  ema_rampup := None;
  augment_p := 0;
  ada_target := Some (6 # 10);
  ada_interval := 4;
  ada_kimg := 500;
  total_kimg := 25000;
  kimg_per_tick := 1 # 2;
  abort_fn := None;
  ordinal := 0;
  is_master_ordinal := true
|}.

(** A ramped-up EMA, for running the decay formula with a cap. *)
Definition rampup : kwargs := {|
  augment_kwargs := false;
  loss_kwargs := loss_defaults;
  num_gpus := 1;
  batch_size := 4;
  batch_gpu := 4;
  ema_kimg := 10;
  ema_rampup := Some (1 # 20);
  augment_p := 0;
  ada_target := None;
  ada_interval := 4;
  ada_kimg := 500;
  total_kimg := 25000;
  kimg_per_tick := 1 # 2;
  abort_fn := None;
  ordinal := 0;
  is_master_ordinal := true
|}.

(** The locals on entry to the loop, before any batch was fetched. *)
Definition entry : locals := Locals 0 0 0 0 [] None None.

End Stub.

(* ------------------------------------------------------------------ *)
(** ** Reading a trace *)

Module Observers.
Import Torch.

(** The events that [StyleGAN2Loss] itself produces. *)
Definition is_loss_event (e : event) : bool :=
  match e with
  | EvForward _ _ | EvFixedAugment _ | EvAugmentPipe _ | EvDetachRequiresGrad _
  | EvAutogradGrad _ | EvBackward _ _ => true
  | _ => false
  end.

(** A forward pass made with gradient synchronization on. *)
Definition is_synced_forward (e : event) : bool :=
  match e with
  | EvForward _ true => true
  | _ => false
  end.

Definition is_forward (e : event) : bool :=
  match e with
  | EvForward _ _ => true
  | _ => false
  end.

Definition is_abort_poll (e : event) : bool :=
  match e with
  | EvAbortPoll => true
  | _ => false
  end.

End Observers.

(* ------------------------------------------------------------------ *)
(** ** The shape of the trace of one pass of the loop (latest event first) *)

Module Protocol.
Import Torch TrainingLoop.
Local Open Scope string_scope.

(** One phase: zero the gradients, enable them, the loss engine's events,
    disable them, reduce, clip, step, mark. *)
Definition phase_events (m : top_module) (loss_events : list event) : list event :=
  ([EvMarkStep; EvOptStep m; EvClipGrad m; EvReduceGradients m; EvRequiresGrad m false]
   ++ loss_events ++ [EvRequiresGrad m true; EvZeroGrad m])%list.

(** The tensorboard scalars, written by the master ordinal only. *)
Definition report_events (cfg : kwargs) (cur_nimg : Z) : list event :=
  if is_master_ordinal cfg
  then [EvFlush; EvAddScalar "loss_d" (cur_nimg ÷ 1000);
        EvAddScalar "loss_g" (cur_nimg ÷ 1000)]
  else [].

(** A tick boundary: the abort callback is polled unless training is done
    or there is no callback, then the step closure is registered. *)
Definition tick_events (cfg : kwargs) (done : bool) (cur_nimg : Z) : list event :=
  EvStepClosure cur_nimg
    :: (if done then []
        else match abort_fn cfg with
             | Some _ => [EvAbortPoll]
             | None => []
             end).

(** No module has gradients enabled: the state between two phases. *)
Definition no_grad : flags := Flags false false.

End Protocol.

(* ------------------------------------------------------------------ *)
(** ** Which passes are tick boundaries *)

Module Ticks.
Import TrainingLoop.

(** Pass [k] of a run of [n] passes is a tick boundary when it is the
    first pass, the last pass, or at least [kimg_per_tick * 1000] images
    have been consumed when it ends. *)
Definition is_tick (cfg : kwargs) (n k : nat) : bool :=
  (k =? 1)%nat || (k =? n)%nat
  || negb (Py.Qltb (inject_Z (Z.of_nat k * batch_size cfg)) (kimg_per_tick cfg * 1000)).

End Ticks.

(* ------------------------------------------------------------------ *)
(** ** training_loop.py: the snapshot image grid *)

Module Grid.
Import Torch.

(** What [setup_snapshot_image_grid] reads from a [training_set]: its
    length, [image_shape[1]] and [image_shape[2]], [has_labels], the flat
    [raw_label] of a sample and the sample itself. *)
Record dataset : Type := {
  ds_len : nat;
  ds_height : Z;
  ds_width : Z;
  has_labels : bool;
  raw_label : nat -> list Z;
  getitem : nat -> tensor * tensor
}.

(** The exceptions the grid functions can raise. *)
Inductive error : Type :=
| ZeroDivisionError
| KeyError (key : list Z)
| ValueError (msg : string)
| AssertionError.

(** [np.clip(x, lo, hi)]. *)
Definition clip (x lo hi : Z) : Z := Z.min (Z.max x lo) hi.

(** [a // b] on integers. *)
Definition floordiv (a b : Z) : error + Z :=
  if (b =? 0)%Z then inl ZeroDivisionError else inr (a / b)%Z.

(** [l[i % len(l)]]. *)
Definition cyclic (l : list nat) (i : nat) : error + nat :=
  match l with
  | [] => inl ZeroDivisionError
  | _ :: _ => inr (nth (i mod List.length l) l O)
  end.

(** [[l[f(i) % len(l)] for i in range(n)]]. *)
Fixpoint cyclic_map (l : list nat) (f : nat -> nat) (ixs : list nat) : error + list nat :=
  match ixs with
  | [] => inr []
  | i :: ixs' =>
      match cyclic l (f i) with
      | inl e => inl e
      | inr x =>
          match cyclic_map l f ixs' with
          | inl e => inl e
          | inr xs => inr (x :: xs)
          end
      end
  end.

(** The dictionary key of a sample: [tuple(raw_label.flat[::-1])]. *)
Definition label_key (ds : dataset) (idx : nat) : list Z := rev (raw_label ds idx).

Fixpoint key_eqb (a b : list Z) : bool :=
  match a, b with
  | [], [] => true
  | x :: a', y :: b' => (x =? y)%Z && key_eqb a' b'
  | _, _ => false
  end.

(** Tuples compare lexicographically. *)
Fixpoint key_leb (a b : list Z) : bool :=
  match a, b with
  | [], _ => true
  | _ :: _, [] => false
  | x :: a', y :: b' => (x <? y)%Z || ((x =? y)%Z && key_leb a' b')
  end.

(** [label_groups]: a dictionary from label to list of indices. *)
Definition groups : Type := list (list Z * list nat).

(** [if label not in label_groups: label_groups[label] = []] followed by
    [label_groups[label].append(idx)]. *)
Fixpoint append_to (g : groups) (label : list Z) (idx : nat) : groups :=
  match g with
  | [] => [(label, [idx])]
  | (k, v) :: g' =>
      if key_eqb k label then (k, (v ++ [idx])%list) :: g'
      else (k, v) :: append_to g' label idx
  end.

(** [label_groups[label]]. *)
Fixpoint lookup (g : groups) (label : list Z) : option (list nat) :=
  match g with
  | [] => None
  | (k, v) :: g' => if key_eqb k label then Some v else lookup g' label
  end.

(** [label_groups[label] = v] for a key that is present. *)
Fixpoint update (g : groups) (label : list Z) (v : list nat) : groups :=
  match g with
  | [] => []
  | (k, w) :: g' =>
      if key_eqb k label then (k, v) :: g' else (k, w) :: update g' label v
  end.

(** Lines 52-57. *)
Definition group_by_label (ds : dataset) : groups :=
  fold_left (fun g idx => append_to g (label_key ds idx) idx) (seq 0 (ds_len ds)) [].

Fixpoint insert_key (k : list Z) (l : list (list Z)) : list (list Z) :=
  match l with
  | [] => [k]
  | x :: l' => if key_leb k x then k :: x :: l' else x :: insert_key k l'
  end.

(** [sorted(label_groups.keys())]. *)
Definition sorted_keys (g : groups) : list (list Z) :=
  fold_right insert_key [] (map fst g).

(** Every group is non-empty and holds valid indices of samples with the
    group's label. *)
Definition well_grouped (ds : dataset) (g : groups) : Prop :=
  forall k v,
    lookup g k = Some v ->
    v <> [] /\ Forall (fun i => (i < ds_len ds)%nat /\ label_key ds i = k) v.

(** Row [y] of a grid of [gw] columns shows samples of the label that
    comes [y]-th, cyclically, in [order]. *)
Definition shows_label (ds : dataset) (order : list (list Z)) (gw y : nat)
    (row : list nat) : Prop :=
  List.length row = gw
  /\ Forall (fun i => (i < ds_len ds)%nat
                      /\ label_key ds i = nth (y mod List.length order) order []) row.

(** [l] read cyclically from offset [c]: [[l[(i + c) % len(l)] for i in range(len(l))]]. *)
Definition rotate (c : nat) (l : list nat) : list nat :=
  map (fun i => nth ((i + c) mod List.length l) l O) (seq 0 (List.length l)).

(** How many of the rows above row [y] show the label at position [p] of
    an order of [n] labels. *)
Definition rows_above (n p y : nat) : nat :=
  List.length (filter (fun y' => (y' mod n =? p)%nat) (seq 0 y)).

Section WithShuffle.
(** [rnd.shuffle]: the list left by the [k]-th call. *)
Variable shuffle : nat -> list nat -> list nat.

(** Lines 61-62: [for label in label_order: rnd.shuffle(label_groups[label])]. *)
Fixpoint shuffle_groups (k : nat) (order : list (list Z)) (g : groups) : error + groups :=
  match order with
  | [] => inr g
  | label :: order' =>
      match lookup g label with
      | Some v => shuffle_groups (S k) order' (update g label (shuffle k v))
      | None => inl (KeyError label)
      end
  end.

(** Lines 66-70: the rows of the grid, for [y] in [ys]. *)
Fixpoint organize (gw : nat) (order : list (list Z)) (ys : list nat) (g : groups)
  : error + list nat :=
  match ys with
  | [] => inr []
  | y :: ys' =>
      match order with
      | [] => inl ZeroDivisionError
      | _ :: _ =>
          let label := nth (y mod List.length order) order [] in
          match lookup g label with
          | None => inl (KeyError label)
          | Some indices =>
              match cyclic_map indices (fun x => x) (seq 0 gw) with
              | inl e => inl e
              | inr row =>
                  match cyclic_map indices (fun i => i + gw)%nat
                          (seq 0 (List.length indices)) with
                  | inl e => inl e
                  | inr rotated =>
                      match organize gw order ys' (update g label rotated) with
                      | inl e => inl e
                      | inr rest => inr (row ++ rest)%list
                      end
                  end
              end
          end
      end
  end.

(** Lines 40-70: the grid size and [grid_indices]. *)
Definition grid_indices (ds : dataset) : error + (Z * Z * list nat) :=
  match floordiv 7680 (ds_width ds) with
  | inl e => inl e
  | inr qw =>
      let gw := clip qw 7 32 in
      match floordiv 4320 (ds_height ds) with
      | inl e => inl e
      | inr qh =>
          let gh := clip qh 4 32 in
          if negb (has_labels ds) then
            (* No labels => show random subset of training samples. *)
            let all_indices := shuffle 0 (seq 0 (ds_len ds)) in
            match cyclic_map all_indices (fun i => i) (seq 0 (Z.to_nat (gw * gh))) with
            | inl e => inl e
            | inr grid => inr (gw, gh, grid)
            end
          else
            (* Group training samples by label, reorder, organize into grid. *)
            let label_groups := group_by_label ds in
            let label_order := sorted_keys label_groups in
            match shuffle_groups 0 label_order label_groups with
            | inl e => inl e
            | inr label_groups =>
                match organize (Z.to_nat gw) label_order (seq 0 (Z.to_nat gh))
                        label_groups with
                | inl e => inl e
                | inr grid => inr (gw, gh, grid)
                end
            end
      end
  end.

(** Lines 39-74. *)
Definition setup_snapshot_image_grid (ds : dataset) : error + (Z * Z * tensor * tensor) :=
  match grid_indices ds with
  | inl e => inl e
  | inr (gw, gh, grid) =>
      let samples := map (getitem ds) grid in
      inr (gw, gh, stack (map fst samples), stack (map snd samples))
  end.

End WithShuffle.
End Grid.

(* ------------------------------------------------------------------ *)
(** ** training_loop.py: saving an image grid *)

Module ImageGrid.
Import Grid.

(** A numpy array: its shape and its elements in row-major order. *)
Record ndarray (A : Type) : Type := NdArray { shape : list nat; flat : list A }.
Arguments NdArray {A} _ _.
Arguments shape {A} _.
Arguments flat {A} _.

(** The number of elements of a shape. *)
Definition size (sh : list nat) : nat := fold_right Nat.mul 1%nat sh.

(** The row-major position of a multi-index, and back. *)
Fixpoint ravel (sh idx : list nat) : nat :=
  match sh, idx with
  | _ :: sh', i :: idx' => (i * size sh' + ravel sh' idx')%nat
  | _, _ => O
  end.

Fixpoint unravel (sh : list nat) (f : nat) : list nat :=
  match sh with
  | [] => []
  | _ :: sh' => (f / size sh')%nat :: unravel sh' (f mod size sh')
  end.

(** [idx] is a valid multi-index of shape [sh]. *)
Definition within (sh idx : list nat) : Prop := Forall2 (fun i n => (i < n)%nat) idx sh.

(** [a[idx]], with [d] standing for an element out of range. *)
Definition get {A} (a : ndarray A) (idx : list nat) (d : A) : A :=
  nth (ravel (shape a) idx) (flat a) d.

(** [a.reshape(sh)]. *)
Definition reshape {A} (a : ndarray A) (sh : list nat) : error + ndarray A :=
  if (size sh =? List.length (flat a))%nat
  then inr (NdArray sh (flat a))
  else inl (ValueError "cannot reshape array").

(** The position of axis [j] in the list [axes]. *)
Fixpoint position (j : nat) (axes : list nat) : nat :=
  match axes with
  | [] => O
  | a :: axes' => if (a =? j)%nat then O else S (position j axes')
  end.

(** [a.transpose(axes)]: axis [k] of the result is axis [axes[k]] of [a]. *)
Definition transpose {A} (a : ndarray A) (axes : list nat) (d : A) : ndarray A :=
  let sh := map (fun ax => nth ax (shape a) O) axes in
  NdArray sh
    (map (fun f =>
            let idx := unravel sh f in
            get a (map (fun j => nth (position j axes) idx O)
                       (seq 0 (List.length axes))) d)
         (seq 0 (size sh))).

(** [np.rint]: to the nearest integer, halves to the even one. *)
Definition rint (x : Q) : Z :=
  let f := Qfloor x in
  let r := x - inject_Z f in
  if Py.Qltb r (1 # 2) then f
  else if Py.Qltb (1 # 2) r then (f + 1)%Z
  else if Z.even f then f else (f + 1)%Z.

(** numpy's float32 arithmetic of lines 79-80: [rescale lo hi x] is the
    float32 number that [(np.float32(x) - lo) * (255 / (hi - lo))] comes
    to, for [hi != lo]. *)
Class Numpy : Type := {
  rescale : Q -> Q -> Q -> Q
}.

Section WithNumpy.
Context {numpy : Numpy}.

(** One pixel: [np.rint((x - lo) * (255 / (hi - lo))).clip(0, 255)] as
    [np.uint8]; rounding a float32 number to an integer and clipping it
    are exact. *)
Definition to_uint8 (lo hi x : Q) : Z :=
  clip (rint (rescale lo hi x)) 0 255.

(** [img[:, :, 0]] of a three-dimensional array. *)
Definition first_channel (a : ndarray Z) : ndarray Z :=
  match shape a with
  | [rows; cols; channels] =>
      NdArray [rows; cols]
        (map (fun f => nth (f * channels)%nat (flat a) 0%Z) (seq 0 (rows * cols)))
  | _ => a
  end.

End WithNumpy.

(** The array and the mode given to [PIL.Image.fromarray]; what PIL does
    with them (it refuses an image with a side of zero pixels) is not
    part of this model. *)
Inductive saved : Type :=
| L (pixels : ndarray Z)
| RGB (pixels : ndarray Z).

Section WithNumpy.
Context {numpy : Numpy}.

(** Lines 78-94, up to the call of PIL. *)
Definition save_image_grid (img : ndarray Q) (drange : Q * Q) (grid_size : nat * nat)
  : error + saved :=
  let '(lo, hi) := drange in
  if Qeq_bool (hi - lo) 0 then inl ZeroDivisionError
  else
    let img := NdArray (shape img) (map (to_uint8 lo hi) (flat img)) in
    let '(gw, gh) := grid_size in
    match shape img with
    | [_N; C; H; W] =>
        match reshape img [gh; gw; C; H; W] with
        | inl e => inl e
        | inr img =>
            let img := transpose img [0; 3; 1; 4; 2]%nat 0%Z in
            match reshape img [gh * H; gw * W; C]%nat with
            | inl e => inl e
            | inr img =>
                if negb ((C =? 1) || (C =? 3))%nat then inl AssertionError
                else if (C =? 1)%nat then inr (L (first_channel img))
                else inr (RGB img)
            end
        end
    | _ => inl (ValueError "not enough values to unpack")
    end.

End WithNumpy.
End ImageGrid.

(* ------------------------------------------------------------------ *)
(** ** More concrete inputs *)

Module Samples.
Import Torch Loss TrainingLoop Grid ImageGrid.

(** Loss options without style mixing, and without R1 regularization. *)
Definition no_mixing : StyleGAN2Loss := {|
  diffaugment := "";
  style_mixing_prob := 0;
  r1_gamma := 10;
  pl_batch_shrink := 2;
  pl_decay := 1 # 100;
  pl_weight := 0
|}.

Definition no_r1 : StyleGAN2Loss := {|
  diffaugment := "";
  style_mixing_prob := 9 # 10;
  r1_gamma := 0;
  pl_batch_shrink := 2;
  pl_decay := 1 # 100;
  pl_weight := 0
|}.

(** The default arguments on a process that is not the coordinator. *)
Definition worker : kwargs := {|
  augment_kwargs := false;
  loss_kwargs := Stub.loss_defaults;
  num_gpus := 2;
  batch_size := 4;
  batch_gpu := 2;
  ema_kimg := 10;
  ema_rampup := None;
  augment_p := 0;
  ada_target := None;
  ada_interval := 4;
  ada_kimg := 500;
  total_kimg := 25000;
  kimg_per_tick := 1 # 2;
  abort_fn := None;
  ordinal := 1;
  is_master_ordinal := false
|}.

(** The default arguments with a callback that asks to abort at once. *)
Definition aborting : kwargs := {|
  augment_kwargs := false;
  loss_kwargs := Stub.loss_defaults;
  num_gpus := 1;
  batch_size := 4;
  batch_gpu := 4;
  ema_kimg := 10;
  ema_rampup := None;
  augment_p := 0;
  ada_target := None;
  ada_interval := 4;
  ada_kimg := 500;
  total_kimg := 25000;
  kimg_per_tick := 1 # 2;
  abort_fn := Some (fun _ => true);
  ordinal := 0;
  is_master_ordinal := true
|}.

(** The stub deployment with a loader that yields nothing. *)
Definition no_data : Collaborators := {|
  G_mapping := @G_mapping Stub.collaborators;
  G_synthesis := @G_synthesis Stub.collaborators;
  D_net := @D_net Stub.collaborators;
  DiffAugment := @DiffAugment Stub.collaborators;
  augment_pipe := @augment_pipe Stub.collaborators;
  softplus := @softplus Stub.collaborators;
  neg := @neg Stub.collaborators;
  mean := @mean Stub.collaborators;
  sum := @sum Stub.collaborators;
  sum_dims := @sum_dims Stub.collaborators;
  square := @square Stub.collaborators;
  mul_scalar := @mul_scalar Stub.collaborators;
  div_scalar := @div_scalar Stub.collaborators;
  add_scalar := @add_scalar Stub.collaborators;
  add := @add Stub.collaborators;
  to_float32 := @to_float32 Stub.collaborators;
  autograd_grad := @autograd_grad Stub.collaborators;
  splice_from := @splice_from Stub.collaborators;
  float_pow := @float_pow Stub.collaborators;
  random_ := @random_ Stub.collaborators;
  rand := @rand Stub.collaborators;
  normal := @normal Stub.collaborators;
  randn_like := @randn_like Stub.collaborators;
  randint := @randint Stub.collaborators;
  dataset_len := 0;
  get_label := @get_label Stub.collaborators;
  z_dim := 2;
  per_device_loader := fun _ => []
|}.

(** Eight samples of 1024 x 1024 pixels, without labels and with the two
    labels of the stub deployment. *)
Definition plain : dataset := {|
  ds_len := 8;
  ds_height := 1024;
  ds_width := 1024;
  has_labels := false;
  raw_label := fun _ => [];
  getitem := fun i => (Stub.image (Z.of_nat i), Rows [])
|}.

Definition two_classes : dataset := {|
  ds_len := 8;
  ds_height := 1024;
  ds_width := 1024;
  has_labels := true;
  raw_label := fun i => if Nat.even i then [1; 0]%Z else [0; 1]%Z;
  getitem := fun i => (Stub.image (Z.of_nat i), Stub.one_hot (Z.of_nat i))
|}.

(** A data set whose images have no width. *)
Definition flat_images : dataset := {|
  ds_len := 8;
  ds_height := 1024;
  ds_width := 0;
  has_labels := false;
  raw_label := fun _ => [];
  getitem := fun i => (Stub.image (Z.of_nat i), Rows [])
|}.

(** Two latent rows of two entries: the stub mapping network returns its
    input, so that [ws.shape[1] = 2]. *)
Definition latents : tensor :=
  Rows [Rows [Scalar 0; Scalar 1]; Rows [Scalar 1; Scalar 0]].

(** The machine inside a phase of the driver: only the phase's module has
    gradients enabled. *)
Definition training_G : machine :=
  Machine [] (Flags true false) (Flags false false) None 0.
Definition training_D : machine :=
  Machine [] (Flags false true) (Flags false false) None 0.


(** A shuffle that reverses the list. *)
Definition reversing (k : nat) (l : list nat) : list nat := rev l.

(** Float32 arithmetic on values it represents exactly, as those of the
    two arrays below are for the range [(-1, 1)]. *)
Definition exact_numpy : Numpy :=
  {| rescale := fun lo hi x => (x - lo) * (255 / (hi - lo)) |}.

(** Two grey images of 1 x 2 pixels, and two images with two channels. *)
Definition two_grey : ndarray Q := NdArray [2; 1; 1; 2]%nat [-1; 0; 1 # 2; 1].
Definition two_channels : ndarray Q := NdArray [2; 2; 1; 1]%nat [-1; 0; 1 # 2; 1].

End Samples.

(* ------------------------------------------------------------------ *)
(** ** Facts about the loss engine *)

Module LossFacts.
Import Torch Monad Loss Accepts.
Local Open Scope string_scope.
Local Open Scope list_scope.

Section WithCollaborators.
Context `{Collaborators}.

Lemma str_in_or (x : string) (l : list string) :
  Py.str_in x l = true -> In x l.
Proof.
  induction l as [|y l IH]; simpl; [discriminate|].
  intros H0. apply orb_true_iff in H0 as [H0|H0].
  - left. symmetry. now apply String.eqb_eq.
  - right. auto.
Qed.

Ltac split_tests :=
  repeat match goal with
    | |- context [Qeq_bool ?a ?b] => destruct (Qeq_bool a b) eqn:?
    | |- context [Py.Qltb ?a ?b] => destruct (Py.Qltb a b) eqn:?
    | |- context [String.eqb ?a ""] => destruct (String.eqb a "") eqn:?
    | |- context [match ?p with Some _ => _ | None => _ end] => is_var p; destruct p
    end.

Ltac step_monad :=
  cbv beta iota zeta delta
    [bind ret raise emit draw get_pipe set_pipe backward local value_mean lift1
     add_value fst snd trace requires_grad grad_populated pipe_p draws data graph
     real_logits loss_Dreal loss_Dr1 r1_term negb orb andb].

Ltac run_loss :=
  unfold accumulate_gradients, do_Dr1, do_Dmain, do_Gmain, do_Gpl, run_G, run_D;
  cbn [Py.str_in String.eqb Ascii.eqb Bool.eqb orb andb negb phases_all];
  repeat (progress (step_monad; split_tests)).

(** Solves [e1 :: ... :: en :: tr = ?new ++ tr]. *)
Ltac solve_prefix :=
  match goal with
  | |- ?l = ?new ++ ?tr =>
      let rec go l :=
        match l with
        | tr => constr:(@nil event)
        | ?x :: ?l' => let r := go l' in constr:(x :: r)
        end in
      let n := go l in unify new n; reflexivity
  end.

Ltac prefix_of l tr :=
  match l with
  | tr => constr:(@nil event)
  | ?x :: ?l' => let r := prefix_of l' tr in constr:(x :: r)
  end.

(** Cuts [e1 :: ... :: tr] at its first [EvDetachRequiresGrad]. *)
Ltac cut_at_detach l tr :=
  match l with
  | EvDetachRequiresGrad _ :: ?l' =>
      let g := prefix_of l' tr in constr:((@nil event, g))
  | ?x :: ?l' =>
      match cut_at_detach l' tr with
      | (?f, ?g) => constr:((x :: f, g))
      end
  end.

Ltac solve_real_branch :=
  match goal with
  | |- exists fwd gen g, EvBackward _ ?g0 :: ?l = _ :: fwd ++ _ :: gen ++ ?tr /\ _ =>
      match cut_at_detach l tr with
      | (?f, ?g) => exists f, g, g0; repeat split
      end
  end.

Ltac solve_in :=
  let Hin := fresh in
  intros ? Hin; simpl in Hin;
  repeat (destruct Hin as [Hin|Hin]; [try discriminate; try (now inversion Hin)|]);
  try contradiction.

Lemma steps_trans s1 s2 s3 e1 o1 e2 o2 :
  steps s1 s2 e1 o1 -> steps s2 s3 e2 o2 -> steps s1 s3 (e2 ++ e1) (o2 ++ o1).
Proof.
  intros (n1 & T1 & E1 & O1 & P1) (n2 & T2 & E2 & O2 & P2).
  exists (n2 ++ n1). rewrite T2, T1, app_assoc, !filter_app, E1, E2, O1, O2.
  repeat split; congruence.
Qed.

Lemma quiet_refl s : quiet s s.
Proof. exists []. repeat split. Qed.

Lemma quiet_trans s1 s2 s3 : quiet s1 s2 -> quiet s2 s3 -> quiet s1 s3.
Proof. intros A B. exact (steps_trans _ _ _ _ _ _ _ A B). Qed.

Lemma both_phases_return (self : StyleGAN2Loss) (phase : string)
    (real_img real_c gen_z gen_c : tensor) (sync : bool) (gain : Q) (s : machine) :
  In phase ["Gboth"; "Dboth"] ->
  exists v s',
    accumulate_gradients self phase real_img real_c gen_z gen_c sync gain s = (inr v, s')
    /\ quiet s s'.
Proof.
  destruct s as [tr rq gp pp dr]. simpl.
  intros [<-|[<-|[]]]; run_loss.
  all: do 2 eexists; (split; [reflexivity|]).
  all: unfold quiet, steps; cbn [trace pipe_p].
  all: eexists; (split; [solve_prefix|]); repeat split.
Qed.

Lemma main_phases_populate_owner (self : StyleGAN2Loss) (phase : string)
    (real_img real_c gen_z gen_c : tensor) (sync : bool) (gain : Q)
    (tr : list event) (p : option Q) (n : nat) :
  In phase ["Gmain"; "Gboth"; "Dmain"; "Dboth"] ->
  let none := Flags false false in
  let s := Machine tr (set none (phase_owner phase) true) none p n in
  exists v s',
    accumulate_gradients self phase real_img real_c gen_z gen_c sync gain s = (inr v, s')
    /\ grad_populated s' = set none (phase_owner phase) true.
Proof.
  simpl. intros [<-|[<-|[<-|[<-|[]]]]]; run_loss.
  all: do 2 eexists; split; reflexivity.
Qed.




(** ** C1 *)

(** C1, at the failing phase. For [phase = 'Greg'], one of the six
    identities that the assertion admits, [accumulate_gradients] raises
    [UnboundLocalError] when line 107 reads [real_logits], and leaves the
    machine as it found it: no scalar is returned, no backward pass is made
    and no gradient buffer is populated. *)
Theorem Greg_raises_unbound_local (self : StyleGAN2Loss)
    (real_img real_c gen_z gen_c : tensor) (sync : bool) (gain : Q) (s : machine) :
  accumulate_gradients self "Greg" real_img real_c gen_z gen_c sync gain s
  = (inl (Py.UnboundLocalError "real_logits"), s).
Proof. reflexivity. Qed.

(** ** C4 *)

(** C4, at the failing phase. For [phase = 'Dreg'] the call does not
    return a zero: with [r1_gamma != 0] the final [loss_Dreal.mean()] is
    applied to the integer [0] and raises [AttributeError]; with
    [r1_gamma == 0] line 107 raises [UnboundLocalError] as for ['Greg']. *)
Theorem Dreg_raises_instead_of_zero (self : StyleGAN2Loss)
    (real_img real_c gen_z gen_c : tensor) (sync : bool) (gain : Q) (s : machine) :
  fst (accumulate_gradients self "Dreg" real_img real_c gen_z gen_c sync gain s)
  = inl (if Qeq_bool (r1_gamma self) 0
         then Py.UnboundLocalError "real_logits"
         else Py.AttributeError "'int' object has no attribute 'mean'").
Proof.
  unfold accumulate_gradients, do_Dr1, do_Dmain, do_Gmain.
  cbn [Py.str_in String.eqb Ascii.eqb Bool.eqb orb andb negb phases_all].
  destruct (Qeq_bool (r1_gamma self) 0).
  - reflexivity.
  - destruct s as [tr rq gp pp dr]. unfold run_D.
    destruct (diffaugment self =? ""); destruct pp; reflexivity.
Qed.

(** ** C8 *)

(** C8. A phase that is not one of the six identities makes
    [accumulate_gradients] raise [AssertionError] with the machine
    untouched: nothing was run forward or backward. *)
Theorem invalid_phase_fails_eagerly (self : StyleGAN2Loss) (phase : string)
    (real_img real_c gen_z gen_c : tensor) (sync : bool) (gain : Q) (s : machine) :
  Py.str_in phase phases_all = false ->
  accumulate_gradients self phase real_img real_c gen_z gen_c sync gain s
  = (inl Py.AssertionError, s).
Proof.
  intros Hp. unfold accumulate_gradients. rewrite Hp. reflexivity.
Qed.

(** ** C5 *)

(** C5. Called as the driver calls it, with the gradients of the phase's
    module enabled, and with a cutoff to draw when style mixing is on: in
    every call the real image is detached with gradient tracking
    set to [do_Dr1], so tracking is on exactly when R1 is requested.  When
    it is requested (phase ['Dreg'] or ['Dboth'] and [r1_gamma != 0]), the
    events that follow the detach contain one backward pass, the last
    event of the call, on [(real_logits * 0 + loss_Dreal + loss_Dr1)
    .mean().mul(gain)], where [loss_Dr1] is the gradient of
    [real_logits.sum()] with respect to the real image, squared, summed
    over dimensions 1, 2, 3 and multiplied by [r1_gamma / 2]. *)
Theorem r1_penalty_single_backward (self : StyleGAN2Loss) (phase : string)
    (real_img real_c gen_z gen_c : tensor) (sync : bool) (gain : Q) (s : machine) :
  owner_enabled s phase = true ->
  mixing_defined self gen_z gen_c = true ->
  let s' := snd (accumulate_gradients self phase real_img real_c gen_z gen_c sync gain s) in
  (exists new, trace s' = new ++ trace s /\
     forall flag, In (EvDetachRequiresGrad flag) new -> flag = do_Dr1 self phase) /\
  (do_Dr1 self phase = true ->
   let real_logits := run_D_fn self (pipe_p s) real_c real_img in
   let r1_grads :=
     autograd_grad (fun x => sum (run_D_fn self (pipe_p s) real_c x)) real_img in
   let r1_penalty := sum_dims (square r1_grads) [1; 2; 3]%Z in
   let loss_Dr1 := mul_scalar r1_penalty (r1_gamma self / 2) in
   let with_real_loss t :=
     if do_Dmain phase then add t (softplus (neg real_logits)) else add_scalar t 0 in
   let combined := add (with_real_loss (mul_scalar real_logits 0)) loss_Dr1 in
   exists fwd gen g,
     trace s' = EvBackward (mul_scalar (mean combined) gain) g
                  :: fwd ++ EvDetachRequiresGrad true :: gen ++ trace s
     /\ existsb is_backward fwd = false
     /\ existsb is_detach gen = false).
Proof.
  intros _ _. destruct s as [tr rq gp pp dr]. split.
  - destruct (Py.str_in phase phases_all) eqn:Hp.
    + apply str_in_or in Hp. simpl in Hp.
      destruct Hp as [<-|[<-|[<-|[<-|[<-|[<-|[]]]]]]]; run_loss.
      all: eexists; (split; [solve_prefix | solve_in]).
    + unfold accumulate_gradients. rewrite Hp. cbn.
      exists []. split; [reflexivity|]. intros ? [].
  - intros Hr. unfold do_Dr1 in Hr. apply andb_true_iff in Hr as [Hp Hg].
    apply negb_true_iff in Hg. apply str_in_or in Hp. simpl in Hp.
    destruct Hp as [<-|[<-|[]]]; unfold do_Dmain;
      cbn [Py.str_in String.eqb Ascii.eqb Bool.eqb orb andb negb pipe_p].
    + run_loss; try discriminate; solve_real_branch.
    + run_loss; try discriminate; solve_real_branch.
Qed.

End WithCollaborators.
End LossFacts.

(* ------------------------------------------------------------------ *)
(** ** Facts about the training loop *)

Module LoopFacts.
Import Torch Monad Loss TrainingLoop Accepts LossFacts.
Local Open Scope string_scope.
Local Open Scope list_scope.

Section WithCollaborators.
Context `{Collaborators}.

Lemma bind_inr {A B} (c : M A) (k : A -> M B) s a s' :
  c s = (inr a, s') -> bind c k s = k a s'.
Proof. unfold bind. now intros ->. Qed.

Lemma chunks_two (n : nat) (rows : list tensor) :
  (1 <= n)%nat -> List.length rows = (2 * n)%nat ->
  chunks (List.length rows) n rows = [Rows (firstn n rows); Rows (skipn n rows)].
Proof.
  intros Hn Hlen.
  assert (Hs : List.length (skipn n rows) = n) by (rewrite length_skipn; lia).
  destruct (List.length rows) as [|[|fuel]] eqn:E; try lia.
  destruct rows as [|r rows']; [simpl in E; lia|].
  cbn [chunks]. f_equal.
  destruct (skipn n (r :: rows')) as [|r2 rest] eqn:E2; [simpl in Hs; lia|].
  f_equal.
  - f_equal. apply firstn_all2. lia.
  - rewrite skipn_all2 by lia. destruct fuel; reflexivity.
Qed.

Lemma unbind_randn i rows cols :
  List.length (unbind (randn i rows cols)) = Z.to_nat rows.
Proof. unfold randn. simpl. now rewrite length_map, length_seq. Qed.

Lemma phase_items_two (cfg : kwargs) (i : nat) (labels : list tensor) :
  (1 <= batch_gpu cfg)%Z ->
  List.length labels = Z.to_nat (2 * batch_gpu cfg) ->
  exists c0 c1 rest,
    labels = c0 :: c1 :: rest /\
    phase_items cfg i labels =
      [({| name := "Gboth"; module := G; interval := 1 |},
        Rows (firstn (Z.to_nat (batch_gpu cfg))
                (unbind (randn i (2 * batch_gpu cfg) z_dim))), c0);
       ({| name := "Dboth"; module := D; interval := 1 |},
        Rows (skipn (Z.to_nat (batch_gpu cfg))
                (unbind (randn i (2 * batch_gpu cfg) z_dim))), c1)].
Proof.
  intros Hb Hlen.
  assert (Hl : (2 <= List.length labels)%nat) by lia.
  destruct labels as [|c0 [|c1 rest]]; simpl in Hl; try lia.
  exists c0, c1, rest. split; [reflexivity|].
  unfold phase_items, split.
  rewrite chunks_two; [reflexivity| lia |].
  rewrite unbind_randn. lia.
Qed.

Lemma sample_labels_ok (n : nat) (s : machine) :
  exists labels s',
    sample_labels n s = (inr labels, s')
    /\ quiet s s'
    /\ List.length labels = n
    /\ Forall (fun c => exists k, c = get_label k) labels.
Proof.
  revert s. induction n as [|n IH]; intros s.
  - exists [], s. repeat split; auto using quiet_refl.
  - destruct s as [tr rq gp pp dr]. cbn [sample_labels].
    unfold bind at 1. cbn [draw draws trace requires_grad grad_populated pipe_p].
    destruct (IH (Machine tr rq gp pp (S dr))) as (ls & s' & E & Hq & L & F).
    erewrite bind_inr by exact E. eexists _, s'. split; [reflexivity|].
    split; [|split; [simpl; now rewrite L|]].
    + destruct Hq as (new & T & R). exists new. exact (conj T R).
    + constructor; eauto.
Qed.

Lemma next_batch_ok (l : locals) (s : machine) :
  (forall i, per_device_loader i <> []) ->
  exists b it s', next_batch l s = (inr (b, it), s') /\ quiet s s'.
Proof.
  intros Hl. unfold next_batch.
  destruct (training_set_iterator l) as [|b rest].
  - destruct s as [tr rq gp pp dr]. unfold bind, draw. cbn [draws].
    specialize (Hl dr). destruct (per_device_loader dr) as [|b rest]; [congruence|].
    do 3 eexists. split; [reflexivity|]. exists []. repeat split.
  - do 3 eexists. split; [reflexivity|]. apply quiet_refl.
Qed.

Ltac prefix_upto l tl :=
  match l with
  | ?n ++ tl => constr:(n)
  | ?x :: ?l' => let r := prefix_upto l' tl in constr:(x :: r)
  end.

Ltac step_driver :=
  cbv beta iota zeta delta
    [bind ret raise emit draw get_pipe set_pipe zero_grad set_requires_grad local];
  cbn [fst snd trace requires_grad grad_populated pipe_p draws
       cur_nimg cur_tick tick_start_nimg batch_idx training_set_iterator
       loss_item_g loss_item_d].

Lemma execute_phase_ok (cfg : kwargs) (real_img real_c : tensor) (l : locals)
    (ph : phase) (z c : tensor) (s : machine) :
  In ph phases ->
  exists v s',
    execute_phase cfg real_img real_c l (ph, z, c) s
    = (inr (if Py.char_in "G"%char (name ph)
            then Locals (cur_nimg l) (cur_tick l) (tick_start_nimg l) (batch_idx l)
                        (training_set_iterator l) (Some v) (loss_item_d l)
            else Locals (cur_nimg l) (cur_tick l) (tick_start_nimg l) (batch_idx l)
                        (training_set_iterator l) (loss_item_g l) (Some v)), s')
    /\ steps s s' [] [EvOptStep (module ph)].
Proof.
  destruct s as [tr rq gp pp dr]. intros Hin.
  assert (Hph : ph = {| name := "Gboth"; module := G; interval := 1 |}
                \/ ph = {| name := "Dboth"; module := D; interval := 1 |})
    by (simpl in Hin; destruct Hin as [<-|[<-|[]]]; auto).
  clear Hin. destruct Hph as [-> | ->]; unfold execute_phase; cbn [name module interval].
  all: unfold zero_grad, set_requires_grad; unfold bind at 1 2;
    cbn [trace requires_grad grad_populated pipe_p draws].
  all: match goal with
       | |- context [bind (accumulate_gradients ?a ?b ?c ?d ?e ?f ?g ?h) _ ?s0] =>
           destruct (both_phases_return a b c d e f g h s0 ltac:(simpl; tauto))
             as (v & [tr1 rq1 gp1 pp1 dr1] & E & (new & T & Fe & Fo & P))
       end.
  all: erewrite bind_inr by exact E.
  all: cbn [trace pipe_p] in T, P; subst tr1 pp1.
  all: exists v; eexists; split; [reflexivity|].
  all: eexists (_ :: _ :: _ :: _ :: _ :: new ++ [_; _]).
  all: cbn [trace pipe_p app]; rewrite <- !app_assoc; cbn [app].
  all: split; [reflexivity|].
  all: cbn [filter is_ema is_opt_step]; rewrite !filter_app, Fe, Fo.
  all: repeat split.
Qed.

Lemma execute_phases_ok (cfg : kwargs) (real_img real_c : tensor) (l : locals)
    (z0 c0 z1 c1 : tensor) (s : machine) :
  exists v0 v1 s',
    execute_phases cfg real_img real_c l
      [({| name := "Gboth"; module := G; interval := 1 |}, z0, c0);
       ({| name := "Dboth"; module := D; interval := 1 |}, z1, c1)] s
    = (inr (Locals (cur_nimg l) (cur_tick l) (tick_start_nimg l) (batch_idx l)
                   (training_set_iterator l) (Some v0) (Some v1)), s')
    /\ steps s s' [] [EvOptStep D; EvOptStep G].
Proof.
  cbn [execute_phases].
  destruct (execute_phase_ok cfg real_img real_c l
              {| name := "Gboth"; module := G; interval := 1 |} z0 c0 s
              ltac:(simpl; auto)) as (v0 & s1 & E1 & S1).
  erewrite bind_inr by exact E1. cbn [Py.char_in name Ascii.eqb Bool.eqb orb].
  match goal with
  | |- context [execute_phase _ _ _ ?l1 _] =>
      destruct (execute_phase_ok cfg real_img real_c l1
                  {| name := "Dboth"; module := D; interval := 1 |} z1 c1 s1
                  ltac:(simpl; auto)) as (v1 & s2 & E2 & S2)
  end.
  erewrite bind_inr by exact E2.
  exists v0, v1, s2. split; [reflexivity|].
  exact (steps_trans _ _ _ _ _ _ _ S1 S2).
Qed.

Lemma loop_body_spec (cfg : kwargs) (l : locals) (s : machine) :
  (1 <= batch_gpu cfg)%Z ->
  (forall i, per_device_loader i <> []) ->
  exists l' c s',
    loop_body cfg l s = (inr (l', c), s')
    /\ cur_nimg l' = (cur_nimg l + batch_size cfg)%Z
    /\ batch_idx l' = (batch_idx l + 1)%Z
    /\ tick_start_nimg l' = tick_start_nimg l
    /\ (let done := budget_reached cfg (cur_nimg l') in
        let skip := within_tick cfg done (cur_tick l) (cur_nimg l') (tick_start_nimg l) in
        cur_tick l' = (if skip then cur_tick l else cur_tick l + 1)%Z
        /\ c = if skip then Continue
               else if done || aborted cfg (cur_tick l) then Break else Continue)
    /\ steps s s' [EvEMA (ema_beta cfg (cur_nimg l))] [EvOptStep D; EvOptStep G].
Proof.
  intros Hgpu Hloader. unfold loop_body.
  destruct (next_batch_ok l s Hloader) as ([img c] & it & [tr1 rq1 gp1 pp1 dr1] & E1 & Q1).
  erewrite bind_inr by exact E1. cbv iota beta.
  unfold bind at 1, draw at 1. cbn [draws trace requires_grad grad_populated pipe_p].
  destruct (sample_labels_ok (Z.to_nat (2 * batch_gpu cfg)) (Machine tr1 rq1 gp1 pp1 (S dr1)))
    as (labels & s2 & E2 & Q2 & Hlen & _).
  erewrite bind_inr by exact E2.
  destruct (phase_items_two cfg dr1 labels Hgpu Hlen) as (c0 & c1 & rest & _ & ->).
  match goal with
  | |- context [execute_phases _ ?ri ?rc ?l0 [(_, ?z0, _); (_, ?z1, _)]] =>
      destruct (execute_phases_ok cfg ri rc l0 z0 c0 z1 c1 s2)
        as (v0 & v1 & [tr3 rq3 gp3 pp3 dr3] & E3 & S3)
  end.
  erewrite bind_inr by exact E3.
  assert (Q12 : quiet s s2).
  { apply quiet_trans with (2 := Q2).
    destruct Q1 as (new & T & R). exists new. exact (conj T R). }
  pose proof (steps_trans _ _ _ _ _ _ _ Q12 S3) as S13. cbn [app] in S13.
  clear E1 E2 E3 Q1 Q2 Q12 S3.
  destruct S13 as (new & T & Fe & Fo & P). cbn [trace pipe_p] in T, P. subst tr3 pp3.
  unfold execute_ada, ada_stats, tick_boundary, aborted.
  step_driver.
  destruct (budget_reached cfg (cur_nimg l + batch_size cfg)) eqn:Hdone.
  all: destruct (within_tick cfg _ (cur_tick l) (cur_nimg l + batch_size cfg)
                   (tick_start_nimg l)) eqn:Hskip.
  all: destruct (is_master_ordinal cfg); step_driver.
  all: try (destruct (abort_fn cfg) as [f|]; step_driver).
  all: try (destruct (f (cur_tick l))).
  all: do 3 eexists; (split; [reflexivity|]).
  all: cbn [cur_nimg cur_tick batch_idx tick_start_nimg]; rewrite Hdone, Hskip; cbn [orb].
  all: do 3 (split; [reflexivity|]).
  all: (split; [split; reflexivity|]).
  all: unfold steps; cbn [trace pipe_p].
  all: match goal with
       | |- exists n, ?lhs = n ++ ?tl /\ _ =>
           let r := prefix_upto lhs tl in exists r
       end.
  all: (split; [reflexivity|]); cbn [filter is_ema is_opt_step]; rewrite Fe, Fo.
  all: repeat split.
Qed.

Lemma within_tick_done (cfg : kwargs) (a b c : Z) : within_tick cfg true a b c = false.
Proof. reflexivity. Qed.

(** The least [n >= 1] at which a test that holds somewhere first holds. *)
Lemma least_reached (P : nat -> bool) (K : nat) :
  (1 <= K)%nat -> P K = true ->
  exists n, (1 <= n <= K)%nat /\ P n = true
            /\ forall k, (1 <= k < n)%nat -> P k = false.
Proof.
  intros HK HP.
  assert (G : forall m, (m <= K)%nat ->
                (exists n, (1 <= n <= m)%nat /\ P n = true
                           /\ forall k, (1 <= k < n)%nat -> P k = false)
                \/ forall k, (1 <= k <= m)%nat -> P k = false).
  { induction m as [|m IH]; intros Hm.
    - right. intros k Hk. lia.
    - destruct IH as [(n & Hn & Pn & Hmin)|Hnone]; [lia| |].
      + left. exists n. repeat split; auto; lia.
      + destruct (P (S m)) eqn:E.
        * left. exists (S m). repeat split; auto; try lia.
          intros k Hk. apply Hnone. lia.
        * right. intros k Hk. destruct (Nat.eq_dec k (S m)) as [->|]; auto.
          apply Hnone. lia. }
  destruct (G K (Nat.le_refl K)) as [Hex|Hnone]; [exact Hex|].
  rewrite Hnone in HP by lia. discriminate.
Qed.

Lemma budget_reached_iff (cfg : kwargs) (n : Z) :
  budget_reached cfg n = true <-> total_kimg cfg * 1000 <= inject_Z n.
Proof. apply Qle_bool_iff. Qed.

(** With a positive batch size the budget is reached after finitely many
    iterations. *)
Lemma budget_eventually (cfg : kwargs) (start : Z) :
  (0 < batch_size cfg)%Z -> (0 <= start)%Z ->
  exists K, (1 <= K)%nat
            /\ budget_reached cfg (start + Z.of_nat K * batch_size cfg) = true.
Proof.
  intros Hb Hs.
  exists (Z.to_nat (Z.max 1 (Qceiling (total_kimg cfg * 1000)))).
  split; [lia|]. apply budget_reached_iff.
  eapply Qle_trans; [apply Qle_ceiling|].
  rewrite <- Zle_Qle. rewrite Z2Nat.id by lia. nia.
Qed.

Lemma while_true_run (cfg : kwargs) :
  (1 <= batch_gpu cfg)%Z ->
  (forall i, per_device_loader i <> []) ->
  abort_fn cfg = None ->
  forall (n : nat) (l : locals) (s : machine),
    (1 <= n)%nat ->
    budget_reached cfg (cur_nimg l + Z.of_nat n * batch_size cfg) = true ->
    (forall k, (1 <= k < n)%nat ->
               budget_reached cfg (cur_nimg l + Z.of_nat k * batch_size cfg) = false) ->
    exists l',
      cur_nimg l' = (cur_nimg l + Z.of_nat n * batch_size cfg)%Z
      /\ batch_idx l' = (batch_idx l + Z.of_nat n)%Z
      /\ tick_start_nimg l' = tick_start_nimg l
      /\ forall fuel,
           fst (while_true fuel cfg l s)
           = inr (if (n <=? fuel)%nat then Some l' else None).
Proof.
  intros Hgpu Hloader Habort n.
  induction n as [|n IH]; intros l s Hn Hdone Hbefore; [lia|].
  destruct (loop_body_spec cfg l s Hgpu Hloader)
    as (l1 & c & s1 & E & Hnimg & Hidx & Hstart & (Htick & Hc) & _).
  unfold aborted in Hc. rewrite Habort, orb_false_r in Hc.
  destruct n as [|n].
  - (* the budget is reached in this iteration *)
    exists l1. rewrite Hnimg, Hidx. repeat split; try lia; auto.
    replace (cur_nimg l + Z.of_nat 1 * batch_size cfg)%Z
      with (cur_nimg l + batch_size cfg)%Z in Hdone by lia.
    rewrite Hnimg, Hdone, within_tick_done in Hc.
    intros [|fuel]; [reflexivity|].
    cbn [while_true]. erewrite bind_inr by exact E. cbn [snd fst]. now rewrite Hc.
  - assert (Hnot : budget_reached cfg (cur_nimg l1) = false).
    { rewrite Hnimg. specialize (Hbefore 1%nat ltac:(lia)).
      now replace (cur_nimg l + Z.of_nat 1 * batch_size cfg)%Z
        with (cur_nimg l + batch_size cfg)%Z in Hbefore by lia. }
    rewrite Hnot in Hc.
    assert (Hcont : c = Continue).
    { rewrite Hc.
      match goal with
      | |- context [within_tick ?a ?b ?c ?d ?e] => now destruct (within_tick a b c d e)
      end. }
    destruct (IH l1 s1) as (l' & Hn' & Hi' & Hs' & Hrun); [lia| | |].
    + rewrite Hnimg. rewrite <- Hdone. f_equal. lia.
    + intros k Hk. rewrite Hnimg. rewrite <- (Hbefore (S k)) by lia. f_equal. lia.
    + exists l'. repeat split; try lia; try congruence.
      intros [|fuel]; [reflexivity|].
      cbn [while_true]. erewrite bind_inr by exact E. cbn [snd fst].
      rewrite Hcont, Hrun. reflexivity.
Qed.


Lemma setup_ok (cfg : kwargs) (s : machine) :
  exists it s', setup cfg s = (inr (Locals 0 0 0 0 it None None), s').
Proof.
  destruct s as [tr rq gp pp dr]. unfold setup. step_driver.
  destruct (augment_kwargs cfg && _); do 2 eexists; reflexivity.
Qed.

Lemma Qltb_iff (a b : Q) : Py.Qltb a b = true <-> a < b.
Proof.
  unfold Py.Qltb. rewrite negb_true_iff, <- not_true_iff_false, Qle_bool_iff.
  split; [apply Qnot_le_lt | apply Qlt_not_le].
Qed.


(** The strength of the augmentation pipe is the same after any number of
    passes of the loop: with [ada_stats = None] the heuristic never runs. *)
Lemma while_true_keeps_p (cfg : kwargs) :
  (1 <= batch_gpu cfg)%Z ->
  (forall i, per_device_loader i <> []) ->
  forall fuel l s, pipe_p (snd (while_true fuel cfg l s)) = pipe_p s.
Proof.
  intros Hgpu Hloader. induction fuel as [|fuel IH]; intros l s; [reflexivity|].
  destruct (loop_body_spec cfg l s Hgpu Hloader)
    as (l1 & c & s1 & E & _ & _ & _ & _ & (new & _ & _ & _ & P)).
  cbn [while_true]. erewrite bind_inr by exact E. cbn [snd fst].
  destruct c; [rewrite IH|]; exact P.
Qed.

(** [tick_start_nimg] is bound once, before the loop, and a pass of the
    loop never rebinds it. *)
Lemma tick_start_nimg_constant (cfg : kwargs) (l : locals) (s : machine) :
  (1 <= batch_gpu cfg)%Z ->
  (forall i, per_device_loader i <> []) ->
  exists l' c s',
    loop_body cfg l s = (inr (l', c), s') /\ tick_start_nimg l' = tick_start_nimg l.
Proof.
  intros Hgpu Hloader.
  destruct (loop_body_spec cfg l s Hgpu Hloader) as (l1 & c & s1 & E & _ & _ & T & _).
  now exists l1, c, s1.
Qed.

(** ** C6 *)

(** C6. With a positive batch size, no abort callback and a budget whose
    product [total_kimg * 1000] Python computes exactly: every pass of
    the loop adds exactly [batch_size] to [cur_nimg], which therefore never
    decreases, and breaks exactly when [cur_nimg >= total_kimg * 1000]; the
    loop runs [n] passes, where [n >= 1] is the first pass at which the
    budget is reached, and ends with [batch_idx = n] and
    [cur_nimg = n * batch_size]; with [total_kimg = 1] and [batch_size = 4]
    that is 250 passes and [cur_nimg = 1000]. *)
Theorem loop_terminates_at_budget (cfg : kwargs) (s : machine) :
  exact_times_1000 (total_kimg cfg) = true ->
  (0 < batch_size cfg)%Z ->
  (1 <= batch_gpu cfg)%Z ->
  (forall i, per_device_loader i <> []) ->
  abort_fn cfg = None ->
  (forall l s0, exists l' c s1,
      loop_body cfg l s0 = (inr (l', c), s1)
      /\ cur_nimg l' = (cur_nimg l + batch_size cfg)%Z
      /\ (cur_nimg l < cur_nimg l')%Z
      /\ (c = Break <-> total_kimg cfg * 1000 <= inject_Z (cur_nimg l')))
  /\ exists (n : nat) (l' : locals),
      (1 <= n)%nat
      /\ (forall fuel, fst (training_loop fuel cfg s)
                       = inr (if (n <=? fuel)%nat then Some l' else None))
      /\ batch_idx l' = Z.of_nat n
      /\ cur_nimg l' = (Z.of_nat n * batch_size cfg)%Z
      /\ total_kimg cfg * 1000 <= inject_Z (cur_nimg l')
      /\ (forall k, (1 <= k < n)%nat ->
                    ~ total_kimg cfg * 1000 <= inject_Z (Z.of_nat k * batch_size cfg))
      /\ (total_kimg cfg == 1 -> batch_size cfg = 4%Z ->
          n = 250%nat /\ cur_nimg l' = 1000%Z).
Proof.
  intros _ Hbs Hgpu Hloader Habort. split.
  - intros l s0.
    destruct (loop_body_spec cfg l s0 Hgpu Hloader)
      as (l1 & c & s1 & E & Hnimg & _ & _ & (_ & Hc) & _).
    exists l1, c, s1. repeat split; auto; try lia.
    + intros ->. apply budget_reached_iff.
      destruct (budget_reached cfg (cur_nimg l1)); [reflexivity|].
      unfold aborted in Hc. rewrite Habort in Hc.
      match type of Hc with
      | context [within_tick ?a ?b ?c ?d ?e] => destruct (within_tick a b c d e)
      end; discriminate.
    + intros Hd. apply budget_reached_iff in Hd. rewrite Hd, within_tick_done in Hc.
      exact Hc.
  - destruct (budget_eventually cfg 0 Hbs (Z.le_refl 0)) as (K & HK & HPK).
    destruct (least_reached
                (fun k => budget_reached cfg (0 + Z.of_nat k * batch_size cfg)) K HK HPK)
      as (n & Hn & Pn & Hmin).
    destruct (setup_ok cfg s) as (it & s0 & E0).
    destruct (while_true_run cfg Hgpu Hloader Habort n
                (Locals 0 0 0 0 it None None) s0 (proj1 Hn) Pn Hmin)
      as (l' & Hnimg & Hidx & _ & Hrun).
    cbn [cur_nimg batch_idx] in Hnimg, Hidx.
    exists n, l'. split; [lia|]. split; [|split; [lia|split; [lia|]]].
    { intros fuel. unfold training_loop. erewrite bind_inr by exact E0. apply Hrun. }
    assert (Hreach : total_kimg cfg * 1000 <= inject_Z (cur_nimg l')).
    { rewrite Hnimg. now apply budget_reached_iff. }
    assert (Hbefore : forall k, (1 <= k < n)%nat ->
              ~ total_kimg cfg * 1000 <= inject_Z (Z.of_nat k * batch_size cfg)).
    { intros k Hk Hle. apply budget_reached_iff in Hle.
      specialize (Hmin k Hk). cbn [Z.add] in Hmin. congruence. }
    split; [exact Hreach|]. split; [exact Hbefore|].
    intros Htot Hfour. rewrite Hnimg, Hfour, Htot in Hreach.
    assert (Hge : (250 <= Z.of_nat n)%Z).
    { setoid_replace (1 * 1000) with (inject_Z 1000) in Hreach by reflexivity.
      rewrite <- Zle_Qle in Hreach. lia. }
    assert (Hle : (n <= 250)%nat).
    { destruct (Nat.le_gt_cases n 250) as [|Hgt]; [assumption|].
      exfalso. apply (Hbefore 250%nat); [lia|].
      rewrite Htot, Hfour. discriminate. }
    split; [lia|]. rewrite Hnimg, Hfour. lia.
Qed.


(** ** C7 *)

(** C7. Every pass of the loop calls [G.EMA] exactly once, with
    [beta = 0.5 ** (batch_size / max(ema_nimg, 1e-8))] where [ema_nimg] is
    [ema_kimg * 1000], lowered to [cur_nimg * ema_rampup] when [ema_rampup]
    is set and that is smaller; the same pass makes two optimizer steps, one
    per phase. *)
Theorem ema_once_per_iteration (cfg : kwargs) (l : locals) (s : machine) :
  (1 <= batch_gpu cfg)%Z ->
  (forall i, per_device_loader i <> []) ->
  exists l' c s' new,
    loop_body cfg l s = (inr (l', c), s')
    /\ trace s' = new ++ trace s
    /\ (let ema_nimg := match ema_rampup cfg with
                        | Some ema_rampup =>
                            Py.min (ema_kimg cfg * 1000)
                                   (inject_Z (cur_nimg l) * ema_rampup)
                        | None => ema_kimg cfg * 1000
                        end in
        let beta := float_pow (1 # 2)
                      (inject_Z (batch_size cfg) / Py.max ema_nimg (1 # 100000000)) in
        filter is_ema new = [EvEMA beta])
    /\ filter is_opt_step new = [EvOptStep D; EvOptStep G].
Proof.
  intros Hgpu Hloader.
  destruct (loop_body_spec cfg l s Hgpu Hloader)
    as (l1 & c & s1 & E & _ & _ & _ & _ & (new & T & Fe & Fo & _)).
  exists l1, c, s1, new. repeat split; assumption.
Qed.

(** ** C9 *)


(** ** C10 *)


End WithCollaborators.
End LoopFacts.


(* ------------------------------------------------------------------ *)
(** ** The claims on concrete runs of the stub deployment *)

Module Scenarios.
Import Torch Monad Loss TrainingLoop Accepts LossFacts LoopFacts Stub Samples.
Local Open Scope string_scope.
Local Open Scope list_scope.

Lemma invalid_phase_fails_eagerly_witness :
  Py.str_in "Gfake" phases_all = false
  /\ accumulate_gradients loss_defaults "Gfake" (image 0) (one_hot 0) (image 1) (one_hot 1)
       true 1 fresh
     = (inl Py.AssertionError, fresh).
Proof.
  split; [reflexivity|].
  apply (@invalid_phase_fails_eagerly collaborators). reflexivity.
Defined.

Lemma r1_penalty_single_backward_witness :
  owner_enabled training_D "Dboth" = true
  /\ mixing_defined loss_defaults latents (one_hot 1) = true
  /\ do_Dr1 loss_defaults "Dboth" = true
  /\ exists fwd gen g,
       trace (snd (accumulate_gradients loss_defaults "Dboth" (fst (batch 0)) (snd (batch 0))
                     latents (one_hot 1) true 1 training_D))
       = EvBackward (Scalar 0) g :: fwd ++ EvDetachRequiresGrad true :: gen ++ []
       /\ existsb is_backward fwd = false
       /\ existsb is_detach gen = false.
Proof.
  split; [reflexivity|]. split; [reflexivity|]. split; [reflexivity|].
  apply (proj2 (@r1_penalty_single_backward collaborators loss_defaults "Dboth"
                  (fst (batch 0)) (snd (batch 0)) latents (one_hot 1) true 1 training_D
                  eq_refl eq_refl)).
  reflexivity.
Defined.

(** C2. In the scenario of the claim ([ada_target = 0.6],
    [ada_interval = 4], [ada_kimg = 500], [batch_size = 4], an augmentation
    pipe with [p = 0]) the strength is still [0] after each of the first
    four passes of the loop, although lines 283-286, run at the fourth pass
    with a collector that reports [0.8], would raise it by
    [4 * 4 / (500 * 1000)]. *)
Theorem ada_scenario_p_never_adjusted :
  pipe_p (snd (setup ada_scenario fresh)) = Some 0
  /\ pipe_p (snd (training_loop 1 ada_scenario fresh)) = Some 0
  /\ pipe_p (snd (training_loop 2 ada_scenario fresh)) = Some 0
  /\ pipe_p (snd (training_loop 3 ada_scenario fresh)) = Some 0
  /\ pipe_p (snd (training_loop 4 ada_scenario fresh)) = Some 0
  /\ exists s' p,
       execute_ada ada_scenario (Some (fun _ => 8 # 10)) 4
         (snd (training_loop 4 ada_scenario fresh)) = (inr tt, s')
       /\ pipe_p s' = Some p
       /\ p == inject_Z (4 * 4) / (500 * 1000)
       /\ 0 < p.
Proof.
  do 5 (split; [vm_compute; reflexivity|]).
  eexists _, _. split; [vm_compute; reflexivity|].
  split; [reflexivity|]. split; reflexivity.
Qed.

(** C3, at the failing input.  With the default arguments
    ([kimg_per_tick = 0.5], [batch_size = 4], [total_kimg = 25000], both
    products with 1000 exact) the step closure of the tick boundary is
    registered at the passes that end with 4, 500 and 504 images.  The
    boundaries at 500 and 504 are 4 images apart, not the
    [kimg_per_tick * 1000 = 500] of a tick window, and training is not
    done at either: the window that opened at 0 is still the one tested at
    504, because [tick_start_nimg] is bound to 0 before the loop and no
    pass of the loop rebinds it.  The boundary at 4 images is the first
    pass, which line 295 lets through by its test [cur_tick != 0]. *)
Theorem tick_window_never_reset :
  exact_times_1000 (kimg_per_tick defaults) = true
  /\ exact_times_1000 (total_kimg defaults) = true
  /\ kimg_per_tick defaults * 1000 == 500
  /\ filter is_step_closure (trace (snd (training_loop 126 defaults fresh)))
     = [EvStepClosure 504; EvStepClosure 500; EvStepClosure 4]
  /\ budget_reached defaults 500 = false
  /\ budget_reached defaults 504 = false
  /\ (exists l0 s0, setup defaults fresh = (inr l0, s0) /\ tick_start_nimg l0 = 0%Z)
  /\ (forall l s, exists l' c s',
        loop_body defaults l s = (inr (l', c), s')
        /\ tick_start_nimg l' = tick_start_nimg l).
Proof.
  split; [reflexivity|]. split; [reflexivity|]. split; [reflexivity|].
  split; [vm_compute; reflexivity|]. split; [reflexivity|]. split; [reflexivity|].
  split.
  - do 2 eexists. split; [vm_compute; reflexivity | reflexivity].
  - intros l s. apply (tick_start_nimg_constant defaults l s); [discriminate|].
    intros i. discriminate.
Qed.

Lemma ema_once_per_iteration_witness :
  (1 <= batch_gpu rampup)%Z
  /\ exists l' c s' new,
       loop_body rampup entry fresh = (inr (l', c), s')
       /\ trace s' = new ++ []
       /\ filter is_ema new
          = [EvEMA (float_pow (1 # 2)
                      (4 / Py.max (Py.min (10 * 1000) (0 * (1 # 20))) (1 # 100000000)))]
       /\ filter is_opt_step new = [EvOptStep D; EvOptStep G].
Proof.
  split; [discriminate|].
  apply (@ema_once_per_iteration collaborators rampup entry fresh).
  - discriminate.
  - intros i. discriminate.
Defined.


Lemma loop_terminates_at_budget_witness :
  exact_times_1000 (total_kimg one_kimg) = true
  /\ (0 < batch_size one_kimg)%Z
  /\ exists (n : nat) (l' : locals),
      fst (training_loop 250 one_kimg fresh) = inr (Some l')
      /\ fst (training_loop 249 one_kimg fresh) = inr None
      /\ n = 250%nat /\ batch_idx l' = 250%Z /\ cur_nimg l' = 1000%Z.
Proof.
  split; [reflexivity|]. split; [reflexivity|].
  destruct (@loop_terminates_at_budget collaborators one_kimg fresh)
    as (_ & n & l' & _ & Hrun & Hidx & _ & _ & _ & Hpart);
    [reflexivity | reflexivity | discriminate | intros i; discriminate | reflexivity |].
  destruct Hpart as (-> & Hnimg); [reflexivity | reflexivity |].
  exists 250%nat, l'.
  split; [exact (Hrun 250%nat)|]. split; [exact (Hrun 249%nat)|].
  split; [reflexivity|]. split; [exact Hidx | exact Hnimg].
Defined.



End Scenarios.

(* ------------------------------------------------------------------ *)
(** ** More about the loss engine *)

Module LossExtras.
Import Torch Monad Loss Accepts Observers.
Local Open Scope string_scope.
Local Open Scope list_scope.

Section WithCollaborators.
Context `{Collaborators}.

Ltac tests :=
  repeat match goal with
    | |- context [Qeq_bool ?a ?b] => destruct (Qeq_bool a b) eqn:?
    | |- context [Py.Qltb ?a ?b] => destruct (Py.Qltb a b) eqn:?
    | |- context [String.eqb ?a ""] => destruct (String.eqb a "") eqn:?
    | |- context [match ?p with Some _ => _ | None => _ end] => is_var p; destruct p
    end.

Ltac steps_of_monad :=
  cbv beta iota zeta delta
    [bind ret raise emit draw get_pipe set_pipe backward local value_mean lift1
     add_value fst snd trace requires_grad grad_populated pipe_p draws data graph
     real_logits loss_Dreal loss_Dr1 r1_term negb orb andb].

Ltac run :=
  unfold accumulate_gradients, do_Dr1, do_Dmain, do_Gmain, do_Gpl, run_G, run_D;
  cbn [Py.str_in String.eqb Ascii.eqb Bool.eqb orb andb negb phases_all];
  repeat (progress (steps_of_monad; tests)).

Ltac new_events l tr :=
  match l with
  | tr => constr:(@nil event)
  | ?x :: ?l' => let r := new_events l' tr in constr:(x :: r)
  end.

Ltac give_new :=
  match goal with
  | |- exists new, ?l = new ++ ?tr /\ _ =>
      let n := new_events l tr in exists n; split; [reflexivity|]
  end.

(** Cuts [after ++ EvDetachRequiresGrad flag :: EvBackward _ _ :: before ++ tr]. *)
Ltac cut_detach l tr :=
  match l with
  | EvDetachRequiresGrad ?f :: EvBackward _ _ :: ?l' =>
      let b := new_events l' tr in constr:((@nil event, f, b))
  | ?x :: ?l' =>
      match cut_detach l' tr with
      | (?a, ?f, ?b) => constr:((x :: a, f, b))
      end
  end.

Lemma in_six (phase : string) :
  Py.str_in phase phases_all = true ->
  phase = "Gmain" \/ phase = "Greg" \/ phase = "Gboth"
  \/ phase = "Dmain" \/ phase = "Dreg" \/ phase = "Dboth".
Proof.
  unfold phases_all. cbn [Py.str_in]. rewrite !orb_true_iff, !String.eqb_eq.
  intuition discriminate.
Qed.

Lemma Qltb_false_iff (a b : Q) : Py.Qltb a b = false <-> b <= a.
Proof.
  unfold Py.Qltb. rewrite negb_false_iff. apply Qle_bool_iff.
Qed.

(** ** [run_G] *)

(** Without style mixing ([style_mixing_prob <= 0]) [run_G] is the mapping
    network followed by the synthesis network, both under the given [sync]:
    the mapped latents reach the synthesis network as they are, no second
    mapping pass is made and no random number is drawn. *)
Theorem run_G_without_style_mixing (self : StyleGAN2Loss) (z c : tensor) (sync : bool)
    (s : machine) :
  style_mixing_prob self <= 0 ->
  run_G self z c sync s
  = (inr (Var (G_synthesis (G_mapping z c false)) [G_synthesis_id; G_mapping_id],
          Var (G_mapping z c false) [G_mapping_id]),
     Machine (EvForward G_synthesis_id sync :: EvForward G_mapping_id sync :: trace s)
             (requires_grad s) (grad_populated s) (pipe_p s) (draws s)).
Proof.
  intros Hp. apply Qltb_false_iff in Hp. unfold run_G.
  destruct s as [tr rq gp pp dr]. steps_of_monad. rewrite Hp. reflexivity.
Qed.

(** With style mixing on ([style_mixing_prob > 0]) and more than one
    layer of latents ([ws.shape[1] > 1]) [run_G] draws three
    random numbers and runs the mapping network a second time, on fresh
    latents with [skip_w_avg_update]; the mapped latents are replaced from
    a cutoff onwards, and the cutoff is the full length [ws.shape[1]]
    whenever the uniform draw is not below [style_mixing_prob]. *)
Theorem run_G_with_style_mixing (self : StyleGAN2Loss) (z c : tensor) (sync : bool)
    (s : machine) :
  0 < style_mixing_prob self ->
  (1 < shape1 (G_mapping z c false))%Z ->
  let ws := G_mapping z c false in
  exists cutoff,
    let mixed := splice_from ws cutoff
                   (G_mapping (randn_like (S (S (draws s))) z) c true) in
    run_G self z c sync s
    = (inr (Var (G_synthesis mixed) [G_synthesis_id; G_mapping_id],
            Var mixed [G_mapping_id]),
       Machine (EvForward G_synthesis_id sync :: EvForward G_mapping_id sync
                  :: EvForward G_mapping_id sync :: trace s)
               (requires_grad s) (grad_populated s) (pipe_p s) (3 + draws s))
    /\ (cutoff = shape1 ws \/ cutoff = random_ (draws s) 1 (shape1 ws))
    /\ (style_mixing_prob self <= rand (S (draws s)) -> cutoff = shape1 ws).
Proof.
  intros Hp _. apply LoopFacts.Qltb_iff in Hp. unfold run_G.
  destruct s as [tr rq gp pp dr]. steps_of_monad. rewrite Hp.
  destruct (Py.Qltb (rand (S dr)) (style_mixing_prob self)) eqn:Hr.
  - eexists. split; [reflexivity|]. split; [now right|].
    intros Hle. apply Qltb_false_iff in Hle. congruence.
  - eexists. split; [reflexivity|]. split; [now left|]. reflexivity.
Qed.

(** ** [accumulate_gradients] *)

(** Whatever the phase string and whether the call returns or raises,
    [accumulate_gradients] only appends events of the loss engine to the
    trace: it steps no optimizer and zeroes no gradient; it leaves the
    [requires_grad] flags and the augmentation strength alone, and draws at
    most three random numbers. *)
Theorem accumulate_gradients_frame (self : StyleGAN2Loss) (phase : string)
    (real_img real_c gen_z gen_c : tensor) (sync : bool) (gain : Q) (s : machine) :
  let s' := snd (accumulate_gradients self phase real_img real_c gen_z gen_c sync gain s) in
  (exists new, trace s' = new ++ trace s /\ forallb is_loss_event new = true)
  /\ requires_grad s' = requires_grad s
  /\ pipe_p s' = pipe_p s
  /\ (draws s <= draws s' <= 3 + draws s)%nat.
Proof.
  destruct s as [tr rq gp pp dr].
  destruct (Py.str_in phase phases_all) eqn:Hp.
  - apply in_six in Hp.
    destruct Hp as [->|[->|[->|[->|[->| ->]]]]]; run.
    all: (split; [give_new; reflexivity|]); repeat split; lia.
  - unfold accumulate_gradients. rewrite Hp. cbn.
    split; [exists []; split; reflexivity|]. repeat split; lia.
Qed.

(** A fused phase whose regularization weight is zero is the main phase:
    with [r1_gamma == 0], ['Dboth'] gives the result and the effects of
    ['Dmain'], with no R1 gradient computed. *)
Theorem Dboth_without_r1_is_Dmain (self : StyleGAN2Loss)
    (real_img real_c gen_z gen_c : tensor) (sync : bool) (gain : Q) (s : machine) :
  r1_gamma self == 0 ->
  accumulate_gradients self "Dboth" real_img real_c gen_z gen_c sync gain s
  = accumulate_gradients self "Dmain" real_img real_c gen_z gen_c sync gain s.
Proof.
  intros Hg. apply Qeq_bool_iff in Hg. destruct s as [tr rq gp pp dr].
  unfold accumulate_gradients, do_Dr1, do_Dmain, do_Gmain, do_Gpl.
  cbn [Py.str_in String.eqb Ascii.eqb Bool.eqb orb andb negb phases_all].
  rewrite Hg. reflexivity.
Qed.

(** With [pl_weight == 0], ['Gboth'] gives the result and the effects of
    ['Gmain']. *)
Theorem Gboth_without_pl_is_Gmain (self : StyleGAN2Loss)
    (real_img real_c gen_z gen_c : tensor) (sync : bool) (gain : Q) (s : machine) :
  pl_weight self == 0 ->
  accumulate_gradients self "Gboth" real_img real_c gen_z gen_c sync gain s
  = accumulate_gradients self "Gmain" real_img real_c gen_z gen_c sync gain s.
Proof.
  intros Hg. apply Qeq_bool_iff in Hg. destruct s as [tr rq gp pp dr].
  unfold accumulate_gradients, do_Dr1, do_Dmain, do_Gmain, do_Gpl.
  cbn [Py.str_in String.eqb Ascii.eqb Bool.eqb orb andb negb phases_all].
  rewrite Hg. reflexivity.
Qed.

(** A generator phase never looks at the real batch: result and effects
    are the same for any two real batches. *)
Theorem generator_phases_ignore_real_batch (self : StyleGAN2Loss) (phase : string)
    (real_img real_c real_img' real_c' gen_z gen_c : tensor) (sync : bool) (gain : Q)
    (s : machine) :
  In phase ["Gmain"; "Gboth"] ->
  accumulate_gradients self phase real_img real_c gen_z gen_c sync gain s
  = accumulate_gradients self phase real_img' real_c' gen_z gen_c sync gain s.
Proof.
  cbn [In]. intros [<-|[<-|[]]]; reflexivity.
Qed.

(** The forward passes of a main phase, latest first, when the phase is
    called as the driver calls it (its module has gradients enabled) and
    style mixing has a cutoff to draw.  A generator phase
    runs the generator under [sync and not do_Gpl] and the discriminator
    unsynchronized; a discriminator phase runs the generator and the
    discriminator unsynchronized on the generated images, then the
    discriminator once more, on the real images, under [sync].  In
    particular ['Gboth'] with [pl_weight != 0] synchronizes nothing. *)
Theorem forward_schedule (self : StyleGAN2Loss) (phase : string)
    (real_img real_c gen_z gen_c : tensor) (sync : bool) (gain : Q) (s : machine) :
  owner_enabled s phase = true ->
  mixing_defined self gen_z gen_c = true ->
  In phase ["Gmain"; "Gboth"; "Dmain"; "Dboth"] ->
  let s' := snd (accumulate_gradients self phase real_img real_c gen_z gen_c sync gain s) in
  let mappings := if Py.Qltb 0 (style_mixing_prob self) then 2%nat else 1%nat in
  let generated g_sync :=
    EvForward D_id false :: EvForward G_synthesis_id g_sync
      :: repeat (EvForward G_mapping_id g_sync) mappings in
  exists new,
    trace s' = new ++ trace s
    /\ filter is_forward new
       = if do_Gmain phase then generated (sync && negb (do_Gpl self phase))
         else EvForward D_id sync :: generated false.
Proof.
  intros _ _. destruct s as [tr rq gp pp dr]. cbn [In].
  intros [<-|[<-|[<-|[<-|[]]]]]; run.
  all: give_new; reflexivity.
Qed.

(** What a discriminator main phase, called with the discriminator's
    gradients enabled and with a cutoff to draw when style mixing is on,
    returns is the mean of [softplus(-real_logits)] alone: neither the loss on the generated
    images, nor the R1 penalty, nor [gain] enters the reported value. *)
Theorem discriminator_reported_loss (self : StyleGAN2Loss) (phase : string)
    (real_img real_c gen_z gen_c : tensor) (sync : bool) (gain : Q) (s : machine) :
  owner_enabled s phase = true ->
  mixing_defined self gen_z gen_c = true ->
  In phase ["Dmain"; "Dboth"] ->
  exists v,
    fst (accumulate_gradients self phase real_img real_c gen_z gen_c sync gain s) = inr v
    /\ data v = mean (softplus (neg (run_D_fn self (pipe_p s) real_c real_img))).
Proof.
  intros _ _. destruct s as [tr rq gp pp dr]. cbn [In].
  intros [<-|[<-|[]]]; run.
  all: eexists; split; reflexivity.
Qed.

(** What a generator main phase, called with the generator's gradients
    enabled and with a cutoff to draw when style mixing is on, returns is
    the mean of the loss already multiplied by [gain]: [mean(mean(softplus(-gen_logits)) * gain)], where
    [gen_logits] is the discriminator's answer to the image [run_G] made. *)
Theorem generator_reported_loss (self : StyleGAN2Loss) (phase : string)
    (real_img real_c gen_z gen_c : tensor) (sync : bool) (gain : Q) (s : machine) :
  owner_enabled s phase = true ->
  mixing_defined self gen_z gen_c = true ->
  In phase ["Gmain"; "Gboth"] ->
  exists v gen_img gen_ws s1,
    run_G self gen_z gen_c (sync && negb (do_Gpl self phase)) s
    = (inr (gen_img, gen_ws), s1)
    /\ fst (accumulate_gradients self phase real_img real_c gen_z gen_c sync gain s) = inr v
    /\ data v
       = mean (mul_scalar
                 (mean (softplus (neg (run_D_fn self (pipe_p s) gen_c (data gen_img)))))
                 gain).
Proof.
  intros _ _. destruct s as [tr rq gp pp dr]. cbn [In].
  intros [<-|[<-|[]]]; run.
  all: do 4 eexists; (split; [reflexivity|]); split; reflexivity.
Qed.

(** The backward passes of a main phase that is called as the driver calls
    it (its module has gradients enabled) and has a cutoff to draw when
    style mixing is on.  A generator phase ends with its
    only backward pass, on [mean(softplus(-gen_logits)) * gain].  A
    discriminator phase makes two: one on [mean(softplus(gen_logits)) * gain]
    for the generated images, made before the real images are detached and
    run through the discriminator, and one that ends the call. *)
Theorem backward_schedule (self : StyleGAN2Loss) (phase : string)
    (real_img real_c gen_z gen_c : tensor) (sync : bool) (gain : Q) (s : machine) :
  owner_enabled s phase = true ->
  mixing_defined self gen_z gen_c = true ->
  In phase ["Gmain"; "Gboth"; "Dmain"; "Dboth"] ->
  let s' := snd (accumulate_gradients self phase real_img real_c gen_z gen_c sync gain s) in
  exists gen_img gen_ws s1 before,
    run_G self gen_z gen_c (do_Gmain phase && sync && negb (do_Gpl self phase)) s
    = (inr (gen_img, gen_ws), s1)
    /\ existsb is_backward before = false
    /\ let gen_logits := run_D_fn self (pipe_p s) gen_c (data gen_img) in
       let through := [D_id; G_synthesis_id; G_mapping_id] in
       if do_Gmain phase then
         trace s' = EvBackward (mul_scalar (mean (softplus (neg gen_logits))) gain) through
                      :: before ++ trace s
       else
         exists real_loss g after flag,
           trace s' = EvBackward real_loss g :: after
                        ++ EvDetachRequiresGrad flag
                        :: EvBackward (mul_scalar (mean (softplus gen_logits)) gain) through
                        :: before ++ trace s
           /\ existsb is_backward after = false.
Proof.
  intros _ _. destruct s as [tr rq gp pp dr]. cbn [In].
  intros [<-|[<-|[<-|[<-|[]]]]]; run.
  all: do 3 eexists.
  all: match goal with
       | |- exists before, _ /\ _ /\ EvBackward _ _ :: ?l = _ =>
           let b := new_events l tr in
           exists b; split; [reflexivity|]; split; reflexivity
       | |- exists before, _ /\ _ /\ exists real_loss g after flag,
              EvBackward _ _ :: ?l = _ /\ _ =>
           match cut_detach l tr with
           | (?a, ?f, ?b) =>
               exists b; split; [reflexivity|]; split; [reflexivity|];
               eexists _, _, a, f; split; reflexivity
           end
       end.
Qed.

(** From any state of the gradient buffers, a main phase called with only
    its own module's gradients enabled, and with a cutoff to draw when
    style mixing is on, returns and populates that module's
    buffers, leaving the other module's buffers as they were. *)
Theorem phase_populates_only_owner (self : StyleGAN2Loss) (phase : string)
    (real_img real_c gen_z gen_c : tensor) (sync : bool) (gain : Q)
    (tr : list event) (populated : flags) (p : option Q) (n : nat) :
  mixing_defined self gen_z gen_c = true ->
  In phase ["Gmain"; "Gboth"; "Dmain"; "Dboth"] ->
  let s := Machine tr (set (Flags false false) (phase_owner phase) true) populated p n in
  exists v s',
    accumulate_gradients self phase real_img real_c gen_z gen_c sync gain s = (inr v, s')
    /\ grad_populated s' = set populated (phase_owner phase) true.
Proof.
  intros _. destruct populated as [pg pd]. cbn [In].
  intros [<-|[<-|[<-|[<-|[]]]]]; run.
  all: do 2 eexists; split; [reflexivity|].
  all: cbn; destruct pg, pd; reflexivity.
Qed.

End WithCollaborators.
End LossExtras.

(* ------------------------------------------------------------------ *)
(** ** More about the training loop *)

Module LoopExtras.
Import Torch Monad Loss TrainingLoop Accepts Observers Protocol LossFacts LoopFacts.
Local Open Scope string_scope.
Local Open Scope list_scope.

Section WithCollaborators.
Context `{Collaborators}.

Ltac tests :=
  repeat match goal with
    | |- context [Qeq_bool ?a ?b] => destruct (Qeq_bool a b) eqn:?
    | |- context [Py.Qltb ?a ?b] => destruct (Py.Qltb a b) eqn:?
    | |- context [String.eqb ?a ""] => destruct (String.eqb a "") eqn:?
    | |- context [match ?p with Some _ => _ | None => _ end] => is_var p; destruct p
    end.

Ltac steps_of_monad :=
  cbv beta iota zeta delta
    [bind ret raise emit draw get_pipe set_pipe backward local value_mean lift1
     add_value fst snd trace requires_grad grad_populated pipe_p draws data graph
     real_logits loss_Dreal loss_Dr1 r1_term negb orb andb].

Ltac run :=
  unfold accumulate_gradients, do_Dr1, do_Dmain, do_Gmain, do_Gpl, run_G, run_D;
  cbn [Py.str_in String.eqb Ascii.eqb Bool.eqb orb andb negb phases_all];
  repeat (progress (steps_of_monad; tests)).

Ltac new_events l tr :=
  match l with
  | tr => constr:(@nil event)
  | ?x :: ?l' => let r := new_events l' tr in constr:(x :: r)
  end.

Ltac driver :=
  cbv beta iota zeta delta
    [bind ret raise emit draw get_pipe set_pipe zero_grad set_requires_grad local];
  cbn [fst snd trace requires_grad grad_populated pipe_p draws
       cur_nimg cur_tick tick_start_nimg batch_idx training_set_iterator
       loss_item_g loss_item_d].

Lemma Qltb_false (a b : Q) : Py.Qltb a b = false -> b <= a.
Proof.
  unfold Py.Qltb. rewrite negb_false_iff. apply Qle_bool_iff.
Qed.

(** What a fused phase, called as the driver calls it, does to the machine. *)
Lemma fused_phase_effects (self : StyleGAN2Loss) (phase : string)
    (real_img real_c gen_z gen_c : tensor) (sync : bool) (gain : Q) (s : machine) :
  In phase ["Gboth"; "Dboth"] ->
  exists v s' new,
    accumulate_gradients self phase real_img real_c gen_z gen_c sync gain s = (inr v, s')
    /\ trace s' = new ++ trace s
    /\ forallb is_loss_event new = true
    /\ (sync = false -> existsb is_synced_forward new = false)
    /\ requires_grad s' = requires_grad s
    /\ pipe_p s' = pipe_p s
    /\ (requires_grad s = set (Flags false false) (phase_owner phase) true ->
        grad_populated s' = set (grad_populated s) (phase_owner phase) true).
Proof.
  destruct s as [tr rq [pg pd] pp dr]. cbn [In].
  intros [<-|[<-|[]]]; run.
  all: do 2 eexists.
  all: match goal with
       | |- exists new, (_, {| trace := ?l |}) = _ /\ _ =>
           let n := new_events l tr in exists n
       end.
  all: split; [reflexivity|]; split; [reflexivity|]; split; [reflexivity|].
  all: split; [intros ->; reflexivity|]; split; [reflexivity|]; split; [reflexivity|].
  all: cbn; intros ->; cbn; destruct pg, pd; reflexivity.
Qed.

(** Lines 244-267 for one of the two phases of [phases]. *)
Lemma execute_phase_full (cfg : kwargs) (real_img real_c : tensor) (l : locals)
    (ph : phase) (z c : tensor) (s : machine) :
  In ph phases ->
  exists v s' new,
    execute_phase cfg real_img real_c l (ph, z, c) s
    = (inr (if Py.char_in "G"%char (name ph)
            then Locals (cur_nimg l) (cur_tick l) (tick_start_nimg l) (batch_idx l)
                        (training_set_iterator l) (Some v) (loss_item_d l)
            else Locals (cur_nimg l) (cur_tick l) (tick_start_nimg l) (batch_idx l)
                        (training_set_iterator l) (loss_item_g l) (Some v)), s')
    /\ trace s' = phase_events (module ph) new ++ trace s
    /\ forallb is_loss_event new = true
    /\ ((ordinal cfg =? 0)%Z = false -> existsb is_synced_forward new = false)
    /\ pipe_p s' = pipe_p s
    /\ requires_grad s' = set (requires_grad s) (module ph) false
    /\ (requires_grad s = no_grad ->
        grad_populated s' = set (grad_populated s) (module ph) true).
Proof.
  destruct s as [tr rq gp pp dr]. intros Hin.
  assert (Hph : ph = {| name := "Gboth"; module := G; interval := 1 |}
                \/ ph = {| name := "Dboth"; module := D; interval := 1 |})
    by (simpl in Hin; destruct Hin as [<-|[<-|[]]]; auto).
  clear Hin. destruct Hph as [-> | ->]; unfold execute_phase; cbn [name module interval].
  all: unfold zero_grad, set_requires_grad; unfold bind at 1 2;
    cbn [trace requires_grad grad_populated pipe_p draws].
  all: match goal with
       | |- context [bind (accumulate_gradients ?a ?b ?c ?d ?e ?f ?g ?h) _ ?s0] =>
           destruct (fused_phase_effects a b c d e f g h s0 ltac:(simpl; tauto))
             as (v & [tr1 rq1 gp1 pp1 dr1] & new & E & T & L & S & R & P & Gp)
       end.
  all: erewrite bind_inr by exact E.
  all: cbn [trace pipe_p requires_grad grad_populated] in T, P, R, Gp; subst tr1 pp1 rq1.
  all: exists v; eexists; exists new; split; [reflexivity|].
  all: cbn [trace pipe_p requires_grad grad_populated].
  all: split; [unfold phase_events; rewrite <- !app_assoc; reflexivity|].
  all: split; [exact L|]; split; [exact S|]; split; [reflexivity|].
  all: split; [destruct rq as [[] []]; reflexivity|].
  all: intros ->; rewrite Gp by reflexivity; destruct gp as [[] []]; reflexivity.
Qed.

(** Fetching a batch and sampling labels only advance the draw counter. *)
Lemma next_batch_only_draws (l : locals) (s : machine) :
  (forall i, per_device_loader i <> []) ->
  exists b it n,
    next_batch l s
    = (inr (b, it), Machine (trace s) (requires_grad s) (grad_populated s) (pipe_p s) n).
Proof.
  intros Hl. unfold next_batch. destruct s as [tr rq gp pp dr].
  destruct (training_set_iterator l) as [|b rest].
  - unfold bind, draw. cbn [draws trace requires_grad grad_populated pipe_p].
    specialize (Hl dr). destruct (per_device_loader dr) as [|b rest]; [congruence|].
    now exists b, rest, (S dr).
  - now exists b, rest, dr.
Qed.

Lemma sample_labels_only_draws (n : nat) (s : machine) :
  exists labels k,
    sample_labels n s
    = (inr labels, Machine (trace s) (requires_grad s) (grad_populated s) (pipe_p s) k)
    /\ List.length labels = n.
Proof.
  revert s. induction n as [|n IH]; intros [tr rq gp pp dr].
  - now exists [], dr.
  - cbn [sample_labels]. unfold bind at 1.
    cbn [draw draws trace requires_grad grad_populated pipe_p].
    destruct (IH (Machine tr rq gp pp (S dr))) as (ls & k & E & L).
    erewrite bind_inr by exact E. eexists _, k. split; [reflexivity|].
    simpl. now rewrite L.
Qed.

(** Lines 243-267: the two phases in turn. *)
Lemma execute_phases_full (cfg : kwargs) (real_img real_c : tensor) (l : locals)
    (z0 c0 z1 c1 : tensor) (s : machine) :
  exists v0 v1 s' loss_g loss_d,
    execute_phases cfg real_img real_c l
      [({| name := "Gboth"; module := G; interval := 1 |}, z0, c0);
       ({| name := "Dboth"; module := D; interval := 1 |}, z1, c1)] s
    = (inr (Locals (cur_nimg l) (cur_tick l) (tick_start_nimg l) (batch_idx l)
                   (training_set_iterator l) (Some v0) (Some v1)), s')
    /\ trace s' = phase_events D loss_d ++ phase_events G loss_g ++ trace s
    /\ forallb is_loss_event loss_g = true
    /\ forallb is_loss_event loss_d = true
    /\ ((ordinal cfg =? 0)%Z = false ->
        existsb is_synced_forward loss_g = false
        /\ existsb is_synced_forward loss_d = false)
    /\ pipe_p s' = pipe_p s
    /\ requires_grad s' = set (set (requires_grad s) G false) D false
    /\ (requires_grad s = no_grad -> grad_populated s' = Flags true true).
Proof.
  cbn [execute_phases].
  destruct (execute_phase_full cfg real_img real_c l
              {| name := "Gboth"; module := G; interval := 1 |} z0 c0 s
              ltac:(simpl; auto))
    as (v0 & s1 & loss_g & E1 & T1 & L1 & S1 & P1 & R1 & G1).
  erewrite bind_inr by exact E1. cbn [Py.char_in name Ascii.eqb Bool.eqb orb].
  match goal with
  | |- context [execute_phase _ _ _ ?l1 _] =>
      destruct (execute_phase_full cfg real_img real_c l1
                  {| name := "Dboth"; module := D; interval := 1 |} z1 c1 s1
                  ltac:(simpl; auto))
        as (v1 & s2 & loss_d & E2 & T2 & L2 & S2 & P2 & R2 & G2)
  end.
  erewrite bind_inr by exact E2.
  cbn [Py.char_in name module Ascii.eqb Bool.eqb orb cur_nimg cur_tick tick_start_nimg
       batch_idx training_set_iterator loss_item_g loss_item_d] in *.
  exists v0, v1, s2, loss_g, loss_d. split; [reflexivity|].
  split; [rewrite T2, T1; reflexivity|].
  split; [exact L1|]. split; [exact L2|]. split; [now auto|].
  split; [congruence|]. split; [rewrite R2, R1; reflexivity|].
  intros Hno. specialize (G1 Hno).
  rewrite Hno in R1. rewrite G2 by exact R1. rewrite G1.
  destruct (grad_populated s) as [[] []]; reflexivity.
Qed.

(** Lines 229-333, with everything the pass does to the machine. *)
Lemma loop_body_full (cfg : kwargs) (l : locals) (s : machine) :
  (1 <= batch_gpu cfg)%Z ->
  (forall i, per_device_loader i <> []) ->
  exists l' c s' loss_g loss_d,
    loop_body cfg l s = (inr (l', c), s')
    /\ cur_nimg l' = (cur_nimg l + batch_size cfg)%Z
    /\ (let done := budget_reached cfg (cur_nimg l') in
        let skip := within_tick cfg done (cur_tick l) (cur_nimg l') (tick_start_nimg l) in
        trace s' = (if skip then [] else tick_events cfg done (cur_nimg l'))
                   ++ report_events cfg (cur_nimg l')
                   ++ EvEMA (ema_beta cfg (cur_nimg l))
                   :: phase_events D loss_d ++ phase_events G loss_g ++ trace s)
    /\ forallb is_loss_event loss_g = true
    /\ forallb is_loss_event loss_d = true
    /\ ((ordinal cfg =? 0)%Z = false ->
        existsb is_synced_forward loss_g = false
        /\ existsb is_synced_forward loss_d = false)
    /\ pipe_p s' = pipe_p s
    /\ requires_grad s' = set (set (requires_grad s) G false) D false
    /\ (requires_grad s = no_grad -> grad_populated s' = Flags true true).
Proof.
  intros Hgpu Hloader. unfold loop_body. destruct s as [tr rq gp pp dr].
  destruct (next_batch_only_draws l (Machine tr rq gp pp dr) Hloader)
    as ([img c] & it & dr1 & E1).
  cbn [trace requires_grad grad_populated pipe_p] in E1.
  erewrite bind_inr by exact E1. cbv iota beta.
  unfold bind at 1, draw at 1. cbn [draws trace requires_grad grad_populated pipe_p].
  destruct (sample_labels_only_draws (Z.to_nat (2 * batch_gpu cfg))
              (Machine tr rq gp pp (S dr1))) as (labels & dr2 & E2 & Hlen).
  cbn [trace requires_grad grad_populated pipe_p] in E2.
  erewrite bind_inr by exact E2.
  destruct (phase_items_two cfg dr1 labels Hgpu Hlen) as (c0 & c1 & rest & _ & ->).
  match goal with
  | |- context [execute_phases _ ?ri ?rc ?l0 [(_, ?z0, _); (_, ?z1, _)]] =>
      destruct (execute_phases_full cfg ri rc l0 z0 c0 z1 c1 (Machine tr rq gp pp dr2))
        as (v0 & v1 & [tr3 rq3 gp3 pp3 dr3] & loss_g & loss_d
            & E3 & T3 & L3 & L3' & S3 & P3 & R3 & G3)
  end.
  erewrite bind_inr by exact E3.
  cbn [trace pipe_p requires_grad grad_populated] in T3, P3, R3, G3.
  subst tr3 pp3 rq3. clear E1 E2 E3.
  unfold execute_ada, ada_stats, tick_boundary.
  driver.
  destruct (budget_reached cfg (cur_nimg l + batch_size cfg)) eqn:Hdone.
  all: destruct (within_tick cfg _ (cur_tick l) (cur_nimg l + batch_size cfg)
                   (tick_start_nimg l)) eqn:Hskip.
  all: unfold report_events, tick_events.
  all: destruct (is_master_ordinal cfg); driver.
  all: try (destruct (abort_fn cfg) as [f|]; driver).
  all: try (destruct (f (cur_tick l))).
  all: do 3 eexists; exists loss_g, loss_d; (split; [reflexivity|]).
  all: cbn [cur_nimg cur_tick batch_idx tick_start_nimg trace pipe_p requires_grad
            grad_populated]; rewrite ?Hdone, ?Hskip.
  all: split; [reflexivity|]; split; [reflexivity|].
  all: split; [exact L3|]; split; [exact L3'|]; split; [exact S3|].
  all: split; [reflexivity|]; split; [reflexivity|]; exact G3.
Qed.

(** ** The per-iteration contract *)

(** The trace of one pass, latest event first: the generator phase, then
    the discriminator phase, each as zero-grad, enable gradients, the loss
    engine's events, disable gradients, reduce, clip, step, mark; then the
    EMA update; then the tensorboard scalars on the master ordinal; then,
    at a tick boundary, the abort poll (only while training is not done and
    a callback exists) and the step closure. *)
Theorem iteration_protocol (cfg : kwargs) (l : locals) (s : machine) :
  (1 <= batch_gpu cfg)%Z ->
  (forall i, per_device_loader i <> []) ->
  exists l' c s' loss_g loss_d,
    loop_body cfg l s = (inr (l', c), s')
    /\ (let done := budget_reached cfg (cur_nimg l') in
        let skip := within_tick cfg done (cur_tick l) (cur_nimg l') (tick_start_nimg l) in
        trace s' = (if skip then [] else tick_events cfg done (cur_nimg l'))
                   ++ report_events cfg (cur_nimg l')
                   ++ EvEMA (ema_beta cfg (cur_nimg l))
                   :: phase_events D loss_d ++ phase_events G loss_g ++ trace s)
    /\ forallb is_loss_event loss_g = true
    /\ forallb is_loss_event loss_d = true.
Proof.
  intros Hgpu Hloader.
  destruct (loop_body_full cfg l s Hgpu Hloader)
    as (l' & c & s' & lg & ld & E & _ & T & Lg & Ld & _).
  exists l', c, s', lg, ld. auto.
Qed.

Lemma pass_trace_assoc (a b : list event) (e : event) (c d tr : list event) :
  a ++ b ++ e :: c ++ d ++ tr = (a ++ b ++ e :: c ++ d) ++ tr.
Proof. now rewrite <- !app_assoc, <- app_comm_cons, <- !app_assoc. Qed.

Lemma existsb_synced_tail (cfg : kwargs) (skip done : bool) (n : Z) :
  existsb is_synced_forward
    ((if skip then [] else tick_events cfg done n) ++ report_events cfg n) = false.
Proof.
  unfold report_events, tick_events.
  destruct skip, done, (is_master_ordinal cfg), (abort_fn cfg); reflexivity.
Qed.

Lemma filter_poll_tail (cfg : kwargs) (skip done : bool) (n : Z) :
  filter is_abort_poll
    ((if skip then [] else tick_events cfg done n) ++ report_events cfg n)
  = if negb skip && negb done && match abort_fn cfg with Some _ => true | None => false end
    then [EvAbortPoll] else [].
Proof.
  unfold report_events, tick_events.
  destruct skip, done, (is_master_ordinal cfg), (abort_fn cfg); reflexivity.
Qed.

Lemma filter_poll_phase (m : top_module) (new : list event) :
  forallb is_loss_event new = true -> filter is_abort_poll (phase_events m new) = [].
Proof.
  intros Hl. unfold phase_events. rewrite !filter_app. cbn.
  rewrite app_nil_r. induction new as [|e new IH]; [reflexivity|].
  cbn in Hl |- *. apply andb_true_iff in Hl as [He Hl].
  destruct e; try discriminate; auto.
Qed.

Lemma existsb_synced_phase (m : top_module) (new : list event) :
  existsb is_synced_forward (phase_events m new) = existsb is_synced_forward new.
Proof.
  unfold phase_events. rewrite !existsb_app. cbn. now rewrite orb_false_r.
Qed.

(** On a process whose ordinal is not 0 the driver passes [sync = False]
    to every phase, and no forward pass of the iteration is synchronized. *)
Theorem no_sync_off_coordinator (cfg : kwargs) (l : locals) (s : machine) :
  (1 <= batch_gpu cfg)%Z ->
  (forall i, per_device_loader i <> []) ->
  ordinal cfg <> 0%Z ->
  exists r s' new,
    loop_body cfg l s = (inr r, s')
    /\ trace s' = new ++ trace s
    /\ existsb is_synced_forward new = false.
Proof.
  intros Hgpu Hloader Hord. apply Z.eqb_neq in Hord.
  destruct (loop_body_full cfg l s Hgpu Hloader)
    as (l' & c & s' & lg & ld & E & _ & T & _ & _ & S & _).
  destruct (S Hord) as [Sg Sd]. cbv zeta in T.
  eexists (l', c), s', _. split; [exact E|].
  split; [rewrite T; apply pass_trace_assoc|].
  rewrite app_assoc, existsb_app, existsb_synced_tail. cbn [existsb is_synced_forward orb].
  now rewrite existsb_app, !existsb_synced_phase, Sg, Sd.
Qed.

(** Between two phases no module has gradients enabled, and a pass that
    starts in that state ends in it with the gradient buffers of both
    modules populated: the discriminator phase zeroes only the
    discriminator's buffers. *)
Theorem gradients_after_iteration (cfg : kwargs) (l : locals) (s : machine) :
  (1 <= batch_gpu cfg)%Z ->
  (forall i, per_device_loader i <> []) ->
  requires_grad s = no_grad ->
  exists r s',
    loop_body cfg l s = (inr r, s')
    /\ requires_grad s' = no_grad
    /\ grad_populated s' = Flags true true.
Proof.
  intros Hgpu Hloader Hno.
  destruct (loop_body_full cfg l s Hgpu Hloader)
    as (l' & c & s' & lg & ld & E & _ & _ & _ & _ & _ & _ & R & Gp).
  exists (l', c), s'. split; [exact E|]. split; [|now apply Gp].
  rewrite R, Hno. reflexivity.
Qed.

(** ** Abort *)

(** A pass polls [abort_fn] exactly when it is a tick boundary, training
    is not done and a callback exists; and it breaks out of the loop
    exactly when it is a tick boundary at which training is done or the
    callback answered [True]. *)
Theorem abort_polled_at_tick_boundaries (cfg : kwargs) (l : locals) (s : machine) :
  (1 <= batch_gpu cfg)%Z ->
  (forall i, per_device_loader i <> []) ->
  exists l' c s' new,
    loop_body cfg l s = (inr (l', c), s')
    /\ trace s' = new ++ trace s
    /\ let done := budget_reached cfg (cur_nimg l') in
       let skip := within_tick cfg done (cur_tick l) (cur_nimg l') (tick_start_nimg l) in
       filter is_abort_poll new
       = (if negb skip && negb done
             && match abort_fn cfg with Some _ => true | None => false end
          then [EvAbortPoll] else [])
       /\ (c = Break <-> skip = false /\ (done = true \/ aborted cfg (cur_tick l) = true)).
Proof.
  intros Hgpu Hloader.
  destruct (loop_body_full cfg l s Hgpu Hloader)
    as (l' & c & s' & lg & ld & E & _ & T & Lg & Ld & _).
  destruct (loop_body_spec cfg l s Hgpu Hloader)
    as (l2 & c2 & s2 & E2 & _ & _ & _ & (_ & Hc) & _).
  assert (Hsame : l2 = l' /\ c2 = c /\ s2 = s')
    by (rewrite E in E2; inversion E2; auto).
  destruct Hsame as (-> & -> & ->). clear E2.
  cbv zeta in T, Hc |- *.
  eexists l', c, s', _. split; [exact E|].
  split; [rewrite T; apply pass_trace_assoc|].
  split.
  - rewrite app_assoc, filter_app, filter_poll_tail. cbn [filter is_abort_poll].
    rewrite filter_app, !filter_poll_phase by assumption. apply app_nil_r.
  - rewrite Hc. unfold aborted.
    destruct (within_tick cfg _ _ _ _), (budget_reached cfg _);
      destruct (abort_fn cfg) as [f|]; try destruct (f (cur_tick l)); cbn;
      intuition discriminate.
Qed.

(** If [abort_fn] answers [True] at its first poll, the loop makes exactly
    one pass whatever the image budget: the first pass is always a tick
    boundary, its bookkeeping is completed ([cur_tick] becomes 1), and the
    loop breaks. *)
Theorem abort_at_first_poll (cfg : kwargs) (f : Z -> bool) (s : machine) :
  (1 <= batch_gpu cfg)%Z ->
  (forall i, per_device_loader i <> []) ->
  abort_fn cfg = Some f ->
  f 0%Z = true ->
  exists l',
    (forall fuel, fst (training_loop (S fuel) cfg s) = inr (Some l'))
    /\ batch_idx l' = 1%Z
    /\ cur_nimg l' = batch_size cfg
    /\ cur_tick l' = 1%Z.
Proof.
  intros Hgpu Hloader Hab Hf.
  destruct (setup_ok cfg s) as (it & s0 & E0).
  destruct (loop_body_spec cfg (Locals 0 0 0 0 it None None) s0 Hgpu Hloader)
    as (l1 & c & s1 & E & Hnimg & Hidx & _ & (Htick & Hc) & _).
  unfold within_tick, aborted in Htick, Hc. rewrite Hab in Hc.
  cbn [cur_nimg cur_tick batch_idx tick_start_nimg Z.eqb negb andb] in *.
  rewrite andb_false_r in Htick, Hc. cbn in Htick, Hc. rewrite Hf, orb_true_r in Hc.
  exists l1. repeat split; auto.
  intros fuel. unfold training_loop. erewrite bind_inr by exact E0.
  cbn [while_true]. erewrite bind_inr by exact E. cbn [snd fst]. now rewrite Hc.
Qed.

(** ** The data stream *)

(** A loader that yields no batch is fatal: the first pass raises
    [StopIteration] from the retried [next], before any phase is run; the
    trace holds only the two [requires_grad_(False)] calls of the set-up. *)
Theorem empty_loader_stops (cfg : kwargs) (s : machine) (fuel : nat) :
  (forall i, per_device_loader i = []) ->
  exists s',
    training_loop (S fuel) cfg s = (inl Py.StopIteration, s')
    /\ trace s' = EvRequiresGrad D false :: EvRequiresGrad G false :: trace s.
Proof.
  intros Hempty. destruct s as [tr rq gp pp dr].
  unfold training_loop, setup. driver. rewrite Hempty.
  destruct (augment_kwargs cfg && _); driver.
  all: cbn [while_true]; unfold loop_body, next_batch; driver; rewrite Hempty.
  all: eexists; split; reflexivity.
Qed.

(** ** The augmentation strength *)

(** The strength of the augmentation pipe is fixed for the whole run.  The
    pipe exists exactly when [augment_kwargs] is given and
    ([augment_p > 0] or [ada_target] is set); its [p] is [augment_p] after
    any number of passes, whatever [ada_target] is. *)
Theorem augmentation_strength_fixed (cfg : kwargs) (s : machine) (fuel : nat) :
  (1 <= batch_gpu cfg)%Z ->
  (forall i, per_device_loader i <> []) ->
  pipe_p (snd (training_loop fuel cfg s))
  = if augment_kwargs cfg
       && (Py.Qltb 0 (augment_p cfg)
           || match ada_target cfg with Some _ => true | None => false end)
    then Some (augment_p cfg) else None.
Proof.
  intros Hgpu Hloader.
  destruct (setup_ok cfg s) as (it & s0 & E0).
  unfold training_loop. erewrite bind_inr by exact E0.
  rewrite (while_true_keeps_p cfg Hgpu Hloader).
  destruct s as [tr rq gp pp dr]. unfold setup in E0. revert E0. driver.
  destruct (augment_kwargs cfg && _); driver; intros E0; inversion E0; reflexivity.
Qed.

(** ** The EMA half-life *)

(** The exponent of the EMA decay never divides by zero: its denominator
    is the larger of [ema_nimg] and [1e-8], where [ema_nimg] is the smaller
    of [ema_kimg * 1000] and [cur_nimg * ema_rampup] when a ramp-up is set;
    so it is at least [1e-8]. *)
Theorem ema_denominator_floor (cfg : kwargs) (cur_nimg : Z) :
  exists ema_nimg d,
    ema_beta cfg cur_nimg = float_pow (1 # 2) (inject_Z (batch_size cfg) / d)
    /\ d == Qmax ema_nimg (1 # 100000000)
    /\ (1 # 100000000) <= d
    /\ ema_nimg == match ema_rampup cfg with
                   | Some r => Qmin (ema_kimg cfg * 1000) (inject_Z cur_nimg * r)
                   | None => ema_kimg cfg * 1000
                   end.
Proof.
  assert (Hmax : forall a b, Py.max a b == Qmax a b).
  { intros a b. unfold Py.max. destruct (Py.Qltb a b) eqn:E.
    - apply Qltb_iff in E. symmetry. apply Q.max_r. now apply Qlt_le_weak.
    - apply Qltb_false in E. symmetry. now apply Q.max_l. }
  assert (Hmin : forall a b, Py.min a b == Qmin a b).
  { intros a b. unfold Py.min. destruct (Py.Qltb b a) eqn:E.
    - apply Qltb_iff in E. symmetry. apply Q.min_r. now apply Qlt_le_weak.
    - apply Qltb_false in E. symmetry. now apply Q.min_l. }
  unfold ema_beta. eexists _, _. split; [reflexivity|].
  split; [apply Hmax|]. split.
  - rewrite Hmax. apply Q.le_max_r.
  - destruct (ema_rampup cfg); [apply Hmin | reflexivity].
Qed.

(** ** The ADA adjustment *)

(** Lines 285-286 move a non-negative [p] by one step
    [batch_size * ada_interval / (ada_kimg * 1000)] towards the target:
    up when the statistic is above the target, down (but not below zero)
    when it is below, and not at all when they are equal. *)
Theorem ada_adjust_direction (cfg : kwargs) (target stat p : Q) :
  0 <= p ->
  0 < ada_kimg cfg ->
  (0 <= batch_size cfg * ada_interval cfg)%Z ->
  let step := inject_Z (batch_size cfg * ada_interval cfg) / (ada_kimg cfg * 1000) in
  0 <= step
  /\ (target < stat -> ada_adjust cfg target stat p == p + step)
  /\ (stat == target -> ada_adjust cfg target stat p == p)
  /\ (stat < target -> ada_adjust cfg target stat p == Qmax (p - step) 0).
Proof.
  intros Hp Hk Hn. cbv zeta.
  set (n := inject_Z (batch_size cfg * ada_interval cfg)).
  set (k := ada_kimg cfg * 1000).
  assert (Hk' : 0 < k).
  { unfold k. rewrite <- (Qmult_0_l 1000). apply Qmult_lt_compat_r; [reflexivity|exact Hk]. }
  assert (Hn' : 0 <= n) by (unfold n; now rewrite <- (Zle_Qle 0)).
  assert (Hstep : 0 <= n / k).
  { apply Qle_shift_div_l; [exact Hk'|]. now rewrite Qmult_0_l. }
  assert (Hmax : forall a, Py.max a 0 == Qmax a 0).
  { intros a. unfold Py.max. destruct (Py.Qltb a 0) eqn:E.
    - apply Qltb_iff in E. symmetry. apply Q.max_r. now apply Qlt_le_weak.
    - apply Qltb_false in E. symmetry. now apply Q.max_l. }
  assert (Hsign : forall x, (0 < x -> Py.sign x = 1) /\ (x == 0 -> Py.sign x = 0)
                            /\ (x < 0 -> Py.sign x = - (1))).
  { intros [a b]. unfold Py.sign, Qlt, Qeq. cbn [Qnum Qden].
    rewrite !Z.mul_1_r, !Z.mul_0_l. repeat split; intros Hx.
    - now rewrite (proj2 (Z.sgn_pos_iff a) Hx).
    - now rewrite Hx.
    - now rewrite (proj2 (Z.sgn_neg_iff a) Hx). }
  split; [exact Hstep|]. unfold ada_adjust. fold n k.
  destruct (Hsign (stat - target)) as (Spos & Szero & Sneg).
  repeat split; intros Hcmp; rewrite Hmax.
  - rewrite Spos by exact (proj1 (Qlt_minus_iff target stat) Hcmp).
    rewrite Qmult_1_l. apply Q.max_l.
    rewrite <- (Qplus_0_l 0). now apply Qplus_le_compat.
  - rewrite Szero by (rewrite Hcmp; unfold Qminus; apply Qplus_opp_r).
    unfold Qdiv. rewrite !Qmult_0_l, Qplus_0_r. now apply Q.max_l.
  - rewrite Sneg.
    + apply Q.max_compat; [|reflexivity].
      unfold Qminus, Qdiv. ring.
    + apply (Qplus_lt_l _ _ target). unfold Qminus.
      rewrite <- Qplus_assoc, (Qplus_comm (- target)), Qplus_opp_r, Qplus_0_r, Qplus_0_l.
      exact Hcmp.
Qed.

(** ** The tick counter *)

Lemma Qltb_plus_0 (a t x : Q) :
  Py.Qltb a (inject_Z 0 + x) = Py.Qltb a x.
Proof.
  unfold Py.Qltb. f_equal. apply Qleb_comp; [apply Qplus_0_l | reflexivity].
Qed.

Lemma while_true_ticks (cfg : kwargs) (total : nat) :
  (1 <= batch_gpu cfg)%Z ->
  (forall i, per_device_loader i <> []) ->
  abort_fn cfg = None ->
  forall (n j : nat) (l : locals) (s : machine),
    (1 <= n)%nat -> (j + n = total)%nat ->
    cur_nimg l = (Z.of_nat j * batch_size cfg)%Z ->
    tick_start_nimg l = 0%Z ->
    (j = 0%nat -> cur_tick l = 0%Z) ->
    ((1 <= j)%nat -> (1 <= cur_tick l)%Z) ->
    budget_reached cfg (Z.of_nat total * batch_size cfg) = true ->
    (forall k, (1 <= k < total)%nat ->
               budget_reached cfg (Z.of_nat k * batch_size cfg) = false) ->
    exists l',
      cur_tick l'
      = (cur_tick l + Z.of_nat (List.length (filter (Ticks.is_tick cfg total)
                                              (seq (S j) n))))%Z
      /\ forall fuel,
           fst (while_true fuel cfg l s)
           = inr (if (n <=? fuel)%nat then Some l' else None).
Proof.
  intros Hgpu Hloader Habort n.
  induction n as [|n IH]; intros j l s Hn Htot Hnimg Hstart Hzero Hpos Hdone Hbefore; [lia|].
  destruct (loop_body_spec cfg l s Hgpu Hloader)
    as (l1 & c & s1 & E & Hnimg1 & _ & Hstart1 & (Htick & Hc) & _).
  unfold aborted in Hc. rewrite Habort, orb_false_r in Hc.
  assert (Hcur : cur_nimg l1 = (Z.of_nat (S j) * batch_size cfg)%Z) by lia.
  rewrite Hcur, Hstart in Htick, Hc.
  assert (Hthis : within_tick cfg (budget_reached cfg (Z.of_nat (S j) * batch_size cfg))
                    (cur_tick l) (Z.of_nat (S j) * batch_size cfg) 0
                  = negb (Ticks.is_tick cfg total (S j))).
  { unfold within_tick, Ticks.is_tick. rewrite Qltb_plus_0 by exact 0.
    destruct (Nat.eq_dec (S j) total) as [Hlast|Hlast].
    - rewrite Hlast, Hdone, Nat.eqb_refl, orb_true_r. reflexivity.
    - rewrite Hbefore by lia. rewrite (proj2 (Nat.eqb_neq (S j) total) Hlast).
      destruct j as [|j].
      + rewrite Hzero by reflexivity. reflexivity.
      + assert (Hnz : (cur_tick l =? 0)%Z = false) by (apply Z.eqb_neq; specialize (Hpos ltac:(lia)); lia).
        rewrite Hnz. cbn [Nat.eqb negb andb orb].
        now rewrite negb_involutive. }
  rewrite Hthis in Htick, Hc.
  cbn [seq filter].
  destruct n as [|n].
  - assert (Hlast : total = S j) by lia. clear Htot. subst total.
    exists l1. split.
    + rewrite Htick.
      destruct (Ticks.is_tick cfg (S j) (S j)); cbn [negb List.length seq filter]; lia.
    + rewrite Hdone in Hc.
      assert (Hb : c = Break).
      { rewrite Hc. unfold Ticks.is_tick. now rewrite Nat.eqb_refl, orb_true_r. }
      intros [|fuel]; [reflexivity|].
      cbn [while_true]. erewrite bind_inr by exact E. cbn [snd fst]. now rewrite Hb.
  - rewrite (Hbefore (S j)) in Hc by lia.
    assert (Hcont : c = Continue)
      by (rewrite Hc; now destruct (Ticks.is_tick cfg total (S j))).
    assert (Hstart' : tick_start_nimg l1 = 0%Z) by congruence.
    assert (Hpos' : (1 <= cur_tick l1)%Z).
    { rewrite Htick.
      destruct (Ticks.is_tick cfg total (S j)) eqn:Et; cbn [negb].
      - destruct j; [rewrite Hzero by reflexivity; lia | specialize (Hpos ltac:(lia)); lia].
      - destruct j as [|j]; [unfold Ticks.is_tick in Et; cbn in Et; discriminate|].
        apply Hpos. lia. }
    destruct (IH (S j) l1 s1 ltac:(lia) ltac:(lia) Hcur Hstart'
                ltac:(discriminate) (fun _ => Hpos') Hdone Hbefore)
      as (l' & Ht' & Hrun).
    exists l'. split.
    + rewrite Ht', Htick.
      destruct (Ticks.is_tick cfg total (S j)); cbn [negb List.length]; lia.
    + intros [|fuel]; [reflexivity|].
      cbn [while_true]. erewrite bind_inr by exact E. cbn [snd fst].
      rewrite Hcont, Hrun. reflexivity.
Qed.

(** With a positive batch size, no abort callback, and a budget and a
    tick length whose products with 1000 Python computes exactly, the loop
    ends after [n] passes, the first at which the budget is reached, and
    the final [cur_tick] counts the passes that are the first, the last, or end with
    at least [kimg_per_tick * 1000] images consumed in total: the tick
    threshold is measured from the start of training, not from the
    previous tick. *)
Theorem tick_count_at_termination (cfg : kwargs) (s : machine) :
  exact_times_1000 (total_kimg cfg) = true ->
  exact_times_1000 (kimg_per_tick cfg) = true ->
  (0 < batch_size cfg)%Z ->
  (1 <= batch_gpu cfg)%Z ->
  (forall i, per_device_loader i <> []) ->
  abort_fn cfg = None ->
  exists (n : nat) (l' : locals),
    (1 <= n)%nat
    /\ budget_reached cfg (Z.of_nat n * batch_size cfg) = true
    /\ (forall k, (1 <= k < n)%nat ->
                  budget_reached cfg (Z.of_nat k * batch_size cfg) = false)
    /\ cur_nimg l' = (Z.of_nat n * batch_size cfg)%Z
    /\ fst (training_loop n cfg s) = inr (Some l')
    /\ (forall k, (k < n)%nat -> fst (training_loop k cfg s) = inr None)
    /\ cur_tick l'
       = Z.of_nat (List.length (filter (Ticks.is_tick cfg n) (seq 1 n))).
Proof.
  intros _ _ Hbs Hgpu Hloader Habort.
  destruct (budget_eventually cfg 0 Hbs (Z.le_refl 0)) as (K & HK & HPK).
  destruct (least_reached
              (fun k => budget_reached cfg (0 + Z.of_nat k * batch_size cfg)) K HK HPK)
    as (n & Hn & Pn & Hmin).
  destruct (setup_ok cfg s) as (it & s0 & E0).
  destruct (while_true_run cfg Hgpu Hloader Habort n
              (Locals 0 0 0 0 it None None) s0 (proj1 Hn) Pn Hmin)
    as (l2 & Hnimg & _ & _ & Hrun2).
  cbn [Z.add] in Pn, Hmin. cbn [cur_nimg Z.add] in Hnimg.
  destruct (while_true_ticks cfg n Hgpu Hloader Habort n 0
              (Locals 0 0 0 0 it None None) s0)
    as (l' & Ht & Hrun); try reflexivity; try lia; auto.
  assert (Hsame : l2 = l').
  { specialize (Hrun n). specialize (Hrun2 n). rewrite Hrun2, Nat.leb_refl in Hrun.
    now inversion Hrun. }
  subst l2.
  exists n, l'. split; [lia|]. split; [exact Pn|]. split; [exact Hmin|].
  split; [exact Hnimg|]. split; [|split].
  - unfold training_loop. erewrite bind_inr by exact E0.
    rewrite Hrun, Nat.leb_refl. reflexivity.
  - intros k Hk. unfold training_loop. erewrite bind_inr by exact E0.
    rewrite Hrun. now rewrite (proj2 (Nat.leb_gt n k) Hk).
  - exact Ht.
Qed.

End WithCollaborators.
End LoopExtras.

(* ------------------------------------------------------------------ *)
(** ** Facts about the snapshot image grid *)

Module GridFacts.
Import Torch Grid.
Local Open Scope list_scope.

Lemma clip_bounds (x lo hi : Z) : (lo <= hi)%Z -> (lo <= clip x lo hi <= hi)%Z.
Proof. unfold clip. lia. Qed.

Lemma key_eqb_eq (a b : list Z) : key_eqb a b = true <-> a = b.
Proof.
  revert b. induction a as [|x a IH]; intros [|y b]; cbn; try (split; congruence).
  rewrite andb_true_iff, Z.eqb_eq, IH. split; [intros [-> ->]|intros [= -> ->]]; auto.
Qed.

Lemma key_eqb_refl (a : list Z) : key_eqb a a = true.
Proof. now apply key_eqb_eq. Qed.

Lemma key_eqb_neq (a b : list Z) : key_eqb a b = false <-> a <> b.
Proof.
  rewrite <- key_eqb_eq. destruct (key_eqb a b); split; congruence.
Qed.

(** [cyclic_map] on a non-empty list reads it round and round. *)
Lemma cyclic_map_nonempty (l : list nat) (f : nat -> nat) (ixs : list nat) :
  l <> [] ->
  cyclic_map l f ixs = inr (map (fun i => nth (f i mod List.length l) l O) ixs).
Proof.
  intros Hl. induction ixs as [|i ixs IH]; [reflexivity|].
  cbn [cyclic_map map]. rewrite IH.
  destruct l; [congruence|]. reflexivity.
Qed.

Lemma cyclic_map_empty (f : nat -> nat) (i : nat) (ixs : list nat) :
  cyclic_map [] f (i :: ixs) = inl ZeroDivisionError.
Proof. reflexivity. Qed.

Lemma map_nth_seq (l : list nat) (m : nat) :
  (m <= List.length l)%nat ->
  map (fun i => nth (i mod List.length l) l O) (seq 0 m) = firstn m l.
Proof.
  intros Hm.
  apply nth_ext with (d := O) (d' := O).
  - rewrite length_map, length_seq, length_firstn. lia.
  - intros i Hi. rewrite length_map, length_seq in Hi.
    rewrite (nth_indep _ O (nth (O mod List.length l) l O))
      by (rewrite length_map, length_seq; lia).
    rewrite (map_nth (fun i => nth (i mod List.length l) l O)).
    rewrite seq_nth by lia. cbn [Nat.add].
    rewrite Nat.mod_small by lia.
    now rewrite nth_firstn, (proj2 (Nat.ltb_lt i m) Hi).
Qed.

(** *** The dictionary of label groups *)

Lemma lookup_update (g : groups) (k k' : list Z) (v : list nat) :
  lookup (update g k v) k'
  = match lookup g k' with
    | Some w => Some (if key_eqb k k' then v else w)
    | None => None
    end.
Proof.
  induction g as [|[k0 w] g IH]; [reflexivity|]. cbn [update lookup].
  destruct (key_eqb k0 k) eqn:E0; cbn [lookup].
  - apply key_eqb_eq in E0. subst k0. clear IH.
    destruct (key_eqb k k') eqn:E; [reflexivity|].
    destruct (lookup g k'); reflexivity.
  - destruct (key_eqb k0 k') eqn:E1; [|exact IH].
    apply key_eqb_eq in E1. subst k0.
    destruct (key_eqb k k') eqn:E; [|reflexivity].
    apply key_eqb_eq in E. subst k. rewrite key_eqb_refl in E0. discriminate.
Qed.

Lemma lookup_append_to (g : groups) (k k' : list Z) (i : nat) :
  lookup (append_to g k i) k'
  = if key_eqb k k'
    then Some (match lookup g k with Some v => v ++ [i] | None => [i] end)
    else lookup g k'.
Proof.
  induction g as [|[k0 w] g IH]; cbn [append_to lookup].
  - destruct (key_eqb k k'); reflexivity.
  - destruct (key_eqb k0 k) eqn:E0; cbn [lookup].
    + apply key_eqb_eq in E0. subst k0. destruct (key_eqb k k'); reflexivity.
    + rewrite IH. destruct (key_eqb k0 k') eqn:E1; [|reflexivity].
      apply key_eqb_eq in E1. subst k0.
      destruct (key_eqb k k') eqn:E; [|reflexivity].
      apply key_eqb_eq in E. subst k. rewrite key_eqb_refl in E0. discriminate.
Qed.

Lemma keys_update (g : groups) (k : list Z) (v : list nat) :
  map fst (update g k v) = map fst g.
Proof.
  induction g as [|[k0 w] g IH]; [reflexivity|]. cbn [update].
  destruct (key_eqb k0 k); cbn [map fst]; congruence.
Qed.

Lemma lookup_keys (g : groups) (k : list Z) :
  In k (map fst g) <-> lookup g k <> None.
Proof.
  induction g as [|[k0 w] g IH]; cbn [map fst In lookup]; [tauto|].
  destruct (key_eqb k0 k) eqn:E.
  - apply key_eqb_eq in E. split; [discriminate | auto].
  - apply key_eqb_neq in E. rewrite IH. tauto.
Qed.

(** Appending the indices of [l] one by one adds, to the group of each
    label, the indices of [l] with that label, in order. *)
Lemma lookup_fold_append (ds : dataset) (l : list nat) (g : groups) (k : list Z) :
  lookup (fold_left (fun g idx => append_to g (label_key ds idx) idx) l g) k
  = match lookup g k, filter (fun i => key_eqb (label_key ds i) k) l with
    | None, [] => None
    | None, f => Some f
    | Some v, f => Some (v ++ f)
    end.
Proof.
  revert g. induction l as [|i l IH]; intros g; cbn [fold_left filter].
  - destruct (lookup g k); [now rewrite app_nil_r | reflexivity].
  - rewrite IH, lookup_append_to.
    destruct (key_eqb (label_key ds i) k) eqn:E.
    + apply key_eqb_eq in E. rewrite E.
      destruct (lookup g k); [now rewrite <- app_assoc | reflexivity].
    + destruct (lookup g k); reflexivity.
Qed.

Lemma keys_append_to (g : groups) (k : list Z) (i : nat) :
  NoDup (map fst g) -> NoDup (map fst (append_to g k i)).
Proof.
  induction g as [|[k0 w] g IH]; cbn [append_to map fst]; intros Hnd.
  - constructor; [intros []|constructor].
  - destruct (key_eqb k0 k) eqn:E; cbn [map fst]; [exact Hnd|].
    inversion Hnd as [|? ? Hnot Hnd']; subst. constructor; [|auto].
    rewrite lookup_keys, lookup_append_to. rewrite lookup_keys in Hnot.
    destruct (key_eqb k k0) eqn:E'; [|exact Hnot].
    apply key_eqb_eq in E'. subst. rewrite key_eqb_refl in E. discriminate.
Qed.

Lemma keys_group_by_label (ds : dataset) : NoDup (map fst (group_by_label ds)).
Proof.
  unfold group_by_label.
  assert (G : forall l g, NoDup (map fst g) ->
            NoDup (map fst (fold_left (fun g idx => append_to g (label_key ds idx) idx) l g))).
  { induction l as [|i l IH]; intros g Hg; [exact Hg|].
    cbn [fold_left]. apply IH, keys_append_to, Hg. }
  apply G. constructor.
Qed.

(** *** Sorting the labels *)

Lemma key_leb_total (a b : list Z) : key_leb a b = false -> key_leb b a = true.
Proof.
  revert b. induction a as [|x a IH]; intros [|y b]; cbn; try congruence.
  rewrite orb_false_iff, andb_false_iff. intros [Hlt Heq].
  apply Z.ltb_ge in Hlt.
  destruct (Z.ltb_spec y x); [reflexivity|]. cbn.
  assert (x = y) by lia. subst y. rewrite Z.eqb_refl in *. cbn.
  destruct Heq as [Heq|Heq]; [discriminate|]. now apply IH.
Qed.

Lemma insert_key_in (k x : list Z) (l : list (list Z)) :
  In x (insert_key k l) <-> x = k \/ In x l.
Proof.
  induction l as [|y l IH]; cbn [insert_key In]; [intuition|].
  destruct (key_leb k y); cbn [In]; rewrite ?IH; intuition.
Qed.

Lemma insert_key_sorted (k : list Z) (l : list (list Z)) :
  Sorted (fun a b => key_leb a b = true) l ->
  Sorted (fun a b => key_leb a b = true) (insert_key k l).
Proof.
  induction l as [|y l IH]; cbn [insert_key]; intros Hs.
  - repeat constructor.
  - destruct (key_leb k y) eqn:E.
    + constructor; [exact Hs|]. constructor. exact E.
    + inversion Hs as [|? ? Hs' Hhd]; subst. constructor; [auto|].
      destruct l as [|z l]; cbn [insert_key].
      * constructor. now apply key_leb_total.
      * destruct (key_leb k z); constructor.
        -- now apply key_leb_total.
        -- now inversion Hhd.
Qed.

Lemma insert_key_nodup (k : list Z) (l : list (list Z)) :
  ~ In k l -> NoDup l -> NoDup (insert_key k l).
Proof.
  induction l as [|y l IH]; cbn [insert_key]; intros Hk Hnd.
  - constructor; [intros []|constructor].
  - destruct (key_leb k y); [now constructor|].
    inversion Hnd as [|? ? Hy Hnd']; subst. constructor.
    + rewrite insert_key_in. cbn [In] in Hk. intuition congruence.
    + apply IH; [cbn [In] in Hk; tauto | exact Hnd'].
Qed.

Lemma sorted_keys_in (g : groups) (k : list Z) :
  In k (sorted_keys g) <-> In k (map fst g).
Proof.
  unfold sorted_keys. induction (map fst g) as [|x l IH]; cbn [fold_right In]; [tauto|].
  rewrite insert_key_in, IH. intuition.
Qed.


Lemma lookup_group_by_label (ds : dataset) (k : list Z) :
  lookup (group_by_label ds) k
  = match filter (fun i => key_eqb (label_key ds i) k) (seq 0 (ds_len ds)) with
    | [] => None
    | indices => Some indices
    end.
Proof.
  unfold group_by_label. rewrite lookup_fold_append. cbn [lookup].
  destruct (filter _ _); reflexivity.
Qed.

Lemma well_grouped_group_by (ds : dataset) : well_grouped ds (group_by_label ds).
Proof.
  intros k v Hk. rewrite lookup_group_by_label in Hk.
  destruct (filter _ _) as [|i f] eqn:E; [discriminate|]. inversion Hk; subst v.
  split; [discriminate|]. rewrite <- E. apply Forall_forall. intros x Hx.
  apply filter_In in Hx as [Hin Hkey]. apply in_seq in Hin. apply key_eqb_eq in Hkey.
  split; [lia | exact Hkey].
Qed.

Lemma well_grouped_update (ds : dataset) (g : groups) (k : list Z) (v : list nat) :
  well_grouped ds g ->
  v <> [] ->
  Forall (fun i => (i < ds_len ds)%nat /\ label_key ds i = k) v ->
  well_grouped ds (update g k v).
Proof.
  intros Hg Hne Hv k' x Hx. rewrite lookup_update in Hx.
  destruct (lookup g k') as [w|] eqn:Ew; [|discriminate].
  destruct (key_eqb k k') eqn:E; inversion Hx; subst x.
  - apply key_eqb_eq in E. subst k'. auto.
  - exact (Hg k' w Ew).
Qed.

Lemma sorted_keys_spec (ds : dataset) :
  let order := sorted_keys (group_by_label ds) in
  Sorted (fun a b => key_leb a b = true) order
  /\ NoDup order
  /\ forall k, In k order <-> exists i, (i < ds_len ds)%nat /\ label_key ds i = k.
Proof.
  cbv zeta. split; [|split].
  - unfold sorted_keys. induction (map fst (group_by_label ds)) as [|x l IH].
    + constructor.
    + cbn [fold_right]. now apply insert_key_sorted.
  - pose proof (keys_group_by_label ds) as Hnd. unfold sorted_keys.
    induction (map fst (group_by_label ds)) as [|x l IH]; [constructor|].
    inversion Hnd as [|? ? Hx Hnd']; subst. cbn [fold_right].
    apply insert_key_nodup; [|auto].
    fold (fold_right insert_key [] l).
    assert (Hsame : forall y, In y (fold_right insert_key [] l) <-> In y l).
    { clear. induction l as [|z l IH]; intros y; cbn [fold_right In]; [tauto|].
      rewrite insert_key_in, IH. intuition. }
    now rewrite Hsame.
  - intros k. rewrite sorted_keys_in, lookup_keys, lookup_group_by_label.
    split.
    + destruct (filter _ _) as [|i f] eqn:E; [congruence|]. intros _.
      assert (Hi : In i (i :: f)) by now left. rewrite <- E in Hi.
      apply filter_In in Hi as [Hin Hkey]. apply in_seq in Hin.
      apply key_eqb_eq in Hkey. exists i. split; [lia|exact Hkey].
    + intros (i & Hi & Hkey).
      assert (Hin : In i (filter (fun i => key_eqb (label_key ds i) k) (seq 0 (ds_len ds)))).
      { apply filter_In. split; [apply in_seq; lia | now apply key_eqb_eq]. }
      destruct (filter _ _); [destruct Hin | discriminate].
Qed.

(** Each group lists, in increasing order, exactly the indices of the
    samples whose label is the group's key; a label no sample has is not a
    key. *)
Theorem group_by_label_collects (ds : dataset) (k : list Z) :
  lookup (group_by_label ds) k
  = match filter (fun i => key_eqb (label_key ds i) k) (seq 0 (ds_len ds)) with
    | [] => None
    | indices => Some indices
    end.
Proof. exact (lookup_group_by_label ds k). Qed.

(** The label order is sorted, has no duplicate, and holds exactly the
    labels that occur in the data set. *)
Theorem label_order_sorted (ds : dataset) :
  let order := sorted_keys (group_by_label ds) in
  Sorted (fun a b => key_leb a b = true) order
  /\ NoDup order
  /\ forall k, In k order <-> exists i, (i < ds_len ds)%nat /\ label_key ds i = k.
Proof. exact (sorted_keys_spec ds). Qed.


Section WithShuffle.
Variable shuffle : nat -> list nat -> list nat.
Hypothesis shuffle_permutes : forall k l, Permutation (shuffle k l) l.

Lemma grid_cells_positive (w h : Z) :
  (28 <= Z.to_nat (clip w 7 32 * clip h 4 32))%nat.
Proof.
  pose proof (clip_bounds w 7 32 ltac:(lia)). pose proof (clip_bounds h 4 32 ltac:(lia)).
  nia.
Qed.

(** A data set without labels.  The grid has [gw] columns and [gh] rows
    with [7 <= gw <= 32] and [4 <= gh <= 32], and one valid sample index per
    cell; when the data set has at least [gw * gh] samples no sample is
    shown twice, and when it has at most that many every sample is shown. *)
Theorem unlabelled_grid (ds : dataset) :
  ds_width ds <> 0%Z -> ds_height ds <> 0%Z ->
  has_labels ds = false ->
  (0 < ds_len ds)%nat ->
  exists gw gh grid,
    grid_indices shuffle ds = inr (gw, gh, grid)
    /\ gw = clip (7680 / ds_width ds) 7 32
    /\ gh = clip (4320 / ds_height ds) 4 32
    /\ (7 <= gw <= 32)%Z /\ (4 <= gh <= 32)%Z
    /\ List.length grid = Z.to_nat (gw * gh)
    /\ Forall (fun i => (i < ds_len ds)%nat) grid
    /\ ((Z.to_nat (gw * gh) <= ds_len ds)%nat -> NoDup grid)
    /\ ((ds_len ds <= Z.to_nat (gw * gh))%nat ->
        forall i, (i < ds_len ds)%nat -> In i grid).
Proof.
  intros Hw Hh Hlab Hlen.
  unfold grid_indices, floordiv.
  rewrite (proj2 (Z.eqb_neq _ _) Hw), (proj2 (Z.eqb_neq _ _) Hh), Hlab. cbn [negb].
  set (gw := clip (7680 / ds_width ds) 7 32).
  set (gh := clip (4320 / ds_height ds) 4 32).
  set (all := shuffle 0 (seq 0 (ds_len ds))).
  pose proof (shuffle_permutes 0 (seq 0 (ds_len ds))) as Hperm. fold all in Hperm.
  assert (Hall : List.length all = ds_len ds)
    by (rewrite (Permutation_length Hperm); apply length_seq).
  assert (Hne : all <> []) by (intros E; rewrite E in Hall; simpl in Hall; lia).
  assert (Hin : forall i, In i all <-> (i < ds_len ds)%nat).
  { intros i. split; intros Hi.
    - apply (Permutation_in _ Hperm), in_seq in Hi. lia.
    - apply (Permutation_in _ (Permutation_sym Hperm)), in_seq. lia. }
  rewrite (cyclic_map_nonempty _ _ _ Hne).
  eexists gw, gh, _. split; [reflexivity|].
  split; [reflexivity|]. split; [reflexivity|].
  split; [apply clip_bounds; lia|]. split; [apply clip_bounds; lia|].
  split; [now rewrite length_map, length_seq|].
  split; [|split].
  - apply Forall_forall. intros x Hx. apply in_map_iff in Hx as (i & <- & _).
    apply Hin, nth_In. rewrite Hall. apply Nat.mod_upper_bound. lia.
  - intros Hm. rewrite map_nth_seq by lia.
    assert (Hnd : NoDup all).
    { apply (Permutation_NoDup (Permutation_sym Hperm)), seq_NoDup. }
    rewrite <- (firstn_skipn (Z.to_nat (gw * gh)) all) in Hnd.
    now apply NoDup_app_remove_r in Hnd.
  - intros Hm i Hi. apply Hin in Hi.
    destruct (In_nth _ _ O Hi) as (p & Hp & Hnth).
    apply in_map_iff. exists p. split.
    + rewrite Nat.mod_small by exact Hp. exact Hnth.
    + apply in_seq. lia.
Qed.


Lemma shuffle_groups_ok (ds : dataset) (order : list (list Z)) :
  forall (k : nat) (g : groups),
    well_grouped ds g ->
    (forall label, In label order -> In label (map fst g)) ->
    exists g',
      shuffle_groups shuffle k order g = inr g'
      /\ well_grouped ds g'
      /\ map fst g' = map fst g.
Proof.
  induction order as [|label order IH]; intros k g Hg Hkeys.
  - exists g. auto.
  - cbn [shuffle_groups].
    destruct (lookup g label) as [v|] eqn:Ev.
    2:{ exfalso. apply (proj1 (lookup_keys g label)); [apply Hkeys; now left | exact Ev]. }
    destruct (Hg label v Ev) as [Hne Hv].
    pose proof (shuffle_permutes k v) as Hperm.
    destruct (IH (S k) (update g label (shuffle k v))) as (g' & E & Hg' & Hk').
    + apply well_grouped_update; [exact Hg| |].
      * intros E. rewrite E in Hperm. apply Permutation_nil in Hperm. contradiction.
      * apply (Permutation_Forall (Permutation_sym Hperm)), Hv.
    + intros l Hl. rewrite keys_update. apply Hkeys. now right.
    + exists g'. rewrite keys_update in Hk'. auto.
Qed.

Lemma organize_ok (ds : dataset) (gw : nat) (order : list (list Z)) :
  order <> [] ->
  forall (ys : list nat) (g : groups),
    well_grouped ds g ->
    (forall label, In label order -> In label (map fst g)) ->
    exists rows,
      organize gw order ys g = inr (List.concat rows)
      /\ Forall2 (shows_label ds order gw) ys rows.
Proof.
  intros Hord. induction ys as [|y ys IH]; intros g Hg Hkeys.
  - exists []. split; [reflexivity|constructor].
  - cbn [organize]. destruct order as [|l0 order'] eqn:Eo; [congruence|].
    rewrite <- Eo in *. set (label := nth (y mod List.length order) order []).
    assert (Hlab : In label order).
    { apply nth_In, Nat.mod_upper_bound. rewrite Eo. discriminate. }
    destruct (lookup g label) as [indices|] eqn:Ev.
    2:{ exfalso. apply (proj1 (lookup_keys g label)); [now apply Hkeys | exact Ev]. }
    destruct (Hg label indices Ev) as [Hne Hv].
    rewrite !(cyclic_map_nonempty _ _ _ Hne).
    assert (Hnth : forall j, (fun i => (i < ds_len ds)%nat /\ label_key ds i = label)
                               (nth (j mod List.length indices) indices O)).
    { intros j. apply (proj1 (Forall_forall _ _) Hv), nth_In, Nat.mod_upper_bound.
      destruct indices; [congruence|discriminate]. }
    destruct (IH (update g label
                    (map (fun i => nth ((i + gw) mod List.length indices) indices O)
                         (seq 0 (List.length indices))))) as (rows & E & Hrows).
    + apply well_grouped_update; [exact Hg| |].
      * destruct indices; [congruence|discriminate].
      * apply Forall_forall. intros x Hx. apply in_map_iff in Hx as (j & <- & _).
        apply Hnth.
    + intros l Hl. rewrite keys_update. now apply Hkeys.
    + rewrite E.
      exists (map (fun i => nth (i mod List.length indices) indices O) (seq 0 gw) :: rows).
      split; [reflexivity|]. constructor; [|exact Hrows].
      split; [now rewrite length_map, length_seq|].
      apply Forall_forall. intros x Hx. apply in_map_iff in Hx as (j & <- & _).
      apply Hnth.
Qed.

(** A data set with labels.  The grid has [gh] rows of [gw] cells; row [y]
    shows valid samples that all carry the label that comes [y]-th,
    cyclically, in the sorted order of the labels. *)
Theorem labelled_grid (ds : dataset) :
  ds_width ds <> 0%Z -> ds_height ds <> 0%Z ->
  has_labels ds = true ->
  (0 < ds_len ds)%nat ->
  let order := sorted_keys (group_by_label ds) in
  exists gw gh rows,
    grid_indices shuffle ds = inr (gw, gh, List.concat rows)
    /\ gw = clip (7680 / ds_width ds) 7 32
    /\ gh = clip (4320 / ds_height ds) 4 32
    /\ order <> []
    /\ Forall2 (shows_label ds order (Z.to_nat gw)) (seq 0 (Z.to_nat gh)) rows.
Proof.
  intros Hw Hh Hlab Hlen order.
  unfold grid_indices, floordiv.
  rewrite (proj2 (Z.eqb_neq _ _) Hw), (proj2 (Z.eqb_neq _ _) Hh), Hlab. cbn [negb].
  fold order.
  assert (Hord : order <> []).
  { destruct (proj2 (proj2 (sorted_keys_spec ds))) with (k := label_key ds 0) as [_ Hin].
    intros E. unfold order in E. rewrite E in Hin. apply Hin.
    exists O. auto. }
  destruct (shuffle_groups_ok ds order 0 (group_by_label ds) (well_grouped_group_by ds))
    as (g' & E & Hg' & Hk').
  { intros l Hl. now apply sorted_keys_in. }
  rewrite E.
  destruct (organize_ok ds (Z.to_nat (clip (7680 / ds_width ds) 7 32)) order Hord
              (seq 0 (Z.to_nat (clip (4320 / ds_height ds) 4 32))) g' Hg')
    as (rows & E' & Hrows).
  { intros l Hl. rewrite Hk'. now apply sorted_keys_in. }
  rewrite E'. eexists _, _, rows. repeat split; auto.
Qed.


(** *** Successive rows of one label *)

Lemma rotate_length (c : nat) (l : list nat) : List.length (rotate c l) = List.length l.
Proof. unfold rotate. now rewrite length_map, length_seq. Qed.

Lemma rotate_nth (c j : nat) (l : list nat) :
  (j < List.length l)%nat ->
  nth j (rotate c l) O = nth ((j + c) mod List.length l) l O.
Proof.
  intros Hj. unfold rotate.
  rewrite (nth_indep _ O (nth ((O + c) mod List.length l) l O))
    by (rewrite length_map, length_seq; exact Hj).
  rewrite (map_nth (fun i => nth ((i + c) mod List.length l) l O)).
  now rewrite seq_nth.
Qed.

Lemma rotate_0 (l : list nat) : rotate 0 l = l.
Proof.
  unfold rotate.
  rewrite (map_ext _ (fun i => nth (i mod List.length l) l O))
    by (intros i; now rewrite Nat.add_0_r).
  rewrite map_nth_seq by lia. apply firstn_all.
Qed.

(** Reading a rotated list cyclically is reading the list from further on. *)
Lemma read_rotated (c : nat) (l : list nat) (f : nat -> nat) (ixs : list nat) :
  l <> [] ->
  map (fun i => nth (f i mod List.length (rotate c l)) (rotate c l) O) ixs
  = map (fun i => nth ((f i + c) mod List.length l) l O) ixs.
Proof.
  intros Hl. assert (HL : List.length l <> O) by (destruct l; [congruence|discriminate]).
  apply map_ext. intros i. rewrite rotate_length.
  rewrite rotate_nth by (now apply Nat.mod_upper_bound).
  now rewrite Nat.Div0.add_mod_idemp_l.
Qed.

Lemma rows_above_step (n p y : nat) :
  rows_above n p (S y) = (rows_above n p y + if (y mod n =? p)%nat then 1 else 0)%nat.
Proof.
  unfold rows_above. rewrite seq_S, filter_app, length_app. cbn [Nat.add filter].
  destruct (y mod n =? p)%nat; reflexivity.
Qed.

Lemma organize_cons (gw : nat) (order : list (list Z)) (y : nat) (ys : list nat)
    (g : groups) :
  order <> [] ->
  organize gw order (y :: ys) g
  = let label := nth (y mod List.length order) order [] in
    match lookup g label with
    | None => inl (KeyError label)
    | Some indices =>
        match cyclic_map indices (fun x => x) (seq 0 gw) with
        | inl e => inl e
        | inr row =>
            match cyclic_map indices (fun i => (i + gw)%nat)
                    (seq 0 (List.length indices)) with
            | inl e => inl e
            | inr rotated =>
                match organize gw order ys (update g label rotated) with
                | inl e => inl e
                | inr rest => inr (row ++ rest)
                end
            end
        end
    end.
Proof. destruct order; [congruence|reflexivity]. Qed.

Lemma organize_rotating (gw : nat) (order : list (list Z)) (groups_of : nat -> list nat) :
  order <> [] -> NoDup order ->
  (forall p, (p < List.length order)%nat -> groups_of p <> []) ->
  forall (m y0 : nat) (g : groups),
    (forall p, (p < List.length order)%nat ->
               lookup g (nth p order [])
               = Some (rotate (rows_above (List.length order) p y0 * gw) (groups_of p))) ->
    exists rows,
      organize gw order (seq y0 m) g = inr (List.concat rows)
      /\ Forall2 (fun y row =>
                    let p := (y mod List.length order)%nat in
                    row = map (fun x =>
                                 nth ((x + rows_above (List.length order) p y * gw)
                                        mod List.length (groups_of p))
                                     (groups_of p) O)
                              (seq 0 gw))
                 (seq y0 m) rows.
Proof.
  intros Hord Hnd Hne. set (n := List.length order).
  assert (Hn : n <> O) by (unfold n; destruct order; [congruence|discriminate]).
  induction m as [|m IH]; intros y0 g Hg.
  - exists []. split; [reflexivity|constructor].
  - cbn [seq]. rewrite organize_cons by exact Hord. cbv zeta. fold n.
    assert (Hp : (y0 mod n < n)%nat) by now apply Nat.mod_upper_bound.
    rewrite (Hg _ Hp).
    set (c := (rows_above n (y0 mod n) y0 * gw)%nat).
    set (grp := groups_of (y0 mod n)).
    assert (Hrot : rotate c grp <> []).
    { intros E. apply (f_equal (@List.length nat)) in E. rewrite rotate_length in E.
      specialize (Hne _ Hp). fold grp in Hne. destruct grp; [congruence|discriminate]. }
    rewrite !(cyclic_map_nonempty _ _ _ Hrot).
    rewrite !(read_rotated c grp) by (apply Hne, Hp).
    rewrite rotate_length.
    destruct (IH (S y0)
                (update g (nth (y0 mod n) order [])
                   (map (fun i => nth ((i + gw + c) mod List.length grp) grp O)
                        (seq 0 (List.length grp))))) as (rows & E & Hrows).
    + intros p Hlt. rewrite lookup_update, (Hg _ Hlt), rows_above_step.
      destruct (Nat.eq_dec (y0 mod n) p) as [<-|Hneq].
      * rewrite key_eqb_refl, Nat.eqb_refl. f_equal. unfold rotate. fold grp.
        apply map_ext. intros i. f_equal. f_equal. unfold c. lia.
      * rewrite (proj2 (Nat.eqb_neq _ _) Hneq), Nat.add_0_r.
        destruct (key_eqb _ _) eqn:Ek; [|reflexivity].
        apply key_eqb_eq in Ek. exfalso. apply Hneq.
        apply (proj1 (NoDup_nth order []) Hnd); assumption.
    + rewrite E. eexists (_ :: rows). split; [reflexivity|].
      constructor; [|exact Hrows]. reflexivity.
Qed.

(** Successive rows of one label go on through its shuffled group: a row
    reads the group cyclically, starting [gw] cells further on for every
    row above it that shows the same label. *)
Theorem rows_continue_through_group (ds : dataset) :
  ds_width ds <> 0%Z -> ds_height ds <> 0%Z ->
  has_labels ds = true ->
  (0 < ds_len ds)%nat ->
  let order := sorted_keys (group_by_label ds) in
  let n := List.length order in
  exists gw gh shuffled rows,
    shuffle_groups shuffle 0 order (group_by_label ds) = inr shuffled
    /\ grid_indices shuffle ds = inr (gw, gh, List.concat rows)
    /\ Forall2 (fun y row =>
                  exists group,
                    lookup shuffled (nth (y mod n) order []) = Some group
                    /\ row = map (fun x =>
                                    nth ((x + rows_above n (y mod n) y * Z.to_nat gw)
                                           mod List.length group) group O)
                                 (seq 0 (Z.to_nat gw)))
               (seq 0 (Z.to_nat gh)) rows.
Proof.
  intros Hw Hh Hlab Hlen order n.
  destruct (sorted_keys_spec ds) as (_ & Hnd & Hin). fold order in Hnd, Hin.
  assert (Hord : order <> []).
  { intros E. destruct (Hin (label_key ds 0)) as [_ Hex].
    rewrite E in Hex. apply Hex. exists O. auto. }
  destruct (shuffle_groups_ok ds order 0 (group_by_label ds) (well_grouped_group_by ds))
    as (g' & E & Hg' & Hk').
  { intros l Hl. now apply sorted_keys_in. }
  assert (Hhas : forall p, (p < n)%nat ->
             exists v, lookup g' (nth p order []) = Some v /\ v <> []).
  { intros p Hp. destruct (lookup g' (nth p order [])) as [v|] eqn:Ev.
    - exists v. split; [reflexivity|]. exact (proj1 (Hg' _ _ Ev)).
    - exfalso. apply (proj1 (lookup_keys g' _)) in Ev; [exact Ev|].
      rewrite Hk'. apply sorted_keys_in, nth_In, Hp. }
  set (groups_of := fun p => match lookup g' (nth p order []) with
                             | Some v => v
                             | None => []
                             end).
  destruct (organize_rotating (Z.to_nat (clip (7680 / ds_width ds) 7 32)) order groups_of
              Hord Hnd) with (m := Z.to_nat (clip (4320 / ds_height ds) 4 32))
                             (y0 := O) (g := g') as (rows & E' & Hrows).
  { intros p Hp. unfold groups_of. destruct (Hhas p Hp) as (v & -> & Hv). exact Hv. }
  { intros p Hp. unfold groups_of. destruct (Hhas p Hp) as (v & -> & Hv).
    cbn [rows_above seq filter List.length Nat.mul]. now rewrite rotate_0. }
  eexists _, _, g', rows. split; [exact E|]. split.
  - unfold grid_indices, floordiv.
    rewrite (proj2 (Z.eqb_neq _ _) Hw), (proj2 (Z.eqb_neq _ _) Hh), Hlab. cbn [negb].
    fold order. rewrite E, E'. reflexivity.
  - eapply Forall2_impl; [|exact Hrows]. cbv beta zeta. intros y row ->.
    fold n. unfold groups_of.
    assert (Hp : (y mod n < n)%nat).
    { apply Nat.mod_upper_bound. unfold n. destruct order; [congruence|discriminate]. }
    destruct (Hhas _ Hp) as (v & Ev & _). rewrite Ev. exists v. split; reflexivity.
Qed.

(** [setup_snapshot_image_grid] fails with [ZeroDivisionError] when the
    image width is 0, when the height is 0, and when the data set is
    empty, with or without labels. *)
Theorem degenerate_dataset_divides_by_zero (ds : dataset) :
  ds_width ds = 0%Z \/ ds_height ds = 0%Z \/ ds_len ds = O ->
  setup_snapshot_image_grid shuffle ds = inl ZeroDivisionError.
Proof.
  intros Hdeg. unfold setup_snapshot_image_grid.
  assert (Hg : grid_indices shuffle ds = inl ZeroDivisionError); [|now rewrite Hg].
  unfold grid_indices, floordiv.
  destruct (ds_width ds =? 0)%Z eqn:Ew; [reflexivity|].
  destruct (ds_height ds =? 0)%Z eqn:Eh; [reflexivity|].
  apply Z.eqb_neq in Ew, Eh.
  destruct Hdeg as [?|[?|Hlen]]; try contradiction.
  rewrite Hlen.
  pose proof (grid_cells_positive (7680 / ds_width ds) (4320 / ds_height ds)) as Hcells.
  pose proof (clip_bounds (4320 / ds_height ds) 4 32 ltac:(lia)) as Hgh.
  destruct (has_labels ds); cbn [negb].
  - unfold group_by_label. rewrite Hlen. cbn.
    destruct (Z.to_nat (clip (4320 / ds_height ds) 4 32)) as [|n] eqn:E; [lia|].
    reflexivity.
  - cbn [seq]. rewrite (Permutation_nil (Permutation_sym (shuffle_permutes 0 []))).
    destruct (Z.to_nat _) as [|n] eqn:E; [lia|]. reflexivity.
Qed.

End WithShuffle.
End GridFacts.

(* ------------------------------------------------------------------ *)
(** ** Facts about saving an image grid *)

Module ImageFacts.
Import Grid ImageGrid.
Local Open Scope list_scope.

(** *** Multi-indices *)

Lemma ravel_within (sh idx : list nat) :
  within sh idx -> (ravel sh idx < size sh)%nat.
Proof.
  unfold within. intros Hin. induction Hin as [|i n idx sh Hi _ IH]; cbn [ravel size fold_right].
  - lia.
  - fold (size sh). nia.
Qed.

Lemma unravel_ravel (sh idx : list nat) :
  within sh idx -> unravel sh (ravel sh idx) = idx.
Proof.
  unfold within. intros Hin. induction Hin as [|i n idx sh Hi Hin IH]; [reflexivity|].
  cbn [ravel unravel]. pose proof (ravel_within sh idx Hin) as Hlt.
  assert (Hs : size sh <> O) by lia.
  f_equal.
  - rewrite Nat.div_add_l by exact Hs. rewrite Nat.div_small by exact Hlt. lia.
  - rewrite Nat.add_comm, Nat.Div0.mod_add, Nat.mod_small by exact Hlt. exact IH.
Qed.

Lemma nth_map_seq {A} (F : nat -> A) (n f : nat) (d : A) :
  (f < n)%nat -> nth f (map F (seq 0 n)) d = F f.
Proof.
  intros Hf. rewrite (nth_indep _ d (F O)) by (now rewrite length_map, length_seq).
  rewrite (map_nth F). now rewrite seq_nth.
Qed.

(** An element of a transposed array is the element of the array at the
    permuted multi-index. *)
Lemma get_transpose {A} (a : ndarray A) (axes idx : list nat) (d : A) :
  within (map (fun ax => nth ax (shape a) O) axes) idx ->
  get (transpose a axes d) idx d
  = get a (map (fun j => nth (position j axes) idx O) (seq 0 (List.length axes))) d.
Proof.
  intros Hin. unfold get at 1, transpose. cbn [shape flat].
  rewrite nth_map_seq by (now apply ravel_within).
  now rewrite unravel_ravel.
Qed.

(** *** Pixels *)

Lemma clip_range (x : Z) : (0 <= clip x 0 255 <= 255)%Z.
Proof. unfold clip. lia. Qed.

(** *** The tiled image *)

Section WithNumpy.
Context {numpy : Numpy}.

(** A grid of [gw * gh] images of [C] channels (1 or 3) and of at least
    one pixel each way is handed to PIL as one image of [gh * H] rows and
    [gw * W] columns: pixel [(h, w)] of image number [gy * gw + gx] lands
    at row [gy * H + h] and column [gx * W + w], channels last, with the
    value that lines 80-81 give to that pixel, and every value is in
    [0, 255].  A single channel is handed over as mode ['L'] without the
    channel axis. *)
Theorem save_image_grid_layout (img : ndarray Q) (lo hi : Q) (gw gh C H W : nat) :
  ~ hi == lo ->
  shape img = [gh * gw; C; H; W]%nat ->
  List.length (flat img) = size (shape img) ->
  C = 1%nat \/ C = 3%nat ->
  (0 < gw)%nat -> (0 < gh)%nat -> (0 < H)%nat -> (0 < W)%nat ->
  exists pixels,
    save_image_grid img (lo, hi) (gw, gh)
    = inr (if (C =? 1)%nat then L (first_channel pixels) else RGB pixels)
    /\ shape pixels = [gh * H; gw * W; C]%nat
    /\ Forall (fun v => (0 <= v <= 255)%Z) (flat pixels)
    /\ (forall gy gx h w c,
          (gy < gh)%nat -> (gx < gw)%nat -> (h < H)%nat -> (w < W)%nat -> (c < C)%nat ->
          get pixels [gy * H + h; gx * W + w; c]%nat 0%Z
          = to_uint8 lo hi (get img [gy * gw + gx; c; h; w]%nat 0))
    /\ (C = 1%nat ->
        shape (first_channel pixels) = [gh * H; gw * W]%nat
        /\ forall y x, (y < gh * H)%nat -> (x < gw * W)%nat ->
             get (first_channel pixels) [y; x] 0%Z = get pixels [y; x; 0%nat] 0%Z).
Proof.
  intros Hne Hshape Hlen HC _ _ _ _.
  assert (Hq : Qeq_bool (hi - lo) 0 = false).
  { apply not_true_iff_false. intros E. apply Qeq_bool_iff in E. apply Hne.
    rewrite <- (Qplus_0_l lo), <- E. ring. }
  unfold save_image_grid. rewrite Hq. cbn [shape]. rewrite Hshape.
  set (bytes := map (to_uint8 lo hi) (flat img)).
  assert (Hbytes : List.length bytes = (gh * gw * (C * (H * (W * 1))))%nat).
  { unfold bytes. rewrite length_map, Hlen, Hshape. cbn [size fold_right]. lia. }
  assert (R1 : reshape (NdArray [(gh * gw)%nat; C; H; W] bytes) [gh; gw; C; H; W]
               = inr (NdArray [gh; gw; C; H; W] bytes)).
  { unfold reshape. cbn [flat].
    assert (Hs1 : (size [gh; gw; C; H; W] =? List.length bytes)%nat = true).
    { apply Nat.eqb_eq. rewrite Hbytes. cbn [size fold_right]. lia. }
    now rewrite Hs1. }
  rewrite R1.
  set (tiles := NdArray [gh; gw; C; H; W] bytes).
  set (moved := transpose tiles [0; 3; 1; 4; 2]%nat 0%Z).
  assert (Hmshape : shape moved = [gh; H; gw; W; C]) by reflexivity.
  assert (Hmlen : List.length (flat moved) = size [gh; H; gw; W; C]).
  { unfold moved, transpose. cbn [flat]. now rewrite length_map, length_seq. }
  assert (R2 : reshape moved [gh * H; gw * W; C]%nat
               = inr (NdArray [(gh * H)%nat; (gw * W)%nat; C] (flat moved))).
  { unfold reshape. rewrite Hmlen.
    assert (Hs2 : (size [gh * H; gw * W; C] =? size [gh; H; gw; W; C])%nat = true).
    { apply Nat.eqb_eq. cbn [size fold_right]. lia. }
    now rewrite Hs2. }
  rewrite R2.
  set (pixels := NdArray [(gh * H)%nat; (gw * W)%nat; C] (flat moved)).
  assert (Hassert : negb ((C =? 1) || (C =? 3))%nat = false)
    by (destruct HC as [-> | ->]; reflexivity).
  rewrite Hassert.
  exists pixels. split; [destruct (C =? 1)%nat; reflexivity|].
  split; [reflexivity|].
  assert (Hcell : forall gy gx h w c,
            (gy < gh)%nat -> (gx < gw)%nat -> (h < H)%nat -> (w < W)%nat -> (c < C)%nat ->
            get pixels [gy * H + h; gx * W + w; c]%nat 0%Z
            = to_uint8 lo hi (get img [gy * gw + gx; c; h; w]%nat 0)).
  { intros gy gx h w c Hgy Hgx Hh Hw Hc.
    assert (Hin : within (shape moved) [gy; h; gx; w; c]).
    { rewrite Hmshape. unfold within. repeat constructor; assumption. }
    transitivity (get moved [gy; h; gx; w; c] 0%Z).
    { unfold get. cbn [shape flat pixels]. rewrite Hmshape. f_equal.
      cbn [ravel size fold_right]. lia. }
    unfold moved. rewrite get_transpose by exact Hin.
    cbn [List.length seq map position Nat.eqb nth].
    unfold get. cbn [shape flat tiles]. rewrite Hshape.
    assert (Hpos : ravel [gh; gw; C; H; W] [gy; gx; c; h; w]
                   = ravel [(gh * gw)%nat; C; H; W] [(gy * gw + gx)%nat; c; h; w]).
    { cbn [ravel size fold_right]. lia. }
    rewrite Hpos. unfold bytes.
    assert (Hlt : (ravel [(gh * gw)%nat; C; H; W] [(gy * gw + gx)%nat; c; h; w]
                   < List.length (flat img))%nat).
    { rewrite Hlen, Hshape. apply ravel_within. unfold within.
      repeat constructor; try assumption. nia. }
    rewrite (nth_indep _ 0%Z (to_uint8 lo hi 0)) by (now rewrite length_map).
    apply map_nth. }
  split; [|split; [exact Hcell|]].
  - cbn [flat pixels]. unfold moved, transpose. cbn [flat]. apply Forall_forall.
    intros v Hv. apply in_map_iff in Hv as (f & <- & _).
    unfold get. cbn [flat tiles]. unfold bytes.
    match goal with |- context [nth ?n _ _] => set (k := n) end.
    destruct (Nat.lt_ge_cases k (List.length (map (to_uint8 lo hi) (flat img)))) as [Hk|Hk].
    + rewrite (nth_indep _ 0%Z (to_uint8 lo hi 0)) by exact Hk.
      rewrite map_nth. apply clip_range.
    + rewrite nth_overflow by exact Hk. lia.
  - intros ->. split; [reflexivity|]. intros y x Hy Hx.
    unfold first_channel, get. cbn [shape flat pixels ravel size fold_right].
    rewrite nth_map_seq by nia. f_equal. lia.
Qed.

(** [save_image_grid] fails with [ZeroDivisionError] when [hi == lo],
    whatever the image; with [ValueError] when the image is not
    four-dimensional or holds a number of images other than [gw * gh]; and
    with [AssertionError] when the grid is consistent but the channel count
    is neither 1 nor 3. *)
Theorem save_image_grid_failures (img : ndarray Q) (lo hi : Q) (gw gh : nat) :
  List.length (flat img) = size (shape img) ->
  (hi == lo -> save_image_grid img (lo, hi) (gw, gh) = inl ZeroDivisionError)
  /\ (~ hi == lo -> List.length (shape img) <> 4%nat ->
      exists msg, save_image_grid img (lo, hi) (gw, gh) = inl (ValueError msg))
  /\ (forall N C H W,
        ~ hi == lo -> shape img = [N; C; H; W] ->
        (N * (C * (H * W)) <> gh * gw * (C * (H * W)))%nat ->
        exists msg, save_image_grid img (lo, hi) (gw, gh) = inl (ValueError msg))
  /\ (forall C H W,
        ~ hi == lo -> shape img = [gh * gw; C; H; W]%nat ->
        C <> 1%nat -> C <> 3%nat ->
        save_image_grid img (lo, hi) (gw, gh) = inl AssertionError).
Proof.
  intros Hlen.
  assert (Hq : ~ hi == lo -> Qeq_bool (hi - lo) 0 = false).
  { intros Hne. apply not_true_iff_false. intros E. apply Qeq_bool_iff in E. apply Hne.
    rewrite <- (Qplus_0_l lo), <- E. ring. }
  split; [|split; [|split]].
  - intros E. unfold save_image_grid.
    assert (Hz : Qeq_bool (hi - lo) 0 = true).
    { apply Qeq_bool_iff. rewrite E. unfold Qminus. apply Qplus_opp_r. }
    now rewrite Hz.
  - intros Hne Hrank. unfold save_image_grid. rewrite (Hq Hne). cbn [shape].
    destruct (shape img) as [|a [|b [|c [|d [|e sh]]]]]; cbn in Hrank; try congruence;
      eexists; reflexivity.
  - intros N C H W Hne Hshape Hsize. unfold save_image_grid. rewrite (Hq Hne).
    cbn [shape]. rewrite Hshape.
    assert (Hs : (size [gh; gw; C; H; W] =? List.length (map (to_uint8 lo hi) (flat img)))%nat
                 = false).
    { apply Nat.eqb_neq. rewrite length_map, Hlen, Hshape. cbn [size fold_right]. lia. }
    unfold reshape. cbn [flat]. rewrite Hs. eexists. reflexivity.
  - intros C H W Hne Hshape H1 H3. unfold save_image_grid. rewrite (Hq Hne).
    cbn [shape]. rewrite Hshape.
    assert (Hs : (size [gh; gw; C; H; W] =? List.length (map (to_uint8 lo hi) (flat img)))%nat
                 = true).
    { apply Nat.eqb_eq. rewrite length_map, Hlen, Hshape. cbn [size fold_right]. lia. }
    unfold reshape. cbn [flat]. rewrite Hs. cbn [flat transpose].
    rewrite length_map, length_seq. cbn [shape map nth].
    assert (Hs2 : (size [gh * H; gw * W; C] =? size [gh; H; gw; W; C])%nat = true).
    { apply Nat.eqb_eq. cbn [size fold_right]. lia. }
    rewrite Hs2.
    rewrite (proj2 (Nat.eqb_neq C 1) H1), (proj2 (Nat.eqb_neq C 3) H3). reflexivity.
Qed.

End WithNumpy.
End ImageFacts.

(* ------------------------------------------------------------------ *)
(** ** The further facts on concrete inputs *)

Module MoreScenarios.
Import Torch Monad Loss TrainingLoop Observers Protocol Ticks.
Import Grid ImageGrid Accepts.
Import LossExtras LoopExtras GridFacts ImageFacts Stub Samples.
Local Open Scope string_scope.
Local Open Scope list_scope.

Lemma run_G_without_style_mixing_witness :
  style_mixing_prob no_mixing <= 0
  /\ run_G no_mixing (image 1) (one_hot 1) true fresh
     = (inr (Var (G_synthesis (G_mapping (image 1) (one_hot 1) false))
               [G_synthesis_id; G_mapping_id],
             Var (G_mapping (image 1) (one_hot 1) false) [G_mapping_id]),
        Machine (EvForward G_synthesis_id true :: EvForward G_mapping_id true :: trace fresh)
                (requires_grad fresh) (grad_populated fresh) (pipe_p fresh) (draws fresh)).
Proof.
  split; [discriminate|].
  apply (@run_G_without_style_mixing collaborators). discriminate.
Defined.

Lemma run_G_with_style_mixing_witness :
  0 < style_mixing_prob loss_defaults
  /\ (1 < shape1 (G_mapping latents (one_hot 1) false))%Z
  /\ exists cutoff,
       run_G loss_defaults latents (one_hot 1) true training_G
       = (inr (Var (G_synthesis
                      (splice_from (G_mapping latents (one_hot 1) false) cutoff
                         (G_mapping (randn_like 2 latents) (one_hot 1) true)))
                 [G_synthesis_id; G_mapping_id],
               Var (splice_from (G_mapping latents (one_hot 1) false) cutoff
                      (G_mapping (randn_like 2 latents) (one_hot 1) true))
                 [G_mapping_id]),
          Machine (EvForward G_synthesis_id true :: EvForward G_mapping_id true
                     :: EvForward G_mapping_id true :: trace training_G)
                  (requires_grad training_G) (grad_populated training_G)
                  (pipe_p training_G) (3 + draws training_G))
       /\ (cutoff = shape1 (G_mapping latents (one_hot 1) false)
           \/ cutoff = random_ (draws training_G) 1
                         (shape1 (G_mapping latents (one_hot 1) false)))
       /\ (style_mixing_prob loss_defaults <= rand 1
           -> cutoff = shape1 (G_mapping latents (one_hot 1) false)).
Proof.
  split; [reflexivity|]. split; [reflexivity|].
  apply (@run_G_with_style_mixing collaborators loss_defaults latents (one_hot 1) true
           training_G); reflexivity.
Defined.

Lemma Dboth_without_r1_is_Dmain_witness :
  r1_gamma no_r1 == 0
  /\ accumulate_gradients no_r1 "Dboth" (image 0) (one_hot 0) (image 1) (one_hot 1)
       true 1 fresh
     = accumulate_gradients no_r1 "Dmain" (image 0) (one_hot 0) (image 1) (one_hot 1)
         true 1 fresh.
Proof.
  split; [reflexivity|].
  apply (@Dboth_without_r1_is_Dmain collaborators). reflexivity.
Defined.

Lemma Gboth_without_pl_is_Gmain_witness :
  pl_weight loss_defaults == 0
  /\ accumulate_gradients loss_defaults "Gboth" (image 0) (one_hot 0) (image 1) (one_hot 1)
       true 1 fresh
     = accumulate_gradients loss_defaults "Gmain" (image 0) (one_hot 0) (image 1) (one_hot 1)
         true 1 fresh.
Proof.
  split; [reflexivity|].
  apply (@Gboth_without_pl_is_Gmain collaborators). reflexivity.
Defined.

Lemma generator_phases_ignore_real_batch_witness :
  In "Gboth" ["Gmain"; "Gboth"]
  /\ accumulate_gradients loss_defaults "Gboth" (image 0) (one_hot 0) (image 1) (one_hot 1)
       true 1 fresh
     = accumulate_gradients loss_defaults "Gboth" (image 7) (one_hot 7) (image 1) (one_hot 1)
         true 1 fresh.
Proof.
  split; [right; left; reflexivity|].
  apply (@generator_phases_ignore_real_batch collaborators).
  right; left; reflexivity.
Defined.

Lemma forward_schedule_witness :
  owner_enabled training_D "Dboth" = true
  /\ mixing_defined loss_defaults latents (one_hot 1) = true
  /\ In "Dboth" ["Gmain"; "Gboth"; "Dmain"; "Dboth"]
  /\ exists new,
       trace (snd (accumulate_gradients loss_defaults "Dboth" (fst (batch 0)) (snd (batch 0))
                     latents (one_hot 1) true 1 training_D))
       = new ++ trace training_D
       /\ filter is_forward new
          = [EvForward D_id true; EvForward D_id false; EvForward G_synthesis_id false;
             EvForward G_mapping_id false; EvForward G_mapping_id false].
Proof.
  split; [reflexivity|]. split; [reflexivity|].
  split; [do 3 right; left; reflexivity|].
  apply (@forward_schedule collaborators loss_defaults "Dboth" (fst (batch 0)) (snd (batch 0))
           latents (one_hot 1) true 1 training_D eq_refl eq_refl).
  do 3 right; left; reflexivity.
Defined.

Lemma discriminator_reported_loss_witness :
  owner_enabled training_D "Dmain" = true
  /\ mixing_defined loss_defaults latents (one_hot 1) = true
  /\ In "Dmain" ["Dmain"; "Dboth"]
  /\ exists v,
       fst (accumulate_gradients loss_defaults "Dmain" (fst (batch 0)) (snd (batch 0))
              latents (one_hot 1) true 1 training_D) = inr v
       /\ data v
          = mean (softplus (neg (run_D_fn loss_defaults (pipe_p training_D)
                                   (snd (batch 0)) (fst (batch 0))))).
Proof.
  split; [reflexivity|]. split; [reflexivity|]. split; [left; reflexivity|].
  apply (@discriminator_reported_loss collaborators loss_defaults "Dmain" (fst (batch 0))
           (snd (batch 0)) latents (one_hot 1) true 1 training_D eq_refl eq_refl).
  left; reflexivity.
Defined.

Lemma generator_reported_loss_witness :
  owner_enabled training_G "Gmain" = true
  /\ mixing_defined loss_defaults latents (one_hot 1) = true
  /\ In "Gmain" ["Gmain"; "Gboth"]
  /\ exists v gen_img gen_ws s1,
       run_G loss_defaults latents (one_hot 1) (true && negb (do_Gpl loss_defaults "Gmain"))
         training_G
       = (inr (gen_img, gen_ws), s1)
       /\ fst (accumulate_gradients loss_defaults "Gmain" (fst (batch 0)) (snd (batch 0))
                 latents (one_hot 1) true 2 training_G) = inr v
       /\ data v
          = mean (mul_scalar
                    (mean (softplus (neg (run_D_fn loss_defaults (pipe_p training_G)
                                            (one_hot 1) (data gen_img)))))
                    2).
Proof.
  split; [reflexivity|]. split; [reflexivity|]. split; [left; reflexivity|].
  apply (@generator_reported_loss collaborators loss_defaults "Gmain" (fst (batch 0))
           (snd (batch 0)) latents (one_hot 1) true 2 training_G eq_refl eq_refl).
  left; reflexivity.
Defined.

Lemma backward_schedule_witness :
  owner_enabled training_G "Gmain" = true
  /\ mixing_defined loss_defaults latents (one_hot 1) = true
  /\ In "Gmain" ["Gmain"; "Gboth"; "Dmain"; "Dboth"]
  /\ exists gen_img gen_ws s1 before,
       run_G loss_defaults latents (one_hot 1)
         (do_Gmain "Gmain" && true && negb (do_Gpl loss_defaults "Gmain")) training_G
       = (inr (gen_img, gen_ws), s1)
       /\ existsb is_backward before = false
       /\ trace (snd (accumulate_gradients loss_defaults "Gmain" (fst (batch 0))
                        (snd (batch 0)) latents (one_hot 1) true 2 training_G))
          = EvBackward
              (mul_scalar
                 (mean (softplus (neg (run_D_fn loss_defaults (pipe_p training_G) (one_hot 1)
                                         (data gen_img)))))
                 2)
              [D_id; G_synthesis_id; G_mapping_id]
              :: before ++ trace training_G.
Proof.
  split; [reflexivity|]. split; [reflexivity|]. split; [left; reflexivity|].
  apply (@backward_schedule collaborators loss_defaults "Gmain" (fst (batch 0))
           (snd (batch 0)) latents (one_hot 1) true 2 training_G eq_refl eq_refl).
  left; reflexivity.
Defined.

Lemma phase_populates_only_owner_witness :
  mixing_defined loss_defaults latents (one_hot 1) = true
  /\ In "Dmain" ["Gmain"; "Gboth"; "Dmain"; "Dboth"]
  /\ exists v s',
       accumulate_gradients loss_defaults "Dmain" (fst (batch 0)) (snd (batch 0))
         latents (one_hot 1) true 1
         (Machine [] (set (Flags false false) (phase_owner "Dmain") true)
            (Flags true false) None 0)
       = (inr v, s')
       /\ grad_populated s' = set (Flags true false) (phase_owner "Dmain") true.
Proof.
  split; [reflexivity|]. split; [do 2 right; left; reflexivity|].
  apply (@phase_populates_only_owner collaborators loss_defaults "Dmain" (fst (batch 0))
           (snd (batch 0)) latents (one_hot 1) true 1 [] (Flags true false) None 0 eq_refl).
  do 2 right; left; reflexivity.
Defined.

Lemma iteration_protocol_witness :
  (1 <= batch_gpu defaults)%Z
  /\ (forall i, per_device_loader i <> [])
  /\ exists l' c s' loss_g loss_d,
       loop_body defaults entry fresh = (inr (l', c), s')
       /\ trace s'
          = (if within_tick defaults (budget_reached defaults (cur_nimg l'))
                  (cur_tick entry) (cur_nimg l') (tick_start_nimg entry)
             then []
             else tick_events defaults (budget_reached defaults (cur_nimg l')) (cur_nimg l'))
            ++ report_events defaults (cur_nimg l')
            ++ EvEMA (ema_beta defaults (cur_nimg entry))
            :: phase_events D loss_d ++ phase_events G loss_g ++ trace fresh
       /\ forallb is_loss_event loss_g = true
       /\ forallb is_loss_event loss_d = true.
Proof.
  split; [discriminate|]. split; [intros i; discriminate|].
  apply (@iteration_protocol collaborators defaults entry fresh);
    [discriminate | intros i; discriminate].
Defined.

Lemma no_sync_off_coordinator_witness :
  (1 <= batch_gpu worker)%Z
  /\ (forall i, per_device_loader i <> [])
  /\ ordinal worker <> 0%Z
  /\ exists r s' new,
       loop_body worker entry fresh = (inr r, s')
       /\ trace s' = new ++ trace fresh
       /\ existsb is_synced_forward new = false.
Proof.
  split; [discriminate|]. split; [intros i; discriminate|]. split; [discriminate|].
  apply (@no_sync_off_coordinator collaborators worker entry fresh);
    [discriminate | intros i; discriminate | discriminate].
Defined.

Lemma gradients_after_iteration_witness :
  (1 <= batch_gpu defaults)%Z
  /\ (forall i, per_device_loader i <> [])
  /\ requires_grad fresh = no_grad
  /\ exists r s',
       loop_body defaults entry fresh = (inr r, s')
       /\ requires_grad s' = no_grad
       /\ grad_populated s' = Flags true true.
Proof.
  split; [discriminate|]. split; [intros i; discriminate|]. split; [reflexivity|].
  apply (@gradients_after_iteration collaborators defaults entry fresh);
    [discriminate | intros i; discriminate | reflexivity].
Defined.

Lemma abort_polled_at_tick_boundaries_witness :
  (1 <= batch_gpu aborting)%Z
  /\ (forall i, per_device_loader i <> [])
  /\ exists l' c s' new,
       loop_body aborting entry fresh = (inr (l', c), s')
       /\ trace s' = new ++ trace fresh
       /\ filter is_abort_poll new
          = (if negb (within_tick aborting (budget_reached aborting (cur_nimg l'))
                        (cur_tick entry) (cur_nimg l') (tick_start_nimg entry))
                && negb (budget_reached aborting (cur_nimg l'))
                && match abort_fn aborting with Some _ => true | None => false end
             then [EvAbortPoll] else [])
       /\ (c = Break
           <-> within_tick aborting (budget_reached aborting (cur_nimg l'))
                 (cur_tick entry) (cur_nimg l') (tick_start_nimg entry) = false
               /\ (budget_reached aborting (cur_nimg l') = true
                   \/ aborted aborting (cur_tick entry) = true)).
Proof.
  split; [discriminate|]. split; [intros i; discriminate|].
  apply (@abort_polled_at_tick_boundaries collaborators aborting entry fresh);
    [discriminate | intros i; discriminate].
Defined.

Lemma abort_at_first_poll_witness :
  (1 <= batch_gpu aborting)%Z
  /\ (forall i, per_device_loader i <> [])
  /\ abort_fn aborting = Some (fun _ => true)
  /\ exists l',
       (forall fuel, fst (training_loop (S fuel) aborting fresh) = inr (Some l'))
       /\ batch_idx l' = 1%Z
       /\ cur_nimg l' = batch_size aborting
       /\ cur_tick l' = 1%Z.
Proof.
  split; [discriminate|]. split; [intros i; discriminate|]. split; [reflexivity|].
  apply (@abort_at_first_poll collaborators aborting (fun _ => true) fresh);
    [discriminate | intros i; discriminate | reflexivity | reflexivity].
Defined.

Lemma empty_loader_stops_witness :
  (forall i, @per_device_loader no_data i = [])
  /\ exists s',
       @training_loop no_data 3 defaults fresh = (inl Py.StopIteration, s')
       /\ trace s' = EvRequiresGrad D false :: EvRequiresGrad G false :: trace fresh.
Proof.
  split; [intros i; reflexivity|].
  apply (@empty_loader_stops no_data defaults fresh 2). intros i; reflexivity.
Defined.

Lemma augmentation_strength_fixed_witness :
  (1 <= batch_gpu ada_scenario)%Z
  /\ (forall i, per_device_loader i <> [])
  /\ pipe_p (snd (training_loop 40 ada_scenario fresh))
     = if augment_kwargs ada_scenario
          && (Py.Qltb 0 (augment_p ada_scenario)
              || match ada_target ada_scenario with Some _ => true | None => false end)
       then Some (augment_p ada_scenario) else None.
Proof.
  split; [discriminate|]. split; [intros i; discriminate|].
  apply (@augmentation_strength_fixed collaborators ada_scenario fresh 40);
    [discriminate | intros i; discriminate].
Defined.

Lemma ada_adjust_direction_witness :
  0 <= 1 # 10
  /\ 0 < ada_kimg ada_scenario
  /\ (0 <= batch_size ada_scenario * ada_interval ada_scenario)%Z
  /\ 0 <= inject_Z (batch_size ada_scenario * ada_interval ada_scenario)
          / (ada_kimg ada_scenario * 1000)
  /\ ((6 # 10) < (8 # 10) ->
      ada_adjust ada_scenario (6 # 10) (8 # 10) (1 # 10)
      == (1 # 10) + inject_Z (batch_size ada_scenario * ada_interval ada_scenario)
                    / (ada_kimg ada_scenario * 1000))
  /\ ((8 # 10) == (6 # 10) ->
      ada_adjust ada_scenario (6 # 10) (8 # 10) (1 # 10) == 1 # 10)
  /\ ((8 # 10) < (6 # 10) ->
      ada_adjust ada_scenario (6 # 10) (8 # 10) (1 # 10)
      == Qmax ((1 # 10) - inject_Z (batch_size ada_scenario * ada_interval ada_scenario)
                          / (ada_kimg ada_scenario * 1000)) 0).
Proof.
  split; [discriminate|]. split; [reflexivity|]. split; [discriminate|].
  apply (ada_adjust_direction ada_scenario (6 # 10) (8 # 10) (1 # 10));
    [discriminate | reflexivity | discriminate].
Defined.

Lemma tick_count_at_termination_witness :
  exact_times_1000 (total_kimg one_kimg) = true
  /\ exact_times_1000 (kimg_per_tick one_kimg) = true
  /\ (0 < batch_size one_kimg)%Z
  /\ (1 <= batch_gpu one_kimg)%Z
  /\ (forall i, per_device_loader i <> [])
  /\ abort_fn one_kimg = None
  /\ exists (n : nat) (l' : locals),
       (1 <= n)%nat
       /\ budget_reached one_kimg (Z.of_nat n * batch_size one_kimg) = true
       /\ (forall k, (1 <= k < n)%nat ->
                     budget_reached one_kimg (Z.of_nat k * batch_size one_kimg) = false)
       /\ cur_nimg l' = (Z.of_nat n * batch_size one_kimg)%Z
       /\ fst (training_loop n one_kimg fresh) = inr (Some l')
       /\ (forall k, (k < n)%nat -> fst (training_loop k one_kimg fresh) = inr None)
       /\ cur_tick l' = Z.of_nat (List.length (filter (is_tick one_kimg n) (seq 1 n))).
Proof.
  split; [reflexivity|]. split; [reflexivity|].
  split; [reflexivity|]. split; [discriminate|]. split; [intros i; discriminate|].
  split; [reflexivity|].
  apply (@tick_count_at_termination collaborators one_kimg fresh);
    [reflexivity | reflexivity | reflexivity | discriminate | intros i; discriminate
    | reflexivity].
Defined.

Lemma reversing_permutes (k : nat) (l : list nat) : Permutation (reversing k l) l.
Proof. apply Permutation_sym, Permutation_rev. Qed.

Lemma unlabelled_grid_witness :
  (forall k l, Permutation (reversing k l) l)
  /\ ds_width plain <> 0%Z /\ ds_height plain <> 0%Z
  /\ has_labels plain = false
  /\ (0 < ds_len plain)%nat
  /\ exists gw gh grid,
       grid_indices reversing plain = inr (gw, gh, grid)
       /\ gw = clip (7680 / ds_width plain) 7 32
       /\ gh = clip (4320 / ds_height plain) 4 32
       /\ (7 <= gw <= 32)%Z /\ (4 <= gh <= 32)%Z
       /\ List.length grid = Z.to_nat (gw * gh)
       /\ Forall (fun i => (i < ds_len plain)%nat) grid
       /\ ((Z.to_nat (gw * gh) <= ds_len plain)%nat -> NoDup grid)
       /\ ((ds_len plain <= Z.to_nat (gw * gh))%nat ->
           forall i, (i < ds_len plain)%nat -> In i grid).
Proof.
  split; [exact reversing_permutes|].
  split; [discriminate|]. split; [discriminate|]. split; [reflexivity|].
  split; [apply Nat.lt_0_succ|].
  apply (@unlabelled_grid reversing reversing_permutes plain);
    [discriminate | discriminate | reflexivity | apply Nat.lt_0_succ].
Defined.

Lemma labelled_grid_witness :
  (forall k l, Permutation (reversing k l) l)
  /\ ds_width two_classes <> 0%Z /\ ds_height two_classes <> 0%Z
  /\ has_labels two_classes = true
  /\ (0 < ds_len two_classes)%nat
  /\ exists gw gh rows,
       grid_indices reversing two_classes = inr (gw, gh, List.concat rows)
       /\ gw = clip (7680 / ds_width two_classes) 7 32
       /\ gh = clip (4320 / ds_height two_classes) 4 32
       /\ sorted_keys (group_by_label two_classes) <> []
       /\ Forall2 (shows_label two_classes (sorted_keys (group_by_label two_classes))
                     (Z.to_nat gw))
            (seq 0 (Z.to_nat gh)) rows.
Proof.
  split; [exact reversing_permutes|].
  split; [discriminate|]. split; [discriminate|]. split; [reflexivity|].
  split; [apply Nat.lt_0_succ|].
  apply (@labelled_grid reversing reversing_permutes two_classes);
    [discriminate | discriminate | reflexivity | apply Nat.lt_0_succ].
Defined.

Lemma rows_continue_through_group_witness :
  (forall k l, Permutation (reversing k l) l)
  /\ ds_width two_classes <> 0%Z /\ ds_height two_classes <> 0%Z
  /\ has_labels two_classes = true
  /\ (0 < ds_len two_classes)%nat
  /\ exists gw gh shuffled rows,
       shuffle_groups reversing 0 (sorted_keys (group_by_label two_classes))
         (group_by_label two_classes) = inr shuffled
       /\ grid_indices reversing two_classes = inr (gw, gh, List.concat rows)
       /\ Forall2
            (fun y row =>
               exists group,
                 lookup shuffled
                   (nth (y mod List.length (sorted_keys (group_by_label two_classes)))
                      (sorted_keys (group_by_label two_classes)) [])
                 = Some group
                 /\ row
                    = map (fun x =>
                             nth ((x + rows_above
                                         (List.length (sorted_keys (group_by_label two_classes)))
                                         (y mod List.length
                                                  (sorted_keys (group_by_label two_classes)))
                                         y * Z.to_nat gw)
                                    mod List.length group) group O)
                        (seq 0 (Z.to_nat gw)))
            (seq 0 (Z.to_nat gh)) rows.
Proof.
  split; [exact reversing_permutes|].
  split; [discriminate|]. split; [discriminate|]. split; [reflexivity|].
  split; [apply Nat.lt_0_succ|].
  apply (@rows_continue_through_group reversing reversing_permutes two_classes);
    [discriminate | discriminate | reflexivity | apply Nat.lt_0_succ].
Defined.

Lemma degenerate_dataset_divides_by_zero_witness :
  (forall k l, Permutation (reversing k l) l)
  /\ (ds_width flat_images = 0%Z \/ ds_height flat_images = 0%Z \/ ds_len flat_images = O)
  /\ setup_snapshot_image_grid reversing flat_images = inl Grid.ZeroDivisionError.
Proof.
  split; [exact reversing_permutes|]. split; [left; reflexivity|].
  apply (@degenerate_dataset_divides_by_zero reversing reversing_permutes flat_images).
  left; reflexivity.
Defined.

Lemma save_image_grid_layout_witness :
  ~ 1 == -1
  /\ shape two_grey = [1 * 2; 1; 1; 2]%nat
  /\ List.length (flat two_grey) = size (shape two_grey)
  /\ exists pixels,
       @save_image_grid exact_numpy two_grey (-1, 1) (2%nat, 1%nat)
       = inr (L (first_channel pixels))
       /\ shape pixels = [1 * 1; 2 * 2; 1]%nat
       /\ Forall (fun v => (0 <= v <= 255)%Z) (flat pixels)
       /\ (forall gy gx h w c,
             (gy < 1)%nat -> (gx < 2)%nat -> (h < 1)%nat -> (w < 2)%nat -> (c < 1)%nat ->
             get pixels [gy * 1 + h; gx * 2 + w; c]%nat 0%Z
             = @to_uint8 exact_numpy (-1) 1 (get two_grey [gy * 2 + gx; c; h; w]%nat 0))
       /\ (1%nat = 1%nat ->
           shape (first_channel pixels) = [1 * 1; 2 * 2]%nat
           /\ forall y x, (y < 1 * 1)%nat -> (x < 2 * 2)%nat ->
                get (first_channel pixels) [y; x] 0%Z = get pixels [y; x; 0%nat] 0%Z).
Proof.
  split; [discriminate|]. split; [reflexivity|]. split; [reflexivity|].
  apply (@save_image_grid_layout exact_numpy two_grey (-1) 1 2 1 1 1 2);
    [discriminate | reflexivity | reflexivity | left; reflexivity
    | apply Nat.lt_0_succ | apply Nat.lt_0_succ | apply Nat.lt_0_succ
    | apply Nat.lt_0_succ].
Defined.

Lemma save_image_grid_failures_witness :
  List.length (flat two_channels) = size (shape two_channels)
  /\ @save_image_grid exact_numpy two_channels (-1, 1) (2%nat, 1%nat)
     = inl Grid.AssertionError.
Proof.
  split; [reflexivity|].
  apply (proj2 (proj2 (proj2
           (@save_image_grid_failures exact_numpy two_channels (-1) 1 2 1
              (eq_refl _)))) 2 1 1)%nat;
    [discriminate | reflexivity | discriminate | discriminate].
Defined.

End MoreScenarios.
